(** * TaShan-PaperChecker: the citation-matching core, embedded in Rocq

    The development follows the Python sources
      - core/checker/citation_checking/reference_mapper.py
      - core/extractor/citation_extraction/citation_extractor.py
      - core/extractor/citation_extraction/citation_formatter.py
      - core/checker/citation_checking/citation_analyzer.py
      - core/checker/citation_checker.py and models/document.py
    Python strings are sequences of Unicode code points, floats are IEEE
    binary64 values, and the regular expressions are run by a small
    backtracking matcher with Python's priorities. *)

From Stdlib Require Import Ascii String.
From Stdlib Require Import List Bool Arith NArith ZArith Lia.
From Stdlib Require Import SpecFloat.
Import ListNotations.

(* ================================================================== *)
(** * Python strings *)
(* ================================================================== *)

Module Py.

(** A character is a Unicode code point; a [str] is a sequence of them, so
    that [len], indexing and [find] count code points as Python does. *)
Definition char := N.
Definition str := list char.

Definition ch (a : ascii) : char := N_of_ascii a.

(** Decoding of the UTF-8 bytes of a literal of this file into code points. *)
Fixpoint utf8_decode (bs : list N) : str :=
  match bs with
  | [] => []
  | b :: r =>
    if (b <? 128)%N then b :: utf8_decode r
    else if (b <? 224)%N then
      match r with
      | b1 :: r' => ((b mod 32) * 64 + b1 mod 64)%N :: utf8_decode r'
      | _ => []
      end
    else if (b <? 240)%N then
      match r with
      | b1 :: b2 :: r' =>
        ((b mod 16) * 4096 + (b1 mod 64) * 64 + b2 mod 64)%N :: utf8_decode r'
      | _ => []
      end
    else
      match r with
      | b1 :: b2 :: b3 :: r' =>
        ((b mod 8) * 262144 + (b1 mod 64) * 4096 + (b2 mod 64) * 64 + b3 mod 64)%N
          :: utf8_decode r'
      | _ => []
      end
  end.

Definition u (s : string) : str :=
  utf8_decode (List.map N_of_ascii (list_ascii_of_string s)).

(** [==] on strings *)
Fixpoint str_eqb (a b : str) : bool :=
  match a, b with
  | [], [] => true
  | x :: a', y :: b' => (x =? y)%N && str_eqb a' b'
  | _, _ => false
  end.

(** [str.isspace] for one character, which is also the class [\s] of [re]
    on [str] patterns: the code points of bidirectional type WS, B or S or
    of category Zs. *)
Definition isspace (c : char) : bool :=
  ((9 <=? c) && (c <=? 13) || (28 <=? c) && (c <=? 32) ||
   (c =? 133) || (c =? 160) || (c =? 5760) ||
   (8192 <=? c) && (c <=? 8202) ||
   (c =? 8232) || (c =? 8233) || (c =? 8239) || (c =? 8287) || (c =? 12288))%N.

Fixpoint lstrip (s : str) : str :=
  match s with
  | c :: s' => if isspace c then lstrip s' else s
  | [] => []
  end.

Definition rstrip (s : str) : str := rev (lstrip (rev s)).

(** [s.strip()] *)
Definition strip (s : str) : str := rstrip (lstrip s).

(** [s.startswith(p)] *)
Fixpoint startswith (p s : str) : bool :=
  match p, s with
  | [], _ => true
  | x :: p', y :: s' => (x =? y)%N && startswith p' s'
  | _ :: _, [] => false
  end.

(** [s.find(sub)]: the lowest index where [sub] occurs, or -1 *)
Fixpoint find_from (sub s : str) (i : Z) : Z :=
  if startswith sub s then i
  else match s with
       | [] => (-1)%Z
       | _ :: s' => find_from sub s' (i + 1)%Z
       end.

Definition find (s sub : str) : Z := find_from sub s 0%Z.

(** [sub in s] *)
Fixpoint contains (sub s : str) : bool :=
  startswith sub s ||
  match s with
  | [] => false
  | _ :: s' => contains sub s'
  end.

(** [s[:n]] *)
Definition prefix (n : nat) (s : str) : str := firstn n s.

(** [s.split(sep)] for a non-empty separator.  [skip] counts the characters
    of a separator still to be dropped, [cur] is the piece being read, in
    reverse. *)
Fixpoint split_go (sep s : str) (skip : nat) (cur : str) : list str :=
  match s with
  | [] => [rev cur]
  | c :: s' =>
    match skip with
    | S k => split_go sep s' k cur
    | O =>
      if startswith sep s then rev cur :: split_go sep s' (length sep - 1) []
      else split_go sep s' 0 (c :: cur)
    end
  end.

Definition split (s sep : str) : list str := split_go sep s 0 [].

(** [s.split()]: the maximal runs of non-whitespace characters *)
Fixpoint words_go (s : str) (cur : str) : list str :=
  match s with
  | [] => match cur with [] => [] | _ => [rev cur] end
  | c :: s' =>
    if isspace c
    then match cur with [] => words_go s' [] | _ => rev cur :: words_go s' [] end
    else words_go s' (c :: cur)
  end.

Definition words (s : str) : list str := words_go s [].

(** [sep.join(l)] *)
Fixpoint join (sep : str) (l : list str) : str :=
  match l with
  | [] => []
  | [x] => x
  | x :: l' => x ++ sep ++ join sep l'
  end.

End Py.

Import Py.

(* ================================================================== *)
(** * reference_mapper.py: OCR confusion between two years *)
(* ================================================================== *)

Module Ocr.

Local Open Scope N_scope.

(** The dict [ocr_to_digit], as an association list in source order. *)
Definition ocr_to_digit : list (char * char) :=
  [ (ch "O", ch "0"); (ch "o", ch "0");
    (ch "I", ch "1"); (ch "i", ch "1"); (ch "l", ch "1");
    (ch "Z", ch "2"); (ch "z", ch "2");
    (ch "S", ch "5"); (ch "s", ch "5");
    (ch "G", ch "6"); (ch "g", ch "6");
    (ch "B", ch "8"); (ch "b", ch "8");
    (ch "D", ch "0"); (ch "d", ch "0") ].

Fixpoint lookup (c : char) (d : list (char * char)) : option char :=
  match d with
  | [] => None
  | (k, v) :: d' => if c =? k then Some v else lookup c d'
  end.

(** One step of the loops building [normalized_year1] and
    [normalized_year2]. *)
Definition normalize_char (c : char) : char :=
  match lookup c ocr_to_digit with
  | Some d => d
  | None => c
  end.

Definition normalize_year (year : str) : str := List.map normalize_char year.

(** [s[i]] for an index in range *)
Definition at_ (s : str) (i : nat) : char := nth i s 0.

Definition differ (n1 n2 : str) (i : nat) : bool := negb (at_ n1 i =? at_ n2 i).

(** The list [ocr_errors]. *)
Definition ocr_errors : list (char * char) :=
  [ (ch "0", ch "O"); (ch "1", ch "I"); (ch "1", ch "l"); (ch "2", ch "Z");
    (ch "5", ch "S"); (ch "6", ch "G"); (ch "8", ch "B"); (ch "0", ch "D");
    (ch "1", ch "7"); (ch "2", ch "7"); (ch "2", ch "1"); (ch "0", ch "8") ].

(** The test made for one entry [(error1, error2)] of [ocr_errors]. *)
Definition swapped (char1_1 char1_2 char2_1 char2_2 : char) (e : char * char) : bool :=
  let '(error1, error2) := e in
  (char1_1 =? error1) && (char2_1 =? error2) && (char1_2 =? error2) && (char2_2 =? error1)
  || (char1_1 =? error2) && (char2_1 =? error1) && (char1_2 =? error1) && (char2_2 =? error2).

Definition is_ocr_error (year1 year2 : str) : bool :=
  if negb (length year1 =? 4)%nat || negb (length year2 =? 4)%nat then false
  else
    let normalized_year1 := normalize_year year1 in
    let normalized_year2 := normalize_year year2 in
    if str_eqb normalized_year1 normalized_year2 then true
    else
      let diff_count :=
        fold_left
          (fun n i => if differ normalized_year1 normalized_year2 i then S n else n)
          (seq 0 4) O in
      if (diff_count =? 1)%nat then true
      else if (diff_count =? 2)%nat then
        let diff_positions :=
          filter (differ normalized_year1 normalized_year2) (seq 0 4) in
        match diff_positions with
        | [pos1; pos2] =>
          let char1_1 := at_ normalized_year1 pos1 in
          let char1_2 := at_ normalized_year1 pos2 in
          let char2_1 := at_ normalized_year2 pos1 in
          let char2_2 := at_ normalized_year2 pos2 in
          existsb (swapped char1_1 char1_2 char2_1 char2_2) ocr_errors
        | _ => false
        end
      else false.

(** The number of positions at which two strings of the same length
    differ. *)
Fixpoint hamming (a b : str) : nat :=
  match a, b with
  | x :: a', y :: b' => ((if (x =? y)%N then 0 else 1) + hamming a' b')%nat
  | _, _ => O
  end.

(** The two strings differ at [p] and [q] and nowhere else. *)
Definition differ_exactly_at (a b : str) (p q : nat) : Prop :=
  (p < q < 4)%nat /\
  forall i, (i < 4)%nat -> (at_ a i <> at_ b i <-> i = p \/ i = q).

(** The unordered pair [{x, y}] is the entry [e] of the table. *)
Definition realizes (x y : char) (e : char * char) : Prop :=
  (x = fst e /\ y = snd e) \/ (x = snd e /\ y = fst e).

End Ocr.

Module OcrSpec.
Import Ocr.

(** [c] is one of the listed characters. *)
Definition one_of (c : char) (l : list ascii) : bool :=
  existsb (fun a => (c =? ch a)%N) l.

(** The normalisation map as the specification words it:
    O,o,D,d -> 0; I,i,l -> 1; Z,z -> 2; S,s -> 5; G,g -> 6; B,b -> 8. *)
Definition spec_normalize (c : char) : char :=
  if one_of c ["O"; "o"; "D"; "d"]%char then ch "0"
  else if one_of c ["I"; "i"; "l"]%char then ch "1"
  else if one_of c ["Z"; "z"]%char then ch "2"
  else if one_of c ["S"; "s"]%char then ch "5"
  else if one_of c ["G"; "g"]%char then ch "6"
  else if one_of c ["B"; "b"]%char then ch "8"
  else c.

End OcrSpec.

(* ================================================================== *)
(** * Python floats: IEEE binary64, rounding to nearest even *)
(* ================================================================== *)

Module F64.

Definition prec : Z := 53.
Definition emax : Z := 1024.

Definition float := spec_float.

(** [float(n)] for an integer *)
Definition of_Z (n : Z) : float := binary_normalize prec emax n 0 false.

Definition mul : float -> float -> float := SFmul prec emax.
Definition add : float -> float -> float := SFadd prec emax.
Definition div : float -> float -> float := SFdiv prec emax.

(** [a < b], [a > b] and [a <= b] *)
Definition ltb : float -> float -> bool := SFltb.
Definition gtb (a b : float) : bool := SFltb b a.
Definition leb : float -> float -> bool := SFleb.

(** [max(a, b)] of Python: [b] when [b > a], else [a] *)
Definition max (a b : float) : float := if gtb b a then b else a.

(** The decimal literal [n / 10^k] is the double nearest to that quotient;
    both operands are exact, so the correctly rounded division gives it. *)
Definition decimal (n : Z) (k : nat) : float := div (of_Z n) (of_Z (10 ^ Z.of_nat k)).

Definition f0_0 : float := S754_zero false.
Definition f1_0 : float := Eval vm_compute in of_Z 1.
Definition f2_0 : float := Eval vm_compute in of_Z 2.
Definition f0_3 : float := Eval vm_compute in decimal 3 1.
Definition f0_4 : float := Eval vm_compute in decimal 4 1.
Definition f0_5 : float := Eval vm_compute in decimal 5 1.
Definition f0_6 : float := Eval vm_compute in decimal 6 1.
Definition f0_7 : float := Eval vm_compute in decimal 7 1.
Definition f0_8 : float := Eval vm_compute in decimal 8 1.
Definition f0_9 : float := Eval vm_compute in decimal 9 1.
Definition f0_95 : float := Eval vm_compute in decimal 95 2.

Definition is_nan (x : float) : bool :=
  match x with S754_nan => true | _ => false end.

Local Open Scope Z_scope.

(** A numeric rank: two numbers compare as their ranks do in the
    lexicographic order. *)
Definition rank (x : float) : Z * Z * Z :=
  match x with
  | S754_infinity true => (-2, 0, 0)
  | S754_finite true m e => (-1, - e, - Zpos m)
  | S754_zero _ => (0, 0, 0)
  | S754_nan => (0, 0, 0)
  | S754_finite false m e => (1, e, Zpos m)
  | S754_infinity false => (2, 0, 0)
  end.

Definition lex_lt (x y : Z * Z * Z) : Prop :=
  let '(a, b, c) := x in
  let '(a', b', c') := y in
  a < a' \/ (a = a' /\ (b < b' \/ (b = b' /\ c < c'))).

(** A number: zero or a finite value, but not an infinity. *)
Definition is_finite (x : float) : bool :=
  match x with
  | S754_zero _ | S754_finite _ _ _ => true
  | _ => false
  end.

Definition is_nonzero_finite (x : float) : bool :=
  match x with
  | S754_finite _ _ _ => true
  | _ => false
  end.

End F64.

(* ================================================================== *)
(** * The Unicode character database *)
(* ================================================================== *)

(** What the program asks of the character database of the interpreter:
    [str.lower], [str.isupper] and the class [\d] of [re] (the decimal
    digits, category Nd).  The functions of the program are written over an
    arbitrary database. *)
Class Unicode := {
  lower : str -> str;
  isupper : str -> bool;
  isdecimal : char -> bool
}.

Module BasicLatin.

Local Open Scope N_scope.

Definition is_upper_letter (c : char) : bool := (65 <=? c) && (c <=? 90).
Definition is_lower_letter (c : char) : bool := (97 <=? c) && (c <=? 122).

Definition lower_char (c : char) : char := if is_upper_letter c then c + 32 else c.

End BasicLatin.

(** The database cut down to the Basic Latin block: the letters A-Z and a-z
    are the only cased characters and 0-9 the only digits.  It agrees with
    the full database on every string made of Basic Latin characters, CJK
    ideographs and full-width punctuation. *)
#[export] Instance basic_latin : Unicode := {
  lower s := List.map BasicLatin.lower_char s;
  isupper s := existsb BasicLatin.is_upper_letter s
               && negb (existsb BasicLatin.is_lower_letter s);
  isdecimal c := ((48 <=? c) && (c <=? 57))%N
}.

(* ================================================================== *)
(** * Regular expressions of the module [re] *)
(* ================================================================== *)

Module Re.

(** The fragment the program uses.  Repetition applies to one character
    class, which is all the patterns need. *)
Inductive re :=
| Chr (p : char -> bool)                      (* one character of a class *)
| Cat (r1 r2 : re)                            (* r1 r2 *)
| Rep (greedy : bool) (min : nat) (p : char -> bool)
                                              (* p* p+ and the lazy p+? *)
| Times (n : nat) (p : char -> bool)          (* p{n} *)
| Opt (r : re)                                (* (?:r)? *)
| Grp (n : nat) (r : re)                      (* the n-th capturing group *)
| Bol                                         (* ^ *)
| Eol.                                        (* $ *)

Definition caps := list (nat * str).
Definition outcome := option (nat * caps).

(** [p{n}] from [s]: the rest after [n] characters of the class *)
Fixpoint times (n : nat) (p : char -> bool) (s : str) : option str :=
  match n with
  | O => Some s
  | S n' =>
    match s with
    | c :: s' => if p c then times n' p s' else None
    | [] => None
    end
  end.

(** Greedy repetition: as many characters as possible first, giving one
    back at a time. *)
Fixpoint rep_greedy (min : nat) (p : char -> bool) (k : nat -> str -> outcome)
    (cnt i : nat) (s : str) : outcome :=
  let stop := if (min <=? cnt)%nat then k i s else None in
  match s with
  | c :: s' =>
    if p c then
      match rep_greedy min p k (S cnt) (S i) s' with
      | Some r => Some r
      | None => stop
      end
    else stop
  | [] => stop
  end.

(** Lazy repetition: as few characters as possible first. *)
Fixpoint rep_lazy (min : nat) (p : char -> bool) (k : nat -> str -> outcome)
    (cnt i : nat) (s : str) : outcome :=
  match (if (min <=? cnt)%nat then k i s else None) with
  | Some r => Some r
  | None =>
    match s with
    | c :: s' => if p c then rep_lazy min p k (S cnt) (S i) s' else None
    | [] => None
    end
  end.

(** The backtracking matcher: [exec r i s c k] matches [r] at index [i],
    where [s] is the text from [i] on, and hands the index, the rest of the
    text and the groups to the continuation [k]; alternatives are tried in
    the order of priority of [re]. *)
Fixpoint exec (r : re) (i : nat) (s : str) (c : caps)
    (k : nat -> str -> caps -> outcome) : outcome :=
  match r with
  | Chr p =>
    match s with
    | x :: s' => if p x then k (S i) s' c else None
    | [] => None
    end
  | Cat r1 r2 => exec r1 i s c (fun i' s' c' => exec r2 i' s' c' k)
  | Rep true min p => rep_greedy min p (fun i' s' => k i' s' c) 0 i s
  | Rep false min p => rep_lazy min p (fun i' s' => k i' s' c) 0 i s
  | Times n p =>
    match times n p s with
    | Some s' => k (i + n)%nat s' c
    | None => None
    end
  | Opt r1 =>
    match exec r1 i s c k with
    | Some x => Some x
    | None => k i s c
    end
  | Grp n r1 => exec r1 i s c (fun i' s' c' => k i' s' ((n, firstn (i' - i) s) :: c'))
  | Bol => if (i =? 0)%nat then k i s c else None
  | Eol =>
    match s with
    | [] => k i s c
    | [x] => if (x =? 10)%N then k i s c else None
    | _ => None
    end
  end.

(** A match object: where the match starts and ends, and its groups. *)
Record match_ := { m_start : nat; m_end : nat; m_caps : caps }.

Definition at_index (r : re) (i : nat) (s : str) : option match_ :=
  match exec r i s [] (fun e _ c => Some (e, c)) with
  | Some (e, c) => Some {| m_start := i; m_end := e; m_caps := c |}
  | None => None
  end.

(** [re.match(r, s)] *)
Definition match_at_start (r : re) (s : str) : option match_ := at_index r 0 s.

(** [re.search(r, s)]: the leftmost match *)
Fixpoint search_from (r : re) (i : nat) (s : str) : option match_ :=
  match at_index r i s with
  | Some m => Some m
  | None =>
    match s with
    | [] => None
    | _ :: s' => search_from r (S i) s'
    end
  end.

Definition search (r : re) (s : str) : option match_ := search_from r 0 s.

(** [m.group(n)] of a group that took part in the match *)
Fixpoint group_in (n : nat) (c : caps) : str :=
  match c with
  | [] => []
  | (k, v) :: c' => if (k =? n)%nat then v else group_in n c'
  end.

Definition group (m : match_) (n : nat) : str := group_in n (m_caps m).

(** [re.sub(r, repl, s)] for a constant replacement: the matches are taken
    from left to right without overlap; [skip] counts the characters of the
    last match still to be dropped. *)
Fixpoint sub_go (r : re) (repl : str) (i skip : nat) (s : str) : str :=
  match s with
  | [] =>
    match skip with
    | O => match at_index r i s with Some _ => repl | None => [] end
    | S _ => []
    end
  | x :: s' =>
    match skip with
    | S k => sub_go r repl (S i) k s'
    | O =>
      match at_index r i s with
      | Some m =>
        if (m_end m =? i)%nat then repl ++ x :: sub_go r repl (S i) 0 s'
        else repl ++ sub_go r repl (S i) (m_end m - i - 1) s'
      | None => x :: sub_go r repl (S i) 0 s'
      end
    end
  end.

Definition sub (r : re) (repl : str) (s : str) : str := sub_go r repl 0 0 s.

(** ** Character classes and abbreviations *)

Definition one (a : ascii) : char -> bool := fun c => (c =? ch a)%N.
Definition is_cp (n : N) : char -> bool := fun c => (c =? n)%N.
Definition none_of (l : list ascii) : char -> bool :=
  fun c => negb (existsb (fun a => (c =? ch a)%N) l).
Definition any_of (l : list ascii) : char -> bool :=
  fun c => existsb (fun a => (c =? ch a)%N) l.
Definition between (lo hi : ascii) : char -> bool :=
  fun c => ((ch lo <=? c) && (c <=? ch hi))%N.
Definition either (p q : char -> bool) : char -> bool := fun c => p c || q c.

(** [.]: any character but the newline *)
Definition dot : char -> bool := fun c => negb (c =? 10)%N.

(** A literal letter under [re.IGNORECASE]; [a] is a lower-case letter
    among e, t, a, l, which no character outside Basic Latin folds to. *)
Definition nocase (a : ascii) : char -> bool :=
  fun c => ((c =? ch a) || (c + 32 =? ch a))%N.

(** A literal string *)
Fixpoint lit (s : str) : re :=
  match s with
  | [] => Times 0 dot
  | [c] => Chr (is_cp c)
  | c :: s' => Cat (Chr (is_cp c)) (lit s')
  end.

Fixpoint seq_ (l : list re) : re :=
  match l with
  | [] => Times 0 dot
  | [r] => r
  | r :: l' => Cat r (seq_ l')
  end.

End Re.

(* ================================================================== *)
(** * difflib.SequenceMatcher *)
(* ================================================================== *)

(** [ratio a b] is what [SequenceMatcher(None, a, b).ratio()] of the
    standard library returns, a number between 0 and 1; that it is a number
    is all the program relies on. *)
Class Difflib := {
  ratio : str -> str -> F64.float;
  ratio_number : forall a b, F64.is_nan (ratio a b) = false
}.

Module SequenceMatcher.
Import F64.

(** [_calculate_ratio(matches, length)] *)
Definition _calculate_ratio (matches length : nat) : float :=
  if (length =? 0)%nat then f1_0
  else div (mul f2_0 (of_Z (Z.of_nat matches))) (of_Z (Z.of_nat length)).

(** ** The matching blocks of short sequences

    The recursive longest-matching-block search of [get_matching_blocks],
    as it runs when no element of [b] is purged as popular, which needs
    200 elements or more. *)

Fixpoint common_prefix (a b : str) : nat :=
  match a, b with
  | x :: a', y :: b' => if (x =? y)%N then S (common_prefix a' b') else O
  | _, _ => O
  end.

(** The best block starting at index [i] of [a]: scanning [b] from left to
    right and keeping a block only when strictly longer. *)
Fixpoint scan_b (a_from : str) (b : str) (i j : nat) (best : nat * nat * nat)
  : nat * nat * nat :=
  match b with
  | [] => best
  | _ :: b' =>
    let k := common_prefix a_from b in
    let best' := if (snd best <? k)%nat then (i, j, k) else best in
    scan_b a_from b' i (S j) best'
  end.

Fixpoint scan_a (a b : str) (i : nat) (best : nat * nat * nat) : nat * nat * nat :=
  match a with
  | [] => best
  | _ :: a' => scan_a a' b (S i) (scan_b a b i 0 best)
  end.

(** [find_longest_match]: the longest block, the earliest in [a] among the
    longest, the earliest in [b] among those. *)
Definition find_longest_match (a b : str) : nat * nat * nat := scan_a a b 0 (0, 0, 0)%nat.

(** The sum of the sizes of the matching blocks; every block found takes at
    least one element of [a] away from both recursive calls, so a fuel of
    [length a + 1] is never used up. *)
Fixpoint blocks_size (fuel : nat) (a b : str) : nat :=
  match fuel with
  | O => O
  | S fuel' =>
    let '(i, j, k) := find_longest_match a b in
    if (k =? 0)%nat then O
    else (k + blocks_size fuel' (firstn i a) (firstn j b)
            + blocks_size fuel' (skipn (i + k) a) (skipn (j + k) b))%nat
  end.

(** A block lies inside the first sequence, of [n] elements. *)
Definition inside (n : nat) (best : nat * nat * nat) : Prop :=
  snd best = 0%nat \/ (fst (fst best) + snd best <= n)%nat.

(** [ratio()] on sequences of fewer than 200 elements in all; the longer
    ones, which the library may treat with its popularity heuristic, are
    left out and answered by 0.0. *)
Definition short_ratio (a b : str) : float :=
  if (200 <=? length a + length b)%nat then f0_0
  else _calculate_ratio (blocks_size (S (length a)) a b) (length a + length b).

End SequenceMatcher.

(* ================================================================== *)
(** * reference_mapper.py *)
(* ================================================================== *)

Module ReferenceMapper.
Import F64 Re.
Export Ocr.

(** Truth value of an [Optional[str]]: [None] and the empty string are
    false. *)
Definition truthy (o : option str) : bool :=
  match o with
  | Some (_ :: _) => true
  | _ => false
  end.

(** A reference entry: a dict with the key ['text'] and, when the document
    reader filled it in, the key ['year']. *)
Record entry := { text : str; year : option str }.

(** The dict returned for a matched citation.  ['reference'] is the entry
    object of the list itself, known by its position [reference_id] in the
    list. *)
Record mapping := {
  reference_id : nat;
  reference : entry;
  corrected_citation : str;
  original_citation : str
}.

Definition lparen_fw : char := 65288%N.  (* the full-width left parenthesis *)
Definition rparen_fw : char := 65289%N.  (* the full-width right parenthesis *)
Definition comma_fw : char := 65292%N.  (* the full-width comma *)
Definition deng : char := 31561%N.      (* the character for "and others" *)

(** [[0-9OoIiZzSsGgBbDd]] *)
Definition ocr_year_char : char -> bool :=
  either (between "0" "9")
    (any_of ["O"; "o"; "I"; "i"; "Z"; "z"; "S"; "s"; "G"; "g"; "B"; "b"; "D"; "d"]%char).

(** [^(.+?)（([0-9OoIiZzSsGgBbDd]{4})）] *)
Definition citation_re_fullwidth : re :=
  seq_ [Bol; Grp 1 (Rep false 1 dot); Chr (is_cp lparen_fw);
        Grp 2 (Times 4 ocr_year_char); Chr (is_cp rparen_fw)].

(** [^(.+?)\s*\(([0-9OoIiZzSsGgBbDd]{4})\)] *)
Definition citation_re_latin : re :=
  seq_ [Bol; Grp 1 (Rep false 1 dot); Rep true 0 isspace; Chr (one "(");
        Grp 2 (Times 4 ocr_year_char); Chr (one ")")].

Definition extract_author_year_from_citation (citation : str)
  : option str * option str :=
  match search citation_re_fullwidth (strip citation) with
  | Some m => (Some (strip (group m 1)), Some (group m 2))
  | None =>
    match search citation_re_latin (strip citation) with
    | Some m => (Some (strip (group m 1)), Some (group m 2))
    | None => (None, None)
    end
  end.

Section WithRuntime.
Context {U : Unicode} {D : Difflib}.

(** [^\s*\[\d+\]\s*] *)
Definition label_re : re :=
  seq_ [Bol; Rep true 0 isspace; Chr (one "["); Rep true 1 isdecimal; Chr (one "]");
        Rep true 0 isspace].

Definition year4 : re := Grp 1 (Times 4 isdecimal).

(** The list [year_patterns], in source order. *)
Definition year_patterns : list re :=
  [ seq_ [Chr (one "("); year4; Chr (one ")")];
    seq_ [Chr (one "("); year4; Chr (one ")"); Chr (one ".")];
    seq_ [Chr (one ","); Rep true 0 isspace; year4; Chr (any_of [","; ")"]%char)];
    seq_ [Chr (one ","); Rep true 0 isspace; year4; Chr (one ".")];
    seq_ [Chr (one ","); Rep true 0 isspace; year4];
    seq_ [Chr (one ":"); Rep true 0 isspace; year4; Chr (one ".")];
    seq_ [Chr (one ":"); Rep true 0 isspace; year4];
    seq_ [Chr isspace; year4; Chr (one ".")];
    seq_ [Chr isspace; year4] ].

(** The loop over [year_patterns]: the first pattern that matches gives the
    year. *)
Fixpoint first_year (patterns : list re) (s : str) : option str :=
  match patterns with
  | [] => None
  | pattern :: rest =>
    match search pattern s with
    | Some year_match => Some (group year_match 1)
    | None => first_year rest s
    end
  end.

(** [^([^.,]+)] *)
Definition author_re : re := seq_ [Bol; Grp 1 (Rep true 1 (none_of ["."; ","]%char))].

(** [等$] and [et al\.?$] *)
Definition deng_end_re : re := seq_ [Chr (is_cp deng); Eol].
Definition et_al_end_re : re :=
  seq_ [lit (u "et al"); Opt (Chr (one ".")); Eol].

(** The loop over [separators]: the first separator found in [author]
    splits it. *)
Fixpoint first_author (separators : list str) (author : str) : str :=
  match separators with
  | [] => author
  | sep :: rest =>
    if contains sep author then strip (hd [] (split author sep))
    else first_author rest author
  end.

Definition extract_author_year_from_reference (reference_text : str)
  : option str * option str :=
  let clean_reference_text := sub label_re [] reference_text in
  let year := first_year year_patterns clean_reference_text in
  let author :=
    match search author_re clean_reference_text with
    | Some author_match => Some (strip (group author_match 1))
    | None => None
    end in
  let author :=
    match author with
    | Some a =>
      if truthy author && (contains [comma_fw] a || contains [ch ","] a)
      then Some (first_author [[comma_fw]; [ch ","]] a)
      else author
    | None => None
    end in
  let author :=
    match author with
    | Some a =>
      if truthy author then
        let a := strip (sub deng_end_re [] a) in
        Some (strip (sub et_al_end_re [] a))
      else author
    | None => None
    end in
  (author, year).

Definition calculate_author_match_score
    (citation_author reference_text ref_author : str) : float :=
  let citation_author := lower (strip citation_author) in
  let reference_text := lower reference_text in
  let ref_author := lower (strip ref_author) in
  if str_eqb citation_author ref_author then f1_0
  else if contains citation_author ref_author || contains ref_author citation_author
  then f0_9
  else if contains citation_author reference_text then
    let position := find reference_text citation_author in
    if (position <? 100)%Z then f0_8
    else if (position <? 200)%Z then f0_6
    else f0_4
  else
    let similarity := ratio citation_author ref_author in
    mul similarity f0_5.

(** [a == b] for a string and an [Optional[str]] *)
Definition eq_opt (a : str) (b : option str) : bool :=
  match b with
  | Some y => str_eqb a y
  | None => false
  end.

Definition calculate_year_match_score
    (citation_year reference_text : str) (ref_year : option str) : float :=
  if truthy ref_year && eq_opt citation_year ref_year then f1_0
  else if truthy ref_year
          && match ref_year with
             | Some y => is_ocr_error citation_year y
             | None => false
             end
  then f0_9
  else if contains citation_year reference_text then f0_8
  else f0_0.

(** The three variables the loop over [references] updates. *)
Record best := {
  best_match : option (nat * entry);
  best_score : float;
  best_ref_year : option str
}.

(** [total_score] of a reference, or [None] when the loop skips it
    ([continue]) because no author could be extracted from it. *)
Definition total_score (citation_author citation_year : str) (ref : entry)
  : option (float * option str) :=
  let ref_text := text ref in
  let '(ref_author, ref_year) := extract_author_year_from_reference ref_text in
  match ref_author with
  | Some a =>
    if negb (truthy ref_author) then None
    else
      let author_score := calculate_author_match_score citation_author ref_text a in
      let year_score := calculate_year_match_score citation_year ref_text ref_year in
      Some (add (mul author_score f0_6) (mul year_score f0_4), ref_year)
  | None => None
  end.

(** One turn of the loop [for ref in references]. *)
Definition visit (citation_author citation_year : str) (b : best)
    (ref : nat * entry) : best :=
  match total_score citation_author citation_year (snd ref) with
  | None => b
  | Some (total_score, ref_year) =>
    if gtb total_score (best_score b)
    then {| best_match := Some ref; best_score := total_score; best_ref_year := ref_year |}
    else b
  end.

(** The references with the positions they have in the list. *)
Definition enumerate (references : list entry) : list (nat * entry) :=
  combine (seq 0 (length references)) references.

Definition map_author_year_citation_to_reference
    (citation : str) (references : list entry) : option mapping :=
  let '(citation_author, citation_year) := extract_author_year_from_citation citation in
  match citation_author, citation_year with
  | Some author, Some cyear =>
    if negb (truthy citation_author) || negb (truthy citation_year) then None
    else
      let b := fold_left (visit author cyear) (enumerate references)
                 {| best_match := None; best_score := f0_0; best_ref_year := None |} in
      match best_match b with
      | Some (id, ref) =>
        if gtb (best_score b) f0_3 then
          match best_ref_year b with
          | Some ryear =>
            if truthy (best_ref_year b) && truthy citation_year
               && negb (str_eqb ryear cyear)
            then Some {| reference_id := id; reference := ref;
                         corrected_citation := author ++ [lparen_fw] ++ ryear ++ [rparen_fw];
                         original_citation := citation |}
            else Some {| reference_id := id; reference := ref;
                         corrected_citation := citation;
                         original_citation := citation |}
          | None => Some {| reference_id := id; reference := ref;
                            corrected_citation := citation;
                            original_citation := citation |}
          end
        else None
      | None => None
      end
  | _, _ => None
  end.

End WithRuntime.

End ReferenceMapper.

(* ================================================================== *)
(** * What a match of a regular expression consists of *)
(* ================================================================== *)

Module ReSpec.
Import Re.

(** [denotes r i w rest c c']: the text [w], found at index [i] and
    followed by [rest], is a match of [r] that turns the groups [c] into
    [c']. *)
Fixpoint denotes (r : re) (i : nat) (w rest : str) (c c' : caps) : Prop :=
  match r with
  | Chr p => exists x, w = [x] /\ p x = true /\ c' = c
  | Cat r1 r2 =>
    exists w1 w2 c1, w = w1 ++ w2 /\
      denotes r1 i w1 (w2 ++ rest) c c1 /\
      denotes r2 (i + length w1) w2 rest c1 c'
  | Rep _ min p => (min <= length w)%nat /\ forallb p w = true /\ c' = c
  | Times n p => length w = n /\ forallb p w = true /\ c' = c
  | Opt r1 => denotes r1 i w rest c c' \/ (w = [] /\ c' = c)
  | Grp n r1 => exists c1, denotes r1 i w rest c c1 /\ c' = (n, w) :: c1
  | Bol => w = [] /\ i = O /\ c' = c
  | Eol => w = [] /\ (rest = [] \/ rest = [10%N]) /\ c' = c
  end.

(** [x] occurs in [y]. *)
Definition substring (x y : str) : Prop := exists pre post, y = pre ++ x ++ post.

(** [x] occurs in [y] at index [p]. *)
Definition occurs_at (x y : str) (p : nat) : Prop :=
  exists pre post, y = pre ++ x ++ post /\ length pre = p.

(** [p] is the index of the first occurrence of [x] in [y]. *)
Definition first_occurrence (x y : str) (p : nat) : Prop :=
  occurs_at x y p /\ forall q, (q < p)%nat -> ~ occurs_at x y q.

End ReSpec.

(* ================================================================== *)
(** * Notions the statements about the matcher use *)
(* ================================================================== *)

Module MatcherSpec.
Import F64 ReferenceMapper.

Section WithRuntime.
Context {U : Unicode} {D : Difflib}.

(** [author_score * 0.6 + year_score * 0.4] *)
Definition combined (author_score year_score : float) : float :=
  add (mul author_score f0_6) (mul year_score f0_4).

(** The combined score of a reference for a citation, whoever the author
    extracted from the reference is: the author score and the year score
    are those of the reference text and of the author and the year that
    the reference parser extracts, an author that is not extracted
    counting as the empty string. *)
Definition combined_score (author cyear : str) (ref : entry) : float :=
  let '(ref_author, ref_year) := extract_author_year_from_reference (text ref) in
  combined
    (calculate_author_match_score author (text ref)
       match ref_author with Some a => a | None => [] end)
    (calculate_year_match_score cyear (text ref) ref_year).

(** The reference parser extracts an author that is not empty. *)
Definition has_author (ref : entry) : bool :=
  truthy (fst (extract_author_year_from_reference (text ref))).

(** The combined score of the reference at position [i], when the list has
    one there and it has an author. *)
Definition score (author cyear : str) (references : list entry) (i : nat)
  : option float :=
  match nth_error references i with
  | Some ref => if has_author ref then Some (combined_score author cyear ref) else None
  | None => None
  end.

(** [s] is the greatest of the combined scores. *)
Definition is_maximum (author cyear : str) (references : list entry) (s : float)
  : Prop :=
  (exists i, score author cyear references i = Some s) /\
  forall j s', score author cyear references j = Some s' -> gtb s' s = false.

End WithRuntime.
End MatcherSpec.

(* ================================================================== *)
(** * citation_extractor.py *)
(* ================================================================== *)

Module CitationExtractor.
Import Re.

(** [[一-鿿]] *)
Definition is_cjk (c : char) : bool := ((19968 <=? c) && (c <=? 40959))%N.

Definition contains_chinese (text : str) : bool := existsb is_cjk text.

Definition comma_fw : str := [65292%N].        (* the full-width comma *)
Definition period_fw : str := [12290%N].       (* the ideographic full stop *)
Definition qikan : str := [26399%N; 21002%N].  (* "periodical" *)
Definition zazhi : str := [26434%N; 24535%N].  (* "magazine" *)
Definition deng : str := [31561%N].            (* "and others" *)

(** [^([^\.]+?)\.] *)
Definition chinese_pattern : re :=
  seq_ [Bol; Grp 1 (Rep false 1 (none_of ["."]%char)); Chr (one ".")].

(** [[author.strip() for author in l if author.strip()]] *)
Definition stripped_nonempty (l : list str) : list str :=
  filter (fun a => match a with [] => false | _ => true end) (List.map strip l).

Definition extract_chinese_authors (reference_text : str) : list str :=
  match search chinese_pattern reference_text with
  | Some m =>
    let authors_str := group m 1 in
    let authors :=
      if contains comma_fw authors_str then stripped_nonempty (split authors_str comma_fw)
      else if contains [ch ","] authors_str then stripped_nonempty (split authors_str [ch ","])
      else [strip authors_str] in
    filter (fun author => negb (str_eqb author deng)) authors
  | None => []
  end.

Section WithUnicode.
Context {U : Unicode}.

(** [et al\.?] under [re.IGNORECASE] *)
Definition et_al_re : re :=
  seq_ [Chr (nocase "e"); Chr (nocase "t"); Chr (one " "); Chr (nocase "a");
        Chr (nocase "l"); Opt (Chr (one "."))].

(** [^([^\(]+?)\(\d{4}\)] *)
Definition authors_before_year_re : re :=
  seq_ [Bol; Grp 1 (Rep false 1 (none_of ["("]%char)); Chr (one "(");
        Times 4 isdecimal; Chr (one ")")].

(** [^([^\.]+?)\.\s*\(\d{4}\)] *)
Definition authors_period_year_re : re :=
  seq_ [Bol; Grp 1 (Rep false 1 (none_of ["."]%char)); Chr (one ".");
        Rep true 0 isspace; Chr (one "("); Times 4 isdecimal; Chr (one ")")].

(** [\s+and\s+], [\s*&\s*] and [,?\s*et al\.?] under [re.IGNORECASE] *)
Definition and_re : re := seq_ [Rep true 1 isspace; lit (u "and"); Rep true 1 isspace].
Definition amp_re : re := seq_ [Rep true 0 isspace; Chr (one "&"); Rep true 0 isspace].
Definition comma_et_al_re : re :=
  seq_ [Opt (Chr (one ",")); Rep true 0 isspace; et_al_re].

(** [^[A-Z]\.(?:\s*[A-Z]\.)?$] *)
Definition initials_re : re :=
  seq_ [Bol; Chr (between "A" "Z"); Chr (one ".");
        Opt (seq_ [Rep true 0 isspace; Chr (between "A" "Z"); Chr (one ".")]); Eol].

(** The loop [for char in authors_str], on [(author_list, current_author,
    in_abbreviation)]; [author_list] and [current_author] are kept in
    reverse. *)
Definition split_step (st : list str * str * bool) (c : char) : list str * str * bool :=
  let '(author_list, current_author, in_abbreviation) := st in
  if (c =? ch ",")%N && negb in_abbreviation then
    match strip (rev current_author) with
    | [] => (author_list, [], in_abbreviation)
    | a => (a :: author_list, [], in_abbreviation)
    end
  else
    let current_author := c :: current_author in
    if (c =? ch ".")%N then (author_list, current_author, true)
    else if (c =? ch " ")%N && in_abbreviation then (author_list, current_author, false)
    else (author_list, current_author, in_abbreviation).

Definition split_authors (authors_str : str) : list str :=
  let '(author_list, current_author, _) := fold_left split_step authors_str ([], [], false) in
  match strip (rev current_author) with
  | [] => rev author_list
  | a => rev (a :: author_list)
  end.

(** The loop [for author in author_list], on [authors] kept in reverse. *)
Definition merge_step (authors : list str) (author : str) : list str :=
  match match_at_start initials_re author with
  | Some _ =>
    match authors with
    | last :: before => (last ++ [ch " "] ++ author) :: before
    | [] => [author]
    end
  | None => author :: authors
  end.

Definition extract_english_authors (reference_text : str) : list str * bool :=
  let has_et_al :=
    match search et_al_re reference_text with Some _ => true | None => false end in
  let authors_str :=
    match search authors_before_year_re reference_text with
    | Some m => Some (group m 1)
    | None =>
      match search authors_period_year_re reference_text with
      | Some m => Some (group m 1)
      | None =>
        match search chinese_pattern reference_text with
        | Some m => Some (group m 1)
        | None =>
          let first_comma := find reference_text [ch ","] in
          let first_period := find reference_text [ch "."] in
          if negb (first_comma =? -1)%Z
             && ((first_period =? -1)%Z || (first_comma <? first_period)%Z)
          then Some (firstn (Z.to_nat first_comma) reference_text)
          else if negb (first_period =? -1)%Z
          then Some (firstn (Z.to_nat first_period) reference_text)
          else None
        end
      end
    end in
  match authors_str with
  | None => ([], has_et_al)
  | Some authors_str =>
    let authors_str := sub and_re (u ", ") authors_str in
    let authors_str := sub amp_re (u ", ") authors_str in
    let authors_str := sub comma_et_al_re [] authors_str in
    let author_list := split_authors authors_str in
    (rev (fold_left merge_step author_list []), has_et_al)
  end.

Definition extract_authors_from_reference (reference_text : str) : list str * bool :=
  if contains_chinese (prefix 50 reference_text)
     || existsb (fun char => contains char reference_text)
          [comma_fw; period_fw; qikan; zazhi]
  then (extract_chinese_authors reference_text, false)
  else extract_english_authors reference_text.

End WithUnicode.
End CitationExtractor.

(* ================================================================== *)
(** * citation_formatter.py and citation_format_config.py *)
(* ================================================================== *)

Module CitationFormatter.

Inductive CitationFormatType :=
| CHINESE_ACADEMY_OF_SCIENCES | APA | MLA | CHICAGO | NUMERIC.

(** [get_default_citation_format_config()] *)
Definition get_default_citation_format_config : CitationFormatType :=
  CHINESE_ACADEMY_OF_SCIENCES.

Definition lp : str := [65288%N].   (* the full-width left parenthesis *)
Definition rp : str := [65289%N].   (* the full-width right parenthesis *)
Definition deng : str := [31561%N]. (* "and others" *)

Definition _contains_chinese (text : str) : bool := CitationExtractor.contains_chinese text.

(** [l[-1]] of a list that is not empty *)
Definition last_of (l : list str) : str := last l [].

Definition _extract_surname (author : str) : str :=
  let author := strip author in
  if contains [ch ","] author then strip (hd [] (split author [ch ","]))
  else
    let parts := words author in
    match parts with
    | [] => author
    | [p] => p
    | _ => last_of parts
    end.

Section WithUnicode.
Context {U : Unicode}.

(** The branch of [_format_chinese_academy_of_sciences] for authors
    without CJK characters, from the list [surnames]. *)
Definition format_surnames (surnames : list str) (year : str) : str :=
  let s0 := hd [] surnames in
  if (length surnames =? 1)%nat && ((2 <? length (words s0))%nat || isupper s0)
  then s0 ++ lp ++ year ++ rp
  else if (2 <? length surnames)%nat then s0 ++ u " et al." ++ lp ++ year ++ rp
  else if (length surnames =? 2)%nat
  then s0 ++ u " & " ++ nth 1 surnames [] ++ lp ++ year ++ rp
  else s0 ++ lp ++ year ++ rp.

Definition _format_chinese_academy_of_sciences (authors : list str) (year : str) : str :=
  match authors with
  | [] => lp ++ year ++ rp
  | first :: _ =>
    if _contains_chinese first then
      if (1 <? length authors)%nat then first ++ [ch " "] ++ deng ++ lp ++ year ++ rp
      else first ++ lp ++ year ++ rp
    else format_surnames (List.map _extract_surname authors) year
  end.

Definition _format_surname_with_initials (author : str) : str :=
  if contains (u ", ") author then author
  else
    let parts := words author in
    if (2 <=? length parts)%nat then
      let surname := last_of parts in
      let initials := List.map (fun name => firstn 1 name ++ [ch "."]) (removelast parts) in
      surname ++ u ", " ++ join [ch " "] initials
    else author.

(** [" ".join([part for part in parts if part])] *)
Definition join_nonempty (parts : list str) : str :=
  join [ch " "] (filter (fun part => match part with [] => false | _ => true end) parts).

Definition et_al_author (authors : list str) : str :=
  match authors with
  | [] => []
  | [a] => _format_surname_with_initials a
  | a :: _ => _format_surname_with_initials a ++ u ", et al."
  end.

(** The four other styles, called with authors and year only (title,
    journal, volume, issue and pages are [None]), as [format_citation] is
    in this program. *)
Definition _format_apa (authors : list str) (year : str) : str :=
  let author_str :=
    match authors with
    | [] => []
    | [a] => _format_surname_with_initials a
    | _ =>
      if (20 <? length authors)%nat then
        join (u ", ") (List.map _format_surname_with_initials (firstn 19 authors))
        ++ u ", ... " ++ _format_surname_with_initials (last_of authors)
      else
        join (u ", ") (List.map _format_surname_with_initials (removelast authors))
        ++ u ", & " ++ _format_surname_with_initials (last_of authors)
    end in
  join_nonempty [author_str; u "(" ++ year ++ u ")."].

Definition _format_mla (authors : list str) (year : str) : str :=
  join_nonempty [et_al_author authors; year] ++ u ".".

Definition _format_chicago (authors : list str) (year : str) : str :=
  join_nonempty [et_al_author authors; year ++ u "."].

Definition _format_numeric (authors : list str) (year : str) : str :=
  match authors with
  | [] => u "[" ++ year ++ u "]"
  | first_author :: _ =>
    u "[" ++ _extract_surname first_author ++ u " et al., " ++ year ++ u "]"
  end.

(** [CitationFormatter(config).format_citation(authors, year)] *)
Definition format_citation (config : CitationFormatType) (authors : list str) (year : str)
  : str :=
  match config with
  | CHINESE_ACADEMY_OF_SCIENCES => _format_chinese_academy_of_sciences authors year
  | APA => _format_apa authors year
  | MLA => _format_mla authors year
  | CHICAGO => _format_chicago authors year
  | NUMERIC => _format_numeric authors year
  end.

End WithUnicode.
End CitationFormatter.

(* ================================================================== *)
(** * reference_mapper.py: similarity of two author names *)
(* ================================================================== *)

(** The arguments that the statements about values that are not strings
    range over: [None], a string, or an integer, which like [None] has none
    of the methods of strings. *)
Inductive value :=
| VNone
| VStr (s : str)
| VInt (n : Z).

Inductive exn := AttributeError | TypeError.

(** The outcome of a call: a returned value or a raised exception. *)
Inductive result (A : Type) :=
| Ok (a : A)
| Raise (e : exn).
Arguments Ok {A} a.
Arguments Raise {A} e.

Definition bind {A B : Type} (r : result A) (f : A -> result B) : result B :=
  match r with
  | Ok a => f a
  | Raise e => Raise e
  end.

Notation "x <- r ;; k" := (bind r (fun x => k))
  (at level 61, r at next level, right associativity).

Module Builtins.

Fixpoint digits (d : Decimal.uint) : str :=
  match d with
  | Decimal.Nil => []
  | Decimal.D0 d' => ch "0" :: digits d'
  | Decimal.D1 d' => ch "1" :: digits d'
  | Decimal.D2 d' => ch "2" :: digits d'
  | Decimal.D3 d' => ch "3" :: digits d'
  | Decimal.D4 d' => ch "4" :: digits d'
  | Decimal.D5 d' => ch "5" :: digits d'
  | Decimal.D6 d' => ch "6" :: digits d'
  | Decimal.D7 d' => ch "7" :: digits d'
  | Decimal.D8 d' => ch "8" :: digits d'
  | Decimal.D9 d' => ch "9" :: digits d'
  end.

(** [str(v)] *)
Definition str_ (v : value) : str :=
  match v with
  | VNone => u "None"
  | VStr s => s
  | VInt Z0 => u "0"
  | VInt (Zpos p) => digits (Pos.to_uint p)
  | VInt (Zneg p) => ch "-" :: digits (Pos.to_uint p)
  end.

Definition is_none (v : value) : bool :=
  match v with VNone => true | _ => false end.


(** [v.strip()]: only strings have the method. *)
Definition strip_of (v : value) : result str :=
  match v with
  | VStr s => Ok (strip s)
  | _ => Raise AttributeError
  end.

(** [v.lower()] *)
Definition lower_of {U : Unicode} (v : value) : result str :=
  match v with
  | VStr s => Ok (lower s)
  | _ => Raise AttributeError
  end.

End Builtins.

Module AuthorSimilarity.
Import F64 Re Builtins.

Section WithRuntime.
Context {U : Unicode} {D : Difflib}.

(** [^[A-Za-z\s.,]+$] *)
Definition english_name_re : re :=
  seq_ [Bol;
        Rep true 1 (either (either (between "A" "Z") (between "a" "z"))
                      (either isspace (any_of ["."; ","]%char)));
        Eol].

Definition is_english_name (name : value) : bool :=
  if is_none name then false
  else
    let name := str_ name in
    match match_at_start english_name_re name with Some _ => true | None => false end.

(** [\s+et\s+al\.?] under [re.IGNORECASE], and [\s+等] *)
Definition et_al_suffix_re : re :=
  seq_ [Rep true 1 isspace; Chr (nocase "e"); Chr (nocase "t"); Rep true 1 isspace;
        Chr (nocase "a"); Chr (nocase "l"); Opt (Chr (one "."))].
Definition deng_suffix_re : re := seq_ [Rep true 1 isspace; Chr (is_cp 31561)].

Definition dutch_prefixes : list str :=
  [u "van"; u "den"; u "de"; u "der"; u "ter"; u "ten"; u "vanden"; u "vander"].

Definition is_dutch_prefix (part : str) : bool :=
  existsb (str_eqb (lower part)) dutch_prefixes.

(** [parts[-1]], [parts[-2]] and [parts[-3]], from the reversed list *)
Definition extract_surname (name : value) : str :=
  if is_none name then []
  else
    let name := str_ name in
    let name := strip (sub et_al_suffix_re [] name) in
    let name := strip (sub deng_suffix_re [] name) in
    let parts := words name in
    match rev parts with
    | [] => name
    | last1 :: before =>
      let plain :=
        if (length last1 =? 1)%nat
           || ((length last1 =? 2)%nat && (nth 1 last1 0 =? ch ".")%N)
        then match before with last2 :: _ => last2 | [] => last1 end
        else last1 in
      match before with
      | last2 :: before2 =>
        if is_dutch_prefix last2 then last2 ++ [ch " "] ++ last1
        else
          match before2 with
          | last3 :: _ =>
            if is_dutch_prefix last3 && is_dutch_prefix last2
            then last3 ++ [ch " "] ++ last2 ++ [ch " "] ++ last1
            else plain
          | [] => plain
          end
      | [] => plain
      end
    end.

(** ['&' in a or 'and' in a] *)
Definition has_conjunction (a : str) : bool :=
  contains [ch "&"] a || contains (u "and") a.

(** [a.split('&')[0].split('and')[0].strip()] *)
Definition first_of_conjunction (a : str) : str :=
  strip (hd [] (split (hd [] (split a [ch "&"])) (u "and"))).

(** The two [if] statements that look at surnames. *)
Definition surname_bonus (similarity : float) (surname1 surname2 : str) : float :=
  if str_eqb surname1 surname2 then max similarity f0_95
  else if contains surname1 surname2 || contains surname2 surname1
  then max similarity f0_9
  else similarity.

(** The block run when one side lists several authors: [first] is the first
    author of that side and [other] the name on the other side;
    [first_is_left] tells on which side of [SequenceMatcher] and of the
    surname test [first] stands. *)
Definition conjunction_block (similarity : float) (first other : str)
    (first_is_left : bool) : float :=
  let first_author_similarity :=
    if first_is_left then ratio first other else ratio other first in
  if gtb first_author_similarity similarity then
    let similarity := first_author_similarity in
    let similarity :=
      if contains first other || contains other first then max similarity f0_9
      else similarity in
    if is_english_name (VStr first) then
      if first_is_left
      then surname_bonus similarity (extract_surname (VStr first)) (extract_surname (VStr other))
      else surname_bonus similarity (extract_surname (VStr other)) (extract_surname (VStr first))
    else similarity
  else similarity.

(** The block for a name of the form "Surname, I.": [full] holds the comma
    and the period, [other] is the name on the other side. *)
Definition initials_block (similarity : float) (full other : str) : float :=
  if contains [ch ","] full && contains [ch "."] full then
    let surname := lower (strip (hd [] (split full [ch ","]))) in
    if str_eqb surname other then max similarity f0_95
    else if contains surname other || contains other surname then max similarity f0_9
    else similarity
  else similarity.

Definition calculate_author_similarity (author1 author2 : value) : result float :=
  let author1 := if is_none author1 then VStr [] else author1 in
  let author2 := if is_none author2 then VStr [] else author2 in
  let author1 := lower (strip (str_ author1)) in
  let author2 := lower (strip (str_ author2)) in
  if str_eqb author1 author2 then Ok f1_0
  else
    let similarity := ratio author1 author2 in
    let similarity :=
      if contains author1 author2 || contains author2 author1 then max similarity f0_9
      else similarity in
    let similarity :=
      if is_english_name (VStr author1) && is_english_name (VStr author2)
      then surname_bonus similarity (extract_surname (VStr author1))
                                    (extract_surname (VStr author2))
      else similarity in
    let similarity :=
      if has_conjunction author1 && negb (has_conjunction author2)
      then conjunction_block similarity (first_of_conjunction author1) author2 true
      else similarity in
    let similarity :=
      if has_conjunction author2 && negb (has_conjunction author1)
      then conjunction_block similarity (first_of_conjunction author2) author1 false
      else similarity in
    let similarity := initials_block similarity author2 author1 in
    let similarity := initials_block similarity author1 author2 in
    Ok similarity.

(** [is_similar_author] *)
Definition is_similar_author (author1 author2 : value) : result bool :=
  s <- calculate_author_similarity author1 author2 ;; Ok (gtb s f0_7).

End WithRuntime.
End AuthorSimilarity.

(* ================================================================== *)
(** * The entry points called with an arbitrary object *)
(* ================================================================== *)

Module Dynamic.
Import Re Builtins ReferenceMapper.

(** [extract_author_year_from_citation(citation)]: both searches are run on
    [citation.strip()]. *)
Definition extract_author_year_from_citation (citation : value)
  : result (option str * option str) :=
  s <- strip_of citation ;;
  match search citation_re_fullwidth s with
  | Some m => Ok (Some (strip (group m 1)), Some (group m 2))
  | None =>
    s <- strip_of citation ;;
    match search citation_re_latin s with
    | Some m => Ok (Some (strip (group m 1)), Some (group m 2))
    | None => Ok (None, None)
    end
  end.

Section WithRuntime.
Context {U : Unicode} {D : Difflib}.

(** [map_author_year_citation_to_reference(citation, references)]: the
    first statement calls the parser on [citation]; when that call returns,
    [citation] is a string and the rest runs as in [ReferenceMapper]. *)
Definition map_author_year_citation_to_reference (citation : value)
    (references : list entry) : result (option mapping) :=
  _ <- extract_author_year_from_citation citation ;;
  match citation with
  | VStr c => Ok (ReferenceMapper.map_author_year_citation_to_reference c references)
  | _ => Raise AttributeError
  end.

(** [calculate_author_match_score(citation_author, reference_text,
    ref_author)]: the first three statements call [strip] and [lower] on
    the arguments. *)
Definition calculate_author_match_score (citation_author reference_text ref_author : value)
  : result F64.float :=
  a <- strip_of citation_author ;;
  t <- lower_of reference_text ;;
  r <- strip_of ref_author ;;
  match citation_author, reference_text, ref_author with
  | VStr a, VStr t, VStr r => Ok (ReferenceMapper.calculate_author_match_score a t r)
  | _, _, _ => Raise AttributeError
  end.

(** [extract_author_year_from_reference(reference_text)]: its first
    statement hands [reference_text] to [re.sub], which wants a string. *)
Definition extract_author_year_from_reference (reference_text : value)
  : result (option str * option str) :=
  match reference_text with
  | VStr s => Ok (ReferenceMapper.extract_author_year_from_reference s)
  | _ => Raise TypeError
  end.

(** [CitationFormatter._contains_chinese(text)]: [re.search] wants a
    string. *)
Definition _contains_chinese (text : value) : result bool :=
  match text with
  | VStr s => Ok (CitationFormatter._contains_chinese s)
  | _ => Raise TypeError
  end.

(** [CitationFormatter._extract_surname(author)]: its first statement is
    [author.strip()]. *)
Definition _extract_surname (author : value) : result str :=
  _ <- strip_of author ;;
  match author with
  | VStr a => Ok (CitationFormatter._extract_surname a)
  | _ => Raise AttributeError
  end.

(** [[self._extract_surname(author) for author in authors]] *)
Fixpoint surnames_of (authors : list value) : result (list str) :=
  match authors with
  | [] => Ok []
  | author :: rest =>
    s <- _extract_surname author ;;
    t <- surnames_of rest ;;
    Ok (s :: t)
  end.

(** [_format_chinese_academy_of_sciences(authors, year)] with a list of
    objects, or [None], for [authors]; the f-strings print [year] as
    [str(year)]. *)
Definition _format_chinese_academy_of_sciences (authors : option (list value))
    (year : value) : result str :=
  let lp := CitationFormatter.lp in
  let rp := CitationFormatter.rp in
  match authors with
  | None | Some [] => Ok (lp ++ str_ year ++ rp)
  | Some (first :: rest) =>
    is_chinese <- _contains_chinese first ;;
    if is_chinese then
      if (1 <? length (first :: rest))%nat
      then Ok (str_ first ++ [ch " "] ++ CitationFormatter.deng ++ lp ++ str_ year ++ rp)
      else Ok (str_ first ++ lp ++ str_ year ++ rp)
    else
      surnames <- surnames_of (first :: rest) ;;
      Ok (CitationFormatter.format_surnames surnames (str_ year))
  end.

End WithRuntime.
End Dynamic.

(* ================================================================== *)
(** * citation_analyzer.py *)
(* ================================================================== *)

Module CitationAnalyzer.
Import Re ReferenceMapper.

(** The dict kept for a matched citation: the mapping and the three keys
    added for an author-year citation. *)
Record outcome := {
  om : mapping;
  authors : option (list str);
  has_et_al : option bool;
  formatted_citation : option str
}.

(** The part of the report the counters and lists make up.  The entries of
    [unused_references] are the entry objects of the reference list, known
    by their positions. *)
Record report := {
  total_citations : nat;
  total_references : nat;
  matched_count : nat;
  unmatched_count : nat;
  corrected_count : nat;
  formatted_count : nat;
  all_mapping_results : list outcome;
  unused_references : list (nat * entry)
}.

(** [citation[6:-1]] *)
Definition slice_6_m1 (s : str) : str := removelast (skipn 6 s).

(** [m.group()] of a match in [s] *)
Definition group0 (m : match_) (s : str) : str :=
  firstn (m_end m - m_start m) (skipn (m_start m) s).

Section WithRuntime.
Context {U : Unicode} {D : Difflib}.

(** [^\[\d+\]] and [（(\d{4})）] *)
Definition numeric_label_re : re :=
  seq_ [Bol; Chr (one "["); Rep true 1 isdecimal; Chr (one "]")].
Definition corrected_year_re : re :=
  seq_ [Chr (is_cp lparen_fw); Grp 1 (Times 4 isdecimal); Chr (is_cp rparen_fw)].

(** The loop looking for the numbered reference whose label is the
    citation. *)
Fixpoint find_numeric (citation : str) (refs : list (nat * entry)) : option mapping :=
  match refs with
  | [] => None
  | (id, ref) :: rest =>
    match search numeric_label_re (text ref) with
    | Some ref_match =>
      if str_eqb (group0 ref_match (text ref)) citation
      then Some {| reference_id := id; reference := ref;
                   corrected_citation := citation; original_citation := citation |}
      else find_numeric citation rest
    | None => find_numeric citation rest
    end
  end.

(** The body of the loop over the citations, up to the point where the
    result is stored. *)
Definition map_citation (references : list entry) (citation : str) : option outcome :=
  let actual_citation :=
    if startswith (u "[AUTH:") citation then slice_6_m1 citation else citation in
  let result :=
    if startswith (u "[AUTH:]") citation
    then map_author_year_citation_to_reference actual_citation references
    else find_numeric citation (enumerate references) in
  match result with
  | Some m =>
    if startswith (u "[AUTH:]") citation then
      let reference_text := text (reference m) in
      let '(authors, has_et_al) :=
        CitationExtractor.extract_authors_from_reference reference_text in
      let year := match year (reference m) with Some y => y | None => [] end in
      let year :=
        match year with
        | [] =>
          match search corrected_year_re (corrected_citation m) with
          | Some year_match => group year_match 1
          | None => year
          end
        | _ => year
        end in
      let formatted :=
        match year, authors with
        | _ :: _, _ :: _ =>
          CitationFormatter.format_citation
            CitationFormatter.get_default_citation_format_config authors year
        | _, _ => corrected_citation m
        end in
      Some {| om := m; authors := Some authors; has_et_al := Some has_et_al;
              formatted_citation := Some formatted |}
    else Some {| om := m; authors := None; has_et_al := None; formatted_citation := None |}
  | None => None
  end.

Definition needs_correction (r : outcome) : bool :=
  negb (str_eqb (corrected_citation (om r)) (original_citation (om r))).

Definition needs_formatting (r : outcome) : bool :=
  let formatted :=
    match formatted_citation r with
    | Some f => f
    | None => corrected_citation (om r)
    end in
  negb (str_eqb formatted (corrected_citation (om r))).

Definition count {A : Type} (p : A -> bool) (l : list A) : nat := length (filter p l).

(** [ref['text'] not in used_references] *)
Definition unused (used_references : list str) (ref : nat * entry) : bool :=
  negb (existsb (str_eqb (text (snd ref))) used_references).

(** Lines 41 to 246 of [analyze_document]: the report built from the lists
    [checker.citations] and [checker.references]. *)
Definition report_of (citations : list str) (references : list entry) : report :=
  let results := List.map (map_citation references) citations in
  let all_mapping_results :=
    flat_map (fun r => match r with Some x => [x] | None => [] end) results in
  let used_references :=
    List.map (fun result => text (reference (om result))) all_mapping_results in
  {| total_citations := length citations;
     total_references := length references;
     matched_count := length all_mapping_results;
     unmatched_count := count (fun r => match r with None => true | Some _ => false end) results;
     corrected_count := count needs_correction all_mapping_results;
     formatted_count := count needs_formatting all_mapping_results;
     all_mapping_results := all_mapping_results;
     unused_references := filter (unused used_references) (enumerate references) |}.

(** [CitationChecker(doc_path, config_path)], line 32: the class imported
    from core/checker/citation_checker.py and its base class [BaseChecker]
    define no [__init__], so the call with two arguments raises [TypeError]
    and no checker with citations and references is made. *)
Definition new_CitationChecker (doc_path config_path : str)
  : result (list str * list entry) :=
  Raise TypeError.

(** [analyze_document(doc_path)]; [config_path] is the path of line 31. *)
Definition analyze_document (config_path doc_path : str) : result report :=
  checker <- new_CitationChecker doc_path config_path ;;
  Ok (report_of (fst checker) (snd checker)).

(** The reference at position [i] is the matched reference of some
    citation. *)
Definition selected (rep : report) (i : nat) : Prop :=
  exists r, In r (all_mapping_results rep) /\ reference_id (om r) = i.

End WithRuntime.
End CitationAnalyzer.

(* ================================================================== *)
(** * The scenarios of the specification *)
(* ================================================================== *)

Module Scenarios.
Import ReferenceMapper.

(** Citation "Smith（2O2O）" against the reference "Smith, J. (2020)." *)
Definition smith_citation : str := u "Smith（2O2O）".
Definition smith_reference : entry := {| text := u "Smith, J. (2020)."; year := None |}.

(** Citation "张三（2024）" against "张三，李四. 标题. 期刊, 2024." *)
Definition zhang_citation : str := u "张三（2024）".
Definition zhang_reference : entry :=
  {| text := u "张三，李四. 标题. 期刊, 2024."; year := None |}.

(** A bibliography in which one line is printed twice. *)
Definition numbered_reference : entry :=
  {| text := u "[1] Smith, J. (2020). Title."; year := None |}.

End Scenarios.

(* ================================================================== *)
(** * Further notions about the OCR detector *)
(* ================================================================== *)

Module OcrMore.
Import Ocr.

(** The entries of [ocr_errors] made of two digits. *)
Definition digit_pairs : list (char * char) :=
  [ (ch "1", ch "7"); (ch "2", ch "7"); (ch "2", ch "1"); (ch "0", ch "8") ].

(** At [p] and [q] the two strings hold the two members of [e], exchanged. *)
Definition transposed (a b : str) (p q : nat) (e : char * char) : Prop :=
  (at_ a p = fst e /\ at_ b p = snd e /\ at_ a q = snd e /\ at_ b q = fst e) \/
  (at_ a p = snd e /\ at_ b p = fst e /\ at_ a q = fst e /\ at_ b q = snd e).

End OcrMore.

(* ================================================================== *)
(** * Further notions about the matcher *)
(* ================================================================== *)

Module MatcherMore.
Import ReferenceMapper.

Section WithRuntime.
Context {U : Unicode}.

(** The cited author is found in the reference: it equals, contains or is
    contained in the reference's author, or occurs in the text of the
    reference before index 200 (all case-folded, the authors trimmed). *)
Definition author_found (citation_author reference_text ref_author : str) : bool :=
  let a := lower (strip citation_author) in
  let t := lower reference_text in
  let r := lower (strip ref_author) in
  str_eqb a r || contains a r || contains r a
  || (contains a t && (find t a <? 200)%Z).

End WithRuntime.
End MatcherMore.

(* ================================================================== *)
(** * reference_mapper.py and citation_extractor.py: formatting by authors *)
(* ================================================================== *)

Module MapperFormat.
Import CitationFormatter.

Section WithUnicode.
Context {U : Unicode}.

(** [format_citation_by_authors] of reference_mapper.py; [extract_surname]
    is the function of that file, [contains_chinese] its copy of the
    extractor's. *)
Definition format_citation_by_authors (authors : list str) (year original_citation : str)
    (has_et_al : bool) : str :=
  match authors with
  | [] => original_citation
  | first :: _ =>
    if CitationExtractor.contains_chinese first then
      if (1 <? length authors)%nat || has_et_al
      then first ++ [ch " "] ++ deng ++ lp ++ year ++ rp
      else first ++ lp ++ year ++ rp
    else
      let surnames :=
        List.map (fun author => AuthorSimilarity.extract_surname (VStr author)) authors in
      let s0 := hd [] surnames in
      if (length surnames =? 1)%nat && ((2 <? length (words s0))%nat || isupper s0)
      then s0 ++ lp ++ year ++ rp
      else if has_et_al || (2 <? length surnames)%nat
      then s0 ++ u " et al." ++ lp ++ year ++ rp
      else if (length surnames =? 2)%nat
      then s0 ++ u " & " ++ nth 1 surnames [] ++ lp ++ year ++ rp
      else s0 ++ lp ++ year ++ rp
  end.

End WithUnicode.
End MapperFormat.

Module ExtractorFormat.
Import CitationFormatter.

(** [extract_surname] of citation_extractor.py: the text before a comma,
    else the first word. *)
Definition extract_surname (author : str) : str :=
  let author := strip author in
  if contains [ch ","] author then strip (hd [] (split author [ch ","]))
  else
    let parts := words author in
    match parts with
    | [] => author
    | [p] => p
    | p :: _ => p
    end.

Section WithUnicode.
Context {U : Unicode}.

(** [format_citation_by_authors] of citation_extractor.py *)
Definition format_citation_by_authors (authors : list str) (year original_citation : str)
    (has_et_al : bool) : str :=
  match authors with
  | [] => original_citation
  | first :: _ =>
    if CitationExtractor.contains_chinese first then
      if (1 <? length authors)%nat || has_et_al
      then first ++ [ch " "] ++ deng ++ lp ++ year ++ rp
      else first ++ lp ++ year ++ rp
    else
      let surnames := List.map extract_surname authors in
      let s0 := hd [] surnames in
      if (length surnames =? 1)%nat && ((2 <? length (words s0))%nat || isupper s0)
      then s0 ++ lp ++ year ++ rp
      else if has_et_al || (2 <? length surnames)%nat
      then s0 ++ u " et al." ++ lp ++ year ++ rp
      else if (length surnames =? 2)%nat
      then s0 ++ u " & " ++ nth 1 surnames [] ++ lp ++ year ++ rp
      else s0 ++ lp ++ year ++ rp
  end.

End WithUnicode.
End ExtractorFormat.

(* ================================================================== *)
(** * citation_checker.py and models/document.py *)
(* ================================================================== *)

Module CitationChecker.
Import Re ReferenceMapper.

(** The dataclasses [Citation] and [Reference]; both have a field [text]
    in the source. *)
Record Citation := {
  citation_text : str;
  format_type : str;
  context : str;
  citation_author : option str;
  citation_year : option str
}.

Record Reference := {
  reference_text : str;
  reference_author : option str;
  reference_year : option str
}.

(** The dataclass [Document]; [metadata] is read for the report's file
    name only. *)
Record Document := {
  content : list str;
  tables : list str;
  citations : list Citation;
  references : list Reference
}.

(** The dict built for one reference.  The mapper never reads the key
    ['author'], which the record of entries leaves out. *)
Definition reference_dict (ref : Reference) : entry :=
  {| text := reference_text ref;
     year := Some match reference_year ref with
                  | Some y => y
                  | None => reference_text ref
                  end |}.

(** What [check] takes from its run: [is_compliant], the counters of
    [statistics] and the two lists. *)
Record ComplianceResult := {
  is_compliant : bool;
  total_citations : nat;
  total_references : nat;
  matched_citations : nat;
  unmatched_citations : nat;
  corrected_count : nat;
  formatted_count : nat;
  all_mapping_results : list CitationAnalyzer.outcome;
  unused_references : list Reference
}.

Section WithRuntime.
Context {U : Unicode} {D : Difflib}.

(** The body of the loop over the citations: the result stored for a
    matched citation, [None] for a citation counted unmatched. *)
Definition check_citation (reference_dicts : list entry) (citation : Citation)
  : option CitationAnalyzer.outcome :=
  if str_eqb (format_type citation) (u "author_year") then
    match map_author_year_citation_to_reference (citation_text citation) reference_dicts with
    | Some result =>
      let reference_text := text (reference result) in
      let ref_year := match year (reference result) with Some y => y | None => [] end in
      let '(authors, has_et_al) :=
        CitationExtractor.extract_authors_from_reference reference_text in
      let year := ref_year in
      let year :=
        match year with
        | [] =>
          match search CitationAnalyzer.corrected_year_re (corrected_citation result) with
          | Some year_match => group year_match 1
          | None => year
          end
        | _ => year
        end in
      let formatted :=
        match year, authors with
        | _ :: _, _ :: _ =>
          MapperFormat.format_citation_by_authors authors year
            (corrected_citation result) has_et_al
        | _, _ => corrected_citation result
        end in
      Some {| CitationAnalyzer.om := result;
              CitationAnalyzer.authors := Some authors;
              CitationAnalyzer.has_et_al := Some has_et_al;
              CitationAnalyzer.formatted_citation := Some formatted |}
    | None => None
    end
  else None.

(** [ref.text not in used_references] *)
Definition unused (used_references : list str) (ref : Reference) : bool :=
  negb (existsb (str_eqb (reference_text ref)) used_references).

Definition check (document : Document) : ComplianceResult :=
  let reference_dicts := List.map reference_dict (references document) in
  let results := List.map (check_citation reference_dicts) (citations document) in
  let all_mapping_results :=
    flat_map (fun r => match r with Some x => [x] | None => [] end) results in
  let unmatched_count :=
    CitationAnalyzer.count
      (fun r => match r with None => true | Some _ => false end) results in
  let used_references :=
    List.map (fun result => text (reference (CitationAnalyzer.om result)))
      all_mapping_results in
  {| is_compliant := (unmatched_count =? 0)%nat;
     total_citations := length (citations document);
     total_references := length (references document);
     matched_citations := length all_mapping_results;
     unmatched_citations := unmatched_count;
     corrected_count :=
       CitationAnalyzer.count CitationAnalyzer.needs_correction all_mapping_results;
     formatted_count :=
       CitationAnalyzer.count CitationAnalyzer.needs_formatting all_mapping_results;
     all_mapping_results := all_mapping_results;
     unused_references := filter (unused used_references) (references document) |}.

End WithRuntime.
End CitationChecker.

(* ================================================================== *)
(** * Notions about what the mapper reads of an entry *)
(* ================================================================== *)

Module MapperReads.
Import ReferenceMapper.

(** Two states of the loop over the references hold the same score and
    year, and entries at the same position with the same text. *)
Definition same_choice (b1 b2 : best) : Prop :=
  best_score b1 = best_score b2 /\
  best_ref_year b1 = best_ref_year b2 /\
  match best_match b1, best_match b2 with
  | Some (i, e1), Some (j, e2) => i = j /\ text e1 = text e2
  | None, None => True
  | _, _ => False
  end.

(** What a result says: the position and the text of the reference, the
    corrected and the original citation. *)
Definition summary (m : mapping) : nat * str * str * str :=
  (reference_id m, text (reference m), corrected_citation m, original_citation m).

End MapperReads.

(* ================================================================== *)
(** * Notions about words *)
(* ================================================================== *)

Module Words.

(** A word: a text that is not empty and holds no white space. *)
Definition is_word (w : str) : Prop :=
  w <> [] /\ forallb (fun c => negb (isspace c)) w = true.

End Words.

(* ================================================================== *)
(** * Properties *)
(* ================================================================== *)

(** ** Strings *)

Lemma str_eqb_eq (a b : str) : str_eqb a b = true <-> a = b.
Proof.
  revert b; induction a as [|x a IH]; intros [|y b]; simpl; try easy.
  rewrite andb_true_iff, N.eqb_eq, IH. split.
  - intros [-> ->]; reflexivity.
  - intros E; injection E; auto.
Qed.

Lemma str_eqb_refl (a : str) : str_eqb a a = true.
Proof. apply str_eqb_eq; reflexivity. Qed.

Lemma str_eqb_neq (a b : str) : str_eqb a b = false <-> a <> b.
Proof.
  split.
  - intros E H. apply str_eqb_eq in H. congruence.
  - intros H. destruct (str_eqb a b) eqn:E; [apply str_eqb_eq in E; contradiction | reflexivity].
Qed.

Lemma str_eqb_sym (a b : str) : str_eqb a b = str_eqb b a.
Proof.
  revert b; induction a as [|x a IH]; intros [|y b]; simpl; try easy.
  rewrite N.eqb_sym, IH; reflexivity.
Qed.


(** ** The OCR-confusion detector *)

Module OcrFacts.
Import Ocr.

Lemma four_chars (s : str) :
  length s = 4%nat -> exists a b c d, s = [a; b; c; d].
Proof.
  destruct s as [|a [|b [|c [|d [|e s]]]]]; simpl; try discriminate.
  intros _. now exists a, b, c, d.
Qed.

Lemma swapped_sym (a b c d : char) (e : char * char) :
  swapped a b c d e = swapped c d a b e.
Proof.
  destruct e as [e1 e2]; unfold swapped.
  destruct (a =? e1)%N, (a =? e2)%N, (b =? e1)%N, (b =? e2)%N,
    (c =? e1)%N, (c =? e2)%N, (d =? e1)%N, (d =? e2)%N; reflexivity.
Qed.

Lemma differ_sym (n1 n2 : str) (i : nat) : differ n1 n2 i = differ n2 n1 i.
Proof. unfold differ. now rewrite N.eqb_sym. Qed.

(** C10: the detector does not depend on the order of its two arguments. *)
Theorem is_ocr_error_symmetric (year1 year2 : str) :
  is_ocr_error year1 year2 = is_ocr_error year2 year1.
Proof.
  unfold is_ocr_error.
  rewrite (orb_comm (negb (length year1 =? 4)%nat)).
  destruct (negb (length year2 =? 4)%nat || negb (length year1 =? 4)%nat); [reflexivity|].
  rewrite (str_eqb_sym (normalize_year year1)).
  destruct (str_eqb (normalize_year year2) (normalize_year year1)); [reflexivity|].
  set (n1 := normalize_year year1). set (n2 := normalize_year year2).
  assert (F : forall l, filter (differ n1 n2) l = filter (differ n2 n1) l).
  { intros l. apply filter_ext. intros i. apply differ_sym. }
  assert (C : forall l k,
             fold_left (fun n i => if differ n1 n2 i then S n else n) l k =
             fold_left (fun n i => if differ n2 n1 i then S n else n) l k).
  { induction l as [|i l IH]; intros k; simpl; [reflexivity|].
    rewrite (differ_sym n1 n2 i). apply IH. }
  rewrite C, F.
  destruct (_ =? 1)%nat; [reflexivity|].
  destruct (_ =? 2)%nat; [|reflexivity].
  destruct (filter (differ n2 n1) (seq 0 4)) as [|p [|q [|r l]]]; try reflexivity.
  induction ocr_errors as [|e t IH]; simpl; [reflexivity|].
  rewrite IH. f_equal. apply swapped_sym.
Qed.

Lemma is_ocr_error_length (year1 year2 : str) :
  length year1 <> 4%nat \/ length year2 <> 4%nat -> is_ocr_error year1 year2 = false.
Proof.
  unfold is_ocr_error.
  destruct (Nat.eqb_spec (length year1) 4), (Nat.eqb_spec (length year2) 4);
    simpl; intros [H|H]; congruence.
Qed.

Lemma swapped_realizes (a b c d : char) (e : char * char) :
  swapped a b c d e = true -> realizes a c e /\ realizes b d e.
Proof.
  destruct e as [e1 e2]; unfold swapped, realizes; simpl.
  rewrite orb_true_iff, !andb_true_iff, !N.eqb_eq. intuition.
Qed.

Ltac solve_at :=
  unfold differ_exactly_at, at_; split; [lia|];
  let i := fresh "i" in let Hi := fresh "Hi" in
  intros i Hi; destruct i as [|[|[|[|i]]]]; [ | | | | lia]; simpl;
  intuition (try lia; try congruence).

(** The detector on two normalised strings of four characters. *)
Lemma is_ocr_error_four (year1 year2 : str) (a b c d a' b' c' d' : char) :
  length year1 = 4%nat -> length year2 = 4%nat ->
  normalize_year year1 = [a; b; c; d] ->
  normalize_year year2 = [a'; b'; c'; d'] ->
  let n1 := [a; b; c; d] in
  let n2 := [a'; b'; c'; d'] in
  (n1 = n2 -> is_ocr_error year1 year2 = true) /\
  (hamming n1 n2 = 1%nat -> is_ocr_error year1 year2 = true) /\
  (hamming n1 n2 = 2%nat -> is_ocr_error year1 year2 = true ->
   exists p q e, In e ocr_errors /\ differ_exactly_at n1 n2 p q /\
     realizes (at_ n1 p) (at_ n2 p) e /\ realizes (at_ n1 q) (at_ n2 q) e) /\
  (3 <= hamming n1 n2 -> is_ocr_error year1 year2 = false)%nat.
Proof.
  intros L1 L2 N1 N2 n1 n2. subst n1 n2.
  unfold is_ocr_error. rewrite L1, L2, N1, N2. cbn [Nat.eqb negb orb].
  unfold differ, at_. cbn [str_eqb hamming seq fold_left filter nth].
  destruct (N.eqb_spec a a') as [Ea|Ea], (N.eqb_spec b b') as [Eb|Eb],
           (N.eqb_spec c c') as [Ec|Ec], (N.eqb_spec d d') as [Ed|Ed];
    cbn [andb negb Nat.eqb Nat.add nth];
    (split; [intros E; first [reflexivity | congruence] |]);
    (split; [intros E; first [reflexivity | discriminate E] |]);
    (split; [| intros E; first [reflexivity | lia]]);
    intros E; try discriminate E; intros X;
    apply existsb_exists in X; destruct X as [e [I X]];
    apply swapped_realizes in X; destruct X as [X1 X2].
  - exists 2%nat, 3%nat, e. split; [exact I|]. split; [solve_at|]. split; assumption.
  - exists 1%nat, 3%nat, e. split; [exact I|]. split; [solve_at|]. split; assumption.
  - exists 1%nat, 2%nat, e. split; [exact I|]. split; [solve_at|]. split; assumption.
  - exists 0%nat, 3%nat, e. split; [exact I|]. split; [solve_at|]. split; assumption.
  - exists 0%nat, 2%nat, e. split; [exact I|]. split; [solve_at|]. split; assumption.
  - exists 0%nat, 1%nat, e. split; [exact I|]. split; [solve_at|]. split; assumption.
Qed.

Lemma lookup_notin (c : char) (d : list (char * char)) :
  ~ In c (List.map fst d) -> lookup c d = None.
Proof.
  induction d as [|[k v] d IH]; simpl; [reflexivity|].
  intros H. destruct (N.eqb_spec c k) as [->|_]; [tauto|]. apply IH. tauto.
Qed.

Lemma normalize_char_spec (c : char) : normalize_char c = OcrSpec.spec_normalize c.
Proof.
  destruct (in_dec N.eq_dec c (List.map fst ocr_to_digit)) as [I|NI].
  - simpl in I. repeat (destruct I as [<-|I]; [vm_compute; reflexivity|]). contradiction.
  - unfold normalize_char. rewrite (lookup_notin _ _ NI).
    assert (K : forall a, In (ch a) (List.map fst ocr_to_digit) -> (c =? ch a)%N = false).
    { intros a Ha. apply N.eqb_neq. intros ->. contradiction. }
    unfold OcrSpec.spec_normalize, OcrSpec.one_of. cbn [existsb].
    rewrite !K; [reflexivity | ..]; simpl; tauto.
Qed.

(** C3, as amended (the differing positions are those of the normalised
    years): the detector answers false unless both years have four characters;
    otherwise both are normalised character by character with the map
    O,o,D,d -> 0; I,i,l -> 1; Z,z -> 2; S,s -> 5; G,g -> 6; B,b -> 8, and the
    answer is true when the normalised years are equal or differ at exactly
    one position, true at exactly two differing positions only when the
    characters at both positions are the two members of one entry of the
    confusion table, and false when three or more positions differ. *)
Theorem is_ocr_error_characterised (year1 year2 : str) :
  let n1 := List.map OcrSpec.spec_normalize year1 in
  let n2 := List.map OcrSpec.spec_normalize year2 in
  (length year1 <> 4%nat \/ length year2 <> 4%nat ->
   is_ocr_error year1 year2 = false) /\
  (length year1 = 4%nat -> length year2 = 4%nat ->
   (n1 = n2 -> is_ocr_error year1 year2 = true) /\
   (hamming n1 n2 = 1%nat -> is_ocr_error year1 year2 = true) /\
   (hamming n1 n2 = 2%nat -> is_ocr_error year1 year2 = true ->
    exists p q e, In e ocr_errors /\ differ_exactly_at n1 n2 p q /\
      realizes (at_ n1 p) (at_ n2 p) e /\ realizes (at_ n1 q) (at_ n2 q) e) /\
   (3 <= hamming n1 n2 -> is_ocr_error year1 year2 = false)%nat).
Proof.
  intros n1 n2. split; [apply is_ocr_error_length|].
  intros L1 L2.
  assert (M : forall y, List.map OcrSpec.spec_normalize y = normalize_year y).
  { intros y. apply map_ext. intros c. symmetry. apply normalize_char_spec. }
  subst n1 n2. rewrite !M.
  destruct (four_chars (normalize_year year1)) as (a & b & c & d & E1);
    [unfold normalize_year; now rewrite length_map|].
  destruct (four_chars (normalize_year year2)) as (a' & b' & c' & d' & E2);
    [unfold normalize_year; now rewrite length_map|].
  rewrite E1, E2. now apply is_ocr_error_four.
Qed.

(** C3 on the two confusable years of the glossary, on a transposition of
    1 and 7, and on pairs that are not confusable. *)
Lemma is_ocr_error_characterised_witness :
  is_ocr_error (u "2O2O") (u "2020") = true /\
  is_ocr_error (u "2017") (u "2071") = true /\
  is_ocr_error (u "2011") (u "2077") = false /\
  is_ocr_error (u "1999") (u "2024") = false /\
  is_ocr_error (u "202") (u "2020") = false.
Proof.
  pose proof (is_ocr_error_characterised (u "2O2O") (u "2020")) as [_ H].
  destruct (H eq_refl eq_refl) as [H0 _].
  pose proof (is_ocr_error_characterised (u "1999") (u "2024")) as [_ G].
  destruct (G eq_refl eq_refl) as (_ & _ & _ & G3).
  pose proof (is_ocr_error_characterised (u "202") (u "2020")) as [L _].
  split; [apply H0; reflexivity|].
  split; [reflexivity|]. split; [reflexivity|].
  split; [apply G3; vm_compute; lia|].
  apply L. left. vm_compute. discriminate.
Defined.

(** C3 as worded answers false for every pair of years with three or more
    differing characters.  "2OOO" and "2000" differ at three places and
    "OOOO" and "0000" at four; both pairs are equal once normalised, and
    the detector answers true. *)
Lemma normalised_years_hide_differences :
  hamming (u "2OOO") (u "2000") = 3%nat /\
  is_ocr_error (u "2OOO") (u "2000") = true /\
  hamming (u "OOOO") (u "0000") = 4%nat /\
  is_ocr_error (u "OOOO") (u "0000") = true.
Proof. repeat split; vm_compute; reflexivity. Qed.

End OcrFacts.

(** ** The order of binary64 numbers *)

Module F64Facts.
Import F64.

Local Open Scope Z_scope.

Lemma ltb_rank (x y : float) :
  is_nan x = false -> is_nan y = false ->
  (ltb x y = true <-> lex_lt (rank x) (rank y)).
Proof.
  unfold ltb, SFltb.
  destruct x as [sx|sx| |sx m1 e1], y as [sy|sy| |sy m2 e2]; simpl;
    try discriminate; intros _ _;
    try (destruct sx); try (destruct sy); simpl;
    try solve [split; intros; first [discriminate | reflexivity | lia]].
  - change (PosDef.Pos.compare_cont Eq m1 m2) with (Pos.compare m1 m2).
    destruct (Z.compare_spec e1 e2);
      try solve [split; intros; first [discriminate | reflexivity | lia]].
    destruct (Pos.compare_spec m1 m2); simpl;
      solve [split; intros; first [discriminate | reflexivity | lia]].
  - change (PosDef.Pos.compare_cont Eq m1 m2) with (Pos.compare m1 m2).
    destruct (Z.compare_spec e1 e2);
      try solve [split; intros; first [discriminate | reflexivity | lia]].
    destruct (Pos.compare_spec m1 m2); simpl;
      solve [split; intros; first [discriminate | reflexivity | lia]].
Qed.

Lemma gtb_rank (x y : float) :
  is_nan x = false -> is_nan y = false ->
  (gtb x y = true <-> lex_lt (rank y) (rank x)).
Proof. intros Hx Hy. unfold gtb. now apply (ltb_rank y x). Qed.

Lemma gtb_rank_false (x y : float) :
  is_nan x = false -> is_nan y = false ->
  (gtb x y = false <-> ~ lex_lt (rank y) (rank x)).
Proof.
  intros Hx Hy. rewrite <- (gtb_rank x y Hx Hy).
  destruct (gtb x y); split; congruence.
Qed.

(** [a > b] and [b > c] give [a > c]. *)
Lemma gtb_trans (a b c : float) :
  is_nan a = false -> is_nan b = false -> is_nan c = false ->
  gtb a b = true -> gtb b c = true -> gtb a c = true.
Proof.
  intros Ha Hb Hc. rewrite !gtb_rank by assumption.
  destruct (rank a) as [[a1 a2] a3], (rank b) as [[b1 b2] b3], (rank c) as [[c1 c2] c3].
  unfold lex_lt. lia.
Qed.

(** [a <= b] and [b < c] give [a < c]. *)
Lemma le_gtb_trans (a b c : float) :
  is_nan a = false -> is_nan b = false -> is_nan c = false ->
  gtb a b = false -> gtb c b = true -> gtb c a = true.
Proof.
  intros Ha Hb Hc. rewrite gtb_rank_false, !gtb_rank by assumption.
  destruct (rank a) as [[a1 a2] a3], (rank b) as [[b1 b2] b3], (rank c) as [[c1 c2] c3].
  unfold lex_lt. lia.
Qed.

(** [a < b] and [b <= c] give [a < c]. *)
Lemma gtb_le_trans (a b c : float) :
  is_nan a = false -> is_nan b = false -> is_nan c = false ->
  gtb b a = true -> gtb b c = false -> gtb c a = true.
Proof.
  intros Ha Hb Hc. rewrite gtb_rank_false, !gtb_rank by assumption.
  destruct (rank a) as [[a1 a2] a3], (rank b) as [[b1 b2] b3], (rank c) as [[c1 c2] c3].
  unfold lex_lt. lia.
Qed.

Lemma gtb_asym (a b : float) : gtb a b = true -> gtb b a = false.
Proof.
  intros H.
  assert (Ha : is_nan a = false).
  { destruct a; try reflexivity. unfold gtb, SFltb in H. destruct b; discriminate. }
  assert (Hb : is_nan b = false).
  { destruct b; try reflexivity. unfold gtb, SFltb in H. destruct a; discriminate. }
  revert H. rewrite gtb_rank_false, gtb_rank by assumption.
  destruct (rank a) as [[a1 a2] a3], (rank b) as [[b1 b2] b3].
  unfold lex_lt. lia.
Qed.

(** ** Operations never produce NaN from numbers *)

Lemma shr_1_nonneg (r : shr_record) : 0 <= shr_m r -> 0 <= shr_m (shr_1 r).
Proof.
  destruct r as [m r s]; simpl. destruct m as [|[p|p|]|[p|p|]]; simpl; lia.
Qed.

Lemma iter_pos_shr_1_nonneg (n : positive) (r : shr_record) :
  0 <= shr_m r -> 0 <= shr_m (iter_pos shr_1 n r).
Proof.
  revert r; induction n as [n IH|n IH|]; intros r H; simpl.
  - apply IH, IH, shr_1_nonneg, H.
  - apply IH, IH, H.
  - apply shr_1_nonneg, H.
Qed.

Lemma shr_fexp_nonneg (m e : Z) (l : location) :
  0 <= m -> 0 <= shr_m (fst (shr_fexp prec emax m e l)).
Proof.
  intros H. unfold shr_fexp, shr.
  assert (R : 0 <= shr_m (shr_record_of_loc m l)).
  { destruct l as [|[]]; simpl; exact H. }
  destruct (fexp prec emax (Zdigits2 m + e) - e); simpl; auto.
  apply iter_pos_shr_1_nonneg, R.
Qed.

Lemma round_nearest_even_nonneg (m : Z) (l : location) :
  0 <= m -> 0 <= round_nearest_even m l.
Proof.
  intros H. destruct l as [|[]]; simpl; try lia. destruct (Z.even m); lia.
Qed.

Lemma binary_round_aux_number (s : bool) (m e : Z) (l : location) :
  0 <= m -> is_nan (binary_round_aux prec emax s m e l) = false.
Proof.
  intros H. unfold binary_round_aux.
  pose proof (shr_fexp_nonneg m e l H) as H1.
  destruct (shr_fexp prec emax m e l) as [r1 e1]; simpl in H1.
  pose proof (round_nearest_even_nonneg (shr_m r1) (loc_of_shr_record r1) H1) as H2.
  pose proof (shr_fexp_nonneg _ e1 loc_Exact H2) as H3.
  destruct (shr_fexp prec emax _ e1 loc_Exact) as [r2 e2]; simpl in H3.
  destruct (shr_m r2) as [|p|p]; [reflexivity | | lia].
  destruct (e2 <=? emax - prec); reflexivity.
Qed.

Lemma binary_round_number (s : bool) (m : positive) (e : Z) :
  is_nan (binary_round prec emax s m e) = false.
Proof.
  unfold binary_round. destruct (shl_align _ _ _) as [mz ez].
  apply binary_round_aux_number. lia.
Qed.

Lemma of_Z_number (n : Z) : is_nan (of_Z n) = false.
Proof.
  unfold of_Z, binary_normalize. destruct n; [reflexivity | |]; apply binary_round_number.
Qed.

Lemma mul_number (x c : float) :
  is_nan x = false -> is_nonzero_finite c = true -> is_nan (mul x c) = false.
Proof.
  destruct x, c; simpl; try discriminate; try reflexivity; intros _ _.
  apply binary_round_aux_number. lia.
Qed.

Lemma add_number (x c : float) :
  is_nan x = false -> is_finite c = true -> is_nan (add x c) = false.
Proof.
  destruct x as [sx|sx| |sx mx e1], c as [sc|sc| |sc mc ec]; simpl;
    try discriminate; try reflexivity; intros _ _.
  - destruct sx, sc; reflexivity.
  - unfold binary_normalize.
    destruct (_ + _); [reflexivity | |]; apply binary_round_number.
Qed.

Lemma div_number (x c : float) :
  is_nan x = false -> is_nonzero_finite c = true -> is_nan (div x c) = false.
Proof.
  destruct x as [sx|sx| |sx mx e1], c as [sc|sc| |sc mc ec]; simpl;
    try discriminate; try reflexivity; intros _ _.
  unfold SFdiv_core_binary.
  set (m' := match _ - _ - _ with Z0 => _ | Zpos _ => _ | Zneg _ => _ end).
  assert (Hm : 0 <= m').
  { subst m'. destruct (_ - _ - _); try lia. apply Z.shiftl_nonneg. lia. }
  pose proof (Z.div_eucl_eq m' (Zpos mc) ltac:(lia)) as E.
  pose proof (Z.mod_pos_bound m' (Zpos mc) ltac:(lia)) as B.
  unfold Z.modulo in B.
  destruct (Z.div_eucl m' (Z.pos mc)) as [q r].
  apply binary_round_aux_number. nia.
Qed.

End F64Facts.

(** ** The matcher for short sequences is a [Difflib] *)

Module SequenceMatcherFacts.
Import F64 F64Facts SequenceMatcher.

Lemma common_prefix_le (a b : str) : (common_prefix a b <= length a)%nat.
Proof.
  revert b; induction a as [|x a IH]; intros [|y b]; simpl; try lia.
  destruct (x =? y)%N; [specialize (IH b) |]; lia.
Qed.

Lemma scan_b_inside (n i : nat) (a_from : str) :
  (i + length a_from <= n)%nat ->
  forall b j best, inside n best -> inside n (scan_b a_from b i j best).
Proof.
  intros Hi. induction b as [|y b IH]; intros j best Hb; simpl; [exact Hb|].
  apply IH. destruct (snd best <? common_prefix a_from (y :: b))%nat; [|exact Hb].
  right. simpl. pose proof (common_prefix_le a_from (y :: b)). lia.
Qed.

Lemma scan_a_inside (n : nat) (b : str) :
  forall a i best, (i + length a <= n)%nat -> inside n best ->
    inside n (scan_a a b i best).
Proof.
  induction a as [|x a IH]; intros i best Hi Hb; simpl; [exact Hb|].
  apply IH; [simpl in Hi; lia|]. now apply scan_b_inside.
Qed.

Lemma find_longest_match_inside (a b : str) :
  inside (length a) (find_longest_match a b).
Proof. apply scan_a_inside; [simpl; lia | now left]. Qed.

(** The fuel given to [blocks_size] is never used up: more fuel gives the
    same sum. *)
Lemma blocks_size_fuel (n : nat) :
  forall (a b : str) (m : nat),
    (length a < n)%nat -> (length a < m)%nat -> blocks_size n a b = blocks_size m a b.
Proof.
  induction n as [|n IH]; intros a b m Hn Hm; [lia|].
  destruct m as [|m]; [lia|]. simpl.
  pose proof (find_longest_match_inside a b) as H.
  destruct (find_longest_match a b) as [[i j] k]. unfold inside in H. simpl in H.
  destruct (Nat.eqb_spec k 0) as [E|E]; [reflexivity|].
  destruct H as [H|H]; [contradiction|].
  rewrite (IH (firstn i a) (firstn j b) m), (IH (skipn (i + k) a) (skipn (j + k) b) m);
    try reflexivity; rewrite ?length_firstn, ?length_skipn; lia.
Qed.

Lemma mul_number_l (c x : float) :
  is_nonzero_finite c = true -> is_nan x = false -> is_nan (mul c x) = false.
Proof.
  destruct c, x; simpl; try discriminate; try reflexivity; intros _ _.
  apply binary_round_aux_number. lia.
Qed.

Lemma of_small_nat (n : nat) :
  (0 < n < 200)%nat -> is_nonzero_finite (of_Z (Z.of_nat n)) = true.
Proof.
  intros H.
  assert (A : forallb (fun k => is_nonzero_finite (of_Z (Z.of_nat k))) (seq 1 199) = true)
    by (vm_compute; reflexivity).
  rewrite forallb_forall in A. apply A. apply in_seq. lia.
Qed.

Lemma _calculate_ratio_number (matches length : nat) :
  (length < 200)%nat -> is_nan (_calculate_ratio matches length) = false.
Proof.
  intros H. unfold _calculate_ratio.
  destruct (Nat.eqb_spec length 0) as [E|E]; [reflexivity|].
  apply div_number.
  - apply mul_number_l; [reflexivity | apply of_Z_number].
  - apply of_small_nat. lia.
Qed.

Lemma short_ratio_number (a b : str) : is_nan (short_ratio a b) = false.
Proof.
  unfold short_ratio.
  destruct (Nat.leb_spec 200 (length a + length b)); [reflexivity|].
  now apply _calculate_ratio_number.
Qed.

End SequenceMatcherFacts.

#[export] Instance plain_difflib : Difflib := {
  ratio := SequenceMatcher.short_ratio;
  ratio_number := SequenceMatcherFacts.short_ratio_number
}.

(** ** Strings: prefixes, occurrences, stripping *)

Module PyFacts.
Import ReSpec.

Lemma startswith_iff (p s : str) : startswith p s = true <-> exists post, s = p ++ post.
Proof.
  revert s; induction p as [|x p IH]; intros s; simpl.
  - split; [intros _; now exists s | reflexivity].
  - destruct s as [|y s]; [split; [discriminate | intros [post E]; discriminate]|].
    rewrite andb_true_iff, N.eqb_eq, IH. split.
    + intros [-> [post ->]]. now exists post.
    + intros [post E]. injection E as -> ->. split; [reflexivity | now exists post].
Qed.

Lemma contains_iff (x y : str) : contains x y = true <-> substring x y.
Proof.
  unfold substring. induction y as [|c y IH]; simpl.
  - rewrite orb_false_r, startswith_iff. split.
    + intros [post E]. exists [], post. exact E.
    + intros [pre [post E]]. destruct pre; [now exists post | discriminate].
  - rewrite orb_true_iff, startswith_iff, IH. split.
    + intros [[post E] | [pre [post E]]].
      * exists [], post. exact E.
      * exists (c :: pre), post. simpl. now rewrite E.
    + intros [pre [post E]]. destruct pre as [|d pre]; simpl in E.
      * left. now exists post.
      * right. injection E as _ E. now exists pre, post.
Qed.

Lemma occurs_at_0 (x y : str) : occurs_at x y 0 <-> startswith x y = true.
Proof.
  rewrite startswith_iff. unfold occurs_at. split.
  - intros (pre & post & E & L). destruct pre; [now exists post | discriminate].
  - intros [post E]. now exists [], post.
Qed.

Lemma occurs_at_S (x : str) (c : char) (y : str) (p : nat) :
  occurs_at x (c :: y) (S p) <-> occurs_at x y p.
Proof.
  unfold occurs_at. split.
  - intros (pre & post & E & L). destruct pre as [|d pre]; [discriminate|].
    simpl in E, L. injection E as _ E. injection L as L. now exists pre, post.
  - intros (pre & post & E & L). exists (c :: pre), post. simpl. now rewrite E, L.
Qed.

Lemma find_from_spec (x y : str) (i : Z) :
  contains x y = true ->
  exists p, find_from x y i = (i + Z.of_nat p)%Z /\ first_occurrence x y p.
Proof.
  revert i; induction y as [|c y IH]; intros i; simpl.
  - rewrite orb_false_r. intros H. rewrite H. exists 0%nat. split; [lia|].
    split; [now apply occurs_at_0 | intros q Hq; lia].
  - destruct (startswith x (c :: y)) eqn:E; simpl.
    + intros _. exists 0%nat. split; [lia|].
      split; [now apply occurs_at_0 | intros q Hq; lia].
    + intros H. destruct (IH (i + 1)%Z H) as (p & Ep & [O F]).
      exists (S p). split; [lia|]. split; [now apply occurs_at_S|].
      intros [|q] Hq; [rewrite occurs_at_0; congruence|].
      rewrite occurs_at_S. apply F. lia.
Qed.

(** [s.find(x)] is the index of the first occurrence when [x in s]. *)
Lemma find_spec (y x : str) :
  contains x y = true ->
  exists p, find y x = Z.of_nat p /\ first_occurrence x y p.
Proof. intros H. destruct (find_from_spec x y 0 H) as (p & E & F). now exists p. Qed.

Lemma first_occurrence_unique (x y : str) (p q : nat) :
  first_occurrence x y p -> first_occurrence x y q -> p = q.
Proof.
  intros [O1 F1] [O2 F2].
  destruct (Nat.lt_trichotomy p q) as [H|[H|H]]; [| assumption |].
  - elim (F2 p H O1).
  - elim (F1 q H O2).
Qed.

Lemma lstrip_head (s : str) (x : char) (t : str) :
  lstrip s = x :: t -> isspace x = false.
Proof.
  induction s as [|c s IH]; simpl; [discriminate|].
  destruct (isspace c) eqn:E; [exact IH|]. intros H. injection H as -> _. exact E.
Qed.

Lemma lstrip_snoc (l : str) (x : char) :
  isspace x = false -> exists v, lstrip (l ++ [x]) = v ++ [x].
Proof.
  intros H. induction l as [|c l IH]; simpl.
  - rewrite H. now exists [].
  - destruct (isspace c); [exact IH|]. now exists (c :: l).
Qed.

Lemma rstrip_cons (x : char) (t : str) :
  isspace x = false -> exists v, rstrip (x :: t) = x :: v.
Proof.
  intros H. unfold rstrip. simpl.
  destruct (lstrip_snoc (rev t) x H) as [v E]. rewrite E.
  rewrite rev_app_distr. simpl. now exists (rev v).
Qed.

(** A stripped string is empty or begins with a character that is no
    whitespace. *)
Lemma strip_head (s : str) (x : char) (t : str) :
  strip s = x :: t -> isspace x = false.
Proof.
  unfold strip. destruct (lstrip s) as [|y l] eqn:E; [discriminate|].
  pose proof (lstrip_head s y l E) as Hy.
  destruct (rstrip_cons y l Hy) as [v ->]. intros H. now injection H as <- _.
Qed.

Lemma strip_cons_nonempty (x : char) (t : str) :
  isspace x = false -> strip (x :: t) <> [].
Proof.
  intros H. unfold strip. simpl. rewrite H.
  destruct (rstrip_cons x t H) as [v ->]. discriminate.
Qed.

End PyFacts.

(** ** The matcher finds matches only *)

Module ReFacts.
Import Re ReSpec.

Lemma times_sound (n : nat) (p : char -> bool) (s s' : str) :
  times n p s = Some s' ->
  exists w, s = w ++ s' /\ length w = n /\ forallb p w = true.
Proof.
  revert s; induction n as [|n IH]; intros s; simpl.
  - intros H. injection H as ->. now exists [].
  - destruct s as [|x s]; [discriminate|].
    destruct (p x) eqn:E; [|discriminate]. intros H.
    destruct (IH s H) as (w & -> & L & F).
    exists (x :: w). simpl. now rewrite E, L, F.
Qed.

Lemma rep_greedy_sound (min : nat) (p : char -> bool) (k : nat -> str -> outcome)
    (s : str) (cnt i : nat) (res : nat * caps) :
  rep_greedy min p k cnt i s = Some res ->
  exists w s', s = w ++ s' /\ forallb p w = true /\
    (min <= cnt + length w)%nat /\ k (i + length w)%nat s' = Some res.
Proof.
  revert cnt i; induction s as [|x s IH]; intros cnt i; simpl.
  - destruct (Nat.leb_spec min cnt) as [Hm|Hm]; [|discriminate]. intros H.
    exists [], []. simpl. rewrite ?Nat.add_0_r. repeat split; auto; lia.
  - assert (Stop : (if (min <=? cnt)%nat then k i (x :: s) else None) = Some res ->
                   exists w s', x :: s = w ++ s' /\ forallb p w = true /\
                     (min <= cnt + length w)%nat /\ k (i + length w)%nat s' = Some res).
    { destruct (Nat.leb_spec min cnt) as [Hm|Hm]; [|discriminate]. intros H.
      exists [], (x :: s). simpl. rewrite ?Nat.add_0_r. repeat split; auto; lia. }
    destruct (p x) eqn:E; [|exact Stop].
    destruct (rep_greedy min p k (S cnt) (S i) s) as [r|] eqn:G; [|exact Stop].
    intros H. injection H as ->.
    destruct (IH _ _ G) as (w & s' & -> & F & L & K).
    exists (x :: w), s'. simpl. rewrite E, F.
    repeat split; auto; try lia. now replace (i + S (length w))%nat with (S i + length w)%nat by lia.
Qed.

Lemma rep_lazy_sound (min : nat) (p : char -> bool) (k : nat -> str -> outcome)
    (s : str) (cnt i : nat) (res : nat * caps) :
  rep_lazy min p k cnt i s = Some res ->
  exists w s', s = w ++ s' /\ forallb p w = true /\
    (min <= cnt + length w)%nat /\ k (i + length w)%nat s' = Some res.
Proof.
  revert cnt i; induction s as [|x s IH]; intros cnt i; simpl.
  - destruct (Nat.leb_spec min cnt) as [Hm|Hm].
    + destruct (k i []) as [r|] eqn:K; [|discriminate]. intros H. injection H as ->.
      exists [], []. simpl. rewrite ?Nat.add_0_r. repeat split; auto; lia.
    + discriminate.
  - assert (Stop : forall r, (min <= cnt)%nat -> k i (x :: s) = Some r -> Some r = Some res ->
                   exists w s', x :: s = w ++ s' /\ forallb p w = true /\
                     (min <= cnt + length w)%nat /\ k (i + length w)%nat s' = Some res).
    { intros r Hm K H. injection H as ->.
      exists [], (x :: s). simpl. rewrite ?Nat.add_0_r. repeat split; auto; lia. }
    assert (Go : (if p x then rep_lazy min p k (S cnt) (S i) s else None) = Some res ->
                 exists w s', x :: s = w ++ s' /\ forallb p w = true /\
                   (min <= cnt + length w)%nat /\ k (i + length w)%nat s' = Some res).
    { destruct (p x) eqn:E; [|discriminate]. intros G.
      destruct (IH _ _ G) as (w & s' & -> & F & L & K).
      exists (x :: w), s'. simpl. rewrite E, F.
      repeat split; auto; try lia.
      now replace (i + S (length w))%nat with (S i + length w)%nat by lia. }
    destruct (Nat.leb_spec min cnt) as [Hm|Hm]; [|exact Go].
    destruct (k i (x :: s)) as [r|] eqn:K; [now apply (Stop r) | exact Go].
Qed.

(** Soundness of the matcher: when [exec] succeeds, the continuation was
    given the end of a match of [r]. *)
Lemma exec_sound (r : re) :
  forall (i : nat) (s : str) (c : caps) (k : nat -> str -> caps -> outcome)
         (res : nat * caps),
    exec r i s c k = Some res ->
    exists w rest c', s = w ++ rest /\ denotes r i w rest c c' /\
      k (i + length w)%nat rest c' = Some res.
Proof.
  induction r as [p|r1 IH1 r2 IH2|g min p|n p|r1 IH1|n r1 IH1| |];
    intros i s c k res; simpl.
  - destruct s as [|x s]; [discriminate|]. destruct (p x) eqn:E; [|discriminate].
    intros H. exists [x], s, c. simpl. repeat split; eauto.
    now replace (i + 1)%nat with (S i) by lia.
  - intros H. destruct (IH1 _ _ _ _ _ H) as (w1 & rest1 & c1 & -> & D1 & H1).
    destruct (IH2 _ _ _ _ _ H1) as (w2 & rest & c' & -> & D2 & H2).
    exists (w1 ++ w2), rest, c'. rewrite <- app_assoc. split; [reflexivity|].
    split; [now exists w1, w2, c1|].
    now rewrite length_app, Nat.add_assoc.
  - intros H.
    assert (X : exists w s', s = w ++ s' /\ forallb p w = true /\
                  (min <= 0 + length w)%nat /\ k (i + length w)%nat s' c = Some res).
    { destruct g; [apply rep_greedy_sound in H | apply rep_lazy_sound in H]; exact H. }
    destruct X as (w & s' & -> & F & L & K). exists w, s', c. repeat split; auto.
  - destruct (times n p s) as [s'|] eqn:T; [|discriminate]. intros H.
    destruct (times_sound _ _ _ _ T) as (w & -> & L & F).
    exists w, s', c. rewrite L. repeat split; auto.
  - destruct (exec r1 i s c k) as [x|] eqn:E.
    + intros H. injection H as ->.
      destruct (IH1 _ _ _ _ _ E) as (w & rest & c' & -> & D & K).
      exists w, rest, c'. repeat split; auto.
    + intros H. exists [], s, c. simpl. rewrite ?Nat.add_0_r. repeat split; auto.
  - intros H. destruct (IH1 _ _ _ _ _ H) as (w & rest & c1 & -> & D & K).
    exists w, rest, ((n, w) :: c1). split; [reflexivity|]. split; [now exists c1|].
    replace (i + length w - i)%nat with (length w) in K by lia.
    now rewrite firstn_app, firstn_all, Nat.sub_diag, app_nil_r in K.
  - destruct (Nat.eqb_spec i 0) as [->|]; [|discriminate]. intros H.
    exists [], s, c. simpl. repeat split; auto.
  - destruct s as [|x [|y s]]; try discriminate.
    + intros H. exists [], [], c. simpl. rewrite ?Nat.add_0_r. repeat split; auto.
    + destruct (N.eqb_spec x 10) as [->|]; [|discriminate]. intros H.
      exists [], [10%N], c. simpl. rewrite ?Nat.add_0_r. repeat split; auto.
Qed.

Lemma at_index_sound (r : re) (i : nat) (s : str) (m : match_) :
  at_index r i s = Some m ->
  exists w rest, s = w ++ rest /\ denotes r i w rest [] (m_caps m).
Proof.
  unfold at_index.
  destruct (exec r i s [] (fun e _ c => Some (e, c))) as [[e c]|] eqn:E; [|discriminate].
  intros H. injection H as <-. simpl.
  destruct (exec_sound _ _ _ _ _ _ E) as (w & rest & c' & -> & D & K).
  injection K as _ <-. now exists w, rest.
Qed.

(** A match found by [search] lies in the searched text. *)
Lemma search_from_sound (r : re) (s : str) (i : nat) (m : match_) :
  search_from r i s = Some m ->
  exists pre w rest, s = pre ++ w ++ rest /\
    denotes r (i + length pre) w rest [] (m_caps m).
Proof.
  revert i; induction s as [|x s IH]; intros i; simpl.
  - destruct (at_index r i []) eqn:E; [|discriminate]. intros H. injection H as ->.
    destruct (at_index_sound _ _ _ _ E) as (w & rest & Es & D).
    exists [], w, rest. simpl. now rewrite ?Nat.add_0_r.
  - destruct (at_index r i (x :: s)) eqn:E.
    + intros H. injection H as ->.
      destruct (at_index_sound _ _ _ _ E) as (w & rest & Es & D).
      exists [], w, rest. simpl. now rewrite ?Nat.add_0_r.
    + intros H. destruct (IH _ H) as (pre & w & rest & -> & D).
      exists (x :: pre), w, rest. split; [reflexivity|].
      simpl. now replace (i + S (length pre))%nat with (S i + length pre)%nat by lia.
Qed.

Lemma search_sound (r : re) (s : str) (m : match_) :
  search r s = Some m ->
  exists pre w rest, s = pre ++ w ++ rest /\ denotes r (length pre) w rest [] (m_caps m).
Proof. apply search_from_sound. Qed.

End ReFacts.

(** ** Parsing a citation marker *)

Module ParserFacts.
Import Re ReSpec ReFacts PyFacts ReferenceMapper.

(** A match of either citation pattern starts the text, its first group is
    a non-empty prefix of it and its second group has four characters. *)
Lemma citation_groups (r : re) (s : str) (m : match_) :
  r = citation_re_fullwidth \/ r = citation_re_latin ->
  search r s = Some m ->
  exists w1 rest, s = w1 ++ rest /\ w1 <> [] /\
    group m 1 = w1 /\ length (group m 2) = 4%nat /\
    forallb ocr_year_char (group m 2) = true.
Proof.
  intros Hr H. apply search_sound in H.
  destruct H as (pre & w & rest & -> & D). unfold group.
  destruct Hr as [-> | ->]; simpl in D.
  - destruct D as (w0 & wa & c0 & -> & (-> & Z & ->) & D).
    destruct D as (w1 & wb & c1 & -> & (c1' & (L1 & F1 & ->) & ->) & D).
    destruct D as (w2 & wc & c2 & -> & (x & -> & _ & ->) & D).
    destruct D as (w3 & wd & c3 & -> & (c3' & (L3 & F3 & ->) & ->) & (y & -> & _ & ->)).
    apply length_zero_iff_nil in Z. subst pre. simpl.
    exists w1, ((x :: w3 ++ [y]) ++ rest). rewrite <- !app_assoc. simpl.
    repeat split; auto. intros ->. simpl in L1. lia.
  - destruct D as (w0 & wa & c0 & -> & (-> & Z & ->) & D).
    destruct D as (w1 & wb & c1 & -> & (c1' & (L1 & F1 & ->) & ->) & D).
    destruct D as (ws & wb' & cs & -> & (_ & _ & ->) & D).
    destruct D as (w2 & wc & c2 & -> & (x & -> & _ & ->) & D).
    destruct D as (w3 & wd & c3 & -> & (c3' & (L3 & F3 & ->) & ->) & (y & -> & _ & ->)).
    apply length_zero_iff_nil in Z. subst pre. simpl.
    exists w1, ((ws ++ x :: w3 ++ [y]) ++ rest). rewrite <- !app_assoc. simpl.
    repeat split; auto. intros ->. simpl in L1. lia.
Qed.

(** The parser answers nothing exactly when neither pattern matches the
    stripped citation. *)
Lemma unparsed_iff (citation : str) :
  extract_author_year_from_citation citation = (None, None) <->
  search citation_re_fullwidth (strip citation) = None /\
  search citation_re_latin (strip citation) = None.
Proof.
  unfold extract_author_year_from_citation.
  destruct (search citation_re_fullwidth (strip citation));
    [split; [discriminate | intros [H _]; discriminate]|].
  destruct (search citation_re_latin (strip citation));
    [split; [discriminate | intros [_ H]; discriminate]|].
  now split.
Qed.

(** The parser answers nothing at all, or an author that is not empty
    together with a year of four characters of the OCR-tolerant alphabet. *)
Lemma extract_author_year_from_citation_shape (citation : str) :
  extract_author_year_from_citation citation = (None, None) \/
  exists author cyear,
    extract_author_year_from_citation citation = (Some author, Some cyear) /\
    author <> [] /\ length cyear = 4%nat /\ forallb ocr_year_char cyear = true.
Proof.
  unfold extract_author_year_from_citation.
  assert (K : forall r m, r = citation_re_fullwidth \/ r = citation_re_latin ->
              search r (strip citation) = Some m ->
              strip (group m 1) <> [] /\ length (group m 2) = 4%nat /\
              forallb ocr_year_char (group m 2) = true).
  { intros r m Hr H.
    destruct (citation_groups r _ m Hr H) as (w1 & rest & E & N & -> & L & F).
    split; [|now split].
    destruct w1 as [|x w1]; [congruence|].
    apply strip_cons_nonempty. apply (strip_head citation x (w1 ++ rest)). exact E. }
  destruct (search citation_re_fullwidth (strip citation)) as [m|] eqn:E1.
  - right. destruct (K _ m (or_introl eq_refl) E1) as (A & L & F). eauto 8.
  - destruct (search citation_re_latin (strip citation)) as [m|] eqn:E2.
    + right. destruct (K _ m (or_intror eq_refl) E2) as (A & L & F). eauto 8.
    + now left.
Qed.

End ParserFacts.

(** ** The matcher *)

Module MatcherFacts.
Import F64 F64Facts ReferenceMapper MatcherSpec ParserFacts.

Section WithRuntime.
Context {U : Unicode} {D : Difflib}.

Lemma calculate_year_match_score_finite (cy t : str) (ry : option str) :
  is_finite (mul (calculate_year_match_score cy t ry) f0_4) = true.
Proof.
  unfold calculate_year_match_score.
  repeat match goal with |- context [if ?b then _ else _] => destruct b end;
    vm_compute; reflexivity.
Qed.

Lemma calculate_author_match_score_number (a t r : str) :
  is_nan (calculate_author_match_score a t r) = false.
Proof.
  unfold calculate_author_match_score.
  repeat match goal with |- context [if ?b then _ else _] => destruct b end;
    try reflexivity.
  apply mul_number; [apply ratio_number | reflexivity].
Qed.

(** Every combined score is a number. *)
Lemma total_score_number (author cyear : str) (ref : entry) (s : float)
    (ry : option str) :
  total_score author cyear ref = Some (s, ry) -> is_nan s = false.
Proof.
  unfold total_score.
  destruct (extract_author_year_from_reference (text ref)) as [[a|] y]; [|discriminate].
  destruct (negb (truthy (Some a))); [discriminate|].
  intros H. injection H as <- _.
  apply add_number; [|apply calculate_year_match_score_finite].
  apply mul_number; [apply calculate_author_match_score_number | reflexivity].
Qed.

Lemma gtb_irrefl (s : float) : gtb s s = false.
Proof. destruct (gtb s s) eqn:E; [|reflexivity]. now rewrite (gtb_asym _ _ E) in E. Qed.

(** The loop keeps the first of the greatest scores above the score it
    starts from, if there is one. *)
Lemma fold_visit (author cyear : str) (l : list (nat * entry)) :
  forall b0 : best,
    is_nan (best_score b0) = false ->
    let b := fold_left (visit author cyear) l b0 in
    (b = b0 /\
     forall q x s ry, nth_error l q = Some x ->
       total_score author cyear (snd x) = Some (s, ry) ->
       gtb s (best_score b0) = false)
    \/
    (exists p x s ry,
        nth_error l p = Some x /\
        total_score author cyear (snd x) = Some (s, ry) /\
        b = {| best_match := Some x; best_score := s; best_ref_year := ry |} /\
        gtb s (best_score b0) = true /\
        (forall q x' s' ry', (q < p)%nat -> nth_error l q = Some x' ->
           total_score author cyear (snd x') = Some (s', ry') -> gtb s s' = true) /\
        (forall q x' s' ry', nth_error l q = Some x' ->
           total_score author cyear (snd x') = Some (s', ry') -> gtb s' s = false)).
Proof.
  induction l as [|x0 l IH]; intros b0 N0; simpl.
  - left. split; [reflexivity|]. intros [|q] x s ry H; discriminate.
  - destruct (total_score author cyear (snd x0)) as [[s0 ry0]|] eqn:T0.
    + pose proof (total_score_number _ _ _ _ _ T0) as Ns0.
      destruct (gtb s0 (best_score b0)) eqn:G0.
      * (* x0 becomes the best so far *)
        replace (visit author cyear b0 x0)
          with {| best_match := Some x0; best_score := s0; best_ref_year := ry0 |}
          by (unfold visit; now rewrite T0, G0).
        destruct (IH {| best_match := Some x0; best_score := s0; best_ref_year := ry0 |} Ns0)
          as [[E A] | (p & x & s & ry & Hp & T & E & G & B & A)]; simpl in *.
        -- right. exists 0%nat, x0, s0, ry0. repeat split; auto.
           ++ intros q x' s' ry' Hq. lia.
           ++ intros [|q] x' s' ry' Hq T'; simpl in Hq.
              ** injection Hq as <-. rewrite T0 in T'. injection T' as <- _.
                 apply gtb_irrefl.
              ** eapply A; eauto.
        -- pose proof (total_score_number _ _ _ _ _ T) as Ns.
           right. exists (S p), x, s, ry. repeat split; auto.
           ++ eapply gtb_trans; [| | | exact G | exact G0]; auto.
           ++ intros [|q] x' s' ry' Hq Hn T'; simpl in Hn.
              ** injection Hn as <-. rewrite T0 in T'. now injection T' as <- _.
              ** eapply B; eauto. lia.
           ++ intros [|q] x' s' ry' Hn T'; simpl in Hn.
              ** injection Hn as <-. rewrite T0 in T'. injection T' as <- _.
                 now apply gtb_asym.
              ** eapply A; eauto.
      * (* x0 does not beat the best so far *)
        replace (visit author cyear b0 x0) with b0
          by (unfold visit; now rewrite T0, G0).
        destruct (IH b0 N0) as [[E A] | (p & x & s & ry & Hp & T & E & G & B & A)].
        -- left. split; [exact E|].
           intros [|q] x' s' ry' Hn T'; simpl in Hn.
           ++ injection Hn as <-. rewrite T0 in T'. now injection T' as <- _.
           ++ eapply A; eauto.
        -- pose proof (total_score_number _ _ _ _ _ T) as Ns.
           right. exists (S p), x, s, ry. repeat split; auto.
           ++ intros [|q] x' s' ry' Hq Hn T'; simpl in Hn.
              ** injection Hn as <-. rewrite T0 in T'. injection T' as <- _.
                 eapply le_gtb_trans; [| | | exact G0 | exact G]; auto.
              ** eapply B; eauto. lia.
           ++ intros [|q] x' s' ry' Hn T'; simpl in Hn.
              ** injection Hn as <-. rewrite T0 in T'. injection T' as <- _.
                 apply gtb_asym.
                 eapply le_gtb_trans; [| | | exact G0 | exact G]; auto.
              ** eapply A; eauto.
    + (* x0 is skipped *)
      replace (visit author cyear b0 x0) with b0 by (unfold visit; now rewrite T0).
      destruct (IH b0 N0) as [[E A] | (p & x & s & ry & Hp & T & E & G & B & A)].
      * left. split; [exact E|].
        intros [|q] x' s' ry' Hn T'; simpl in Hn.
        -- injection Hn as <-. congruence.
        -- eapply A; eauto.
      * right. exists (S p), x, s, ry. repeat split; auto.
        -- intros [|q] x' s' ry' Hq Hn T'; simpl in Hn.
           ++ injection Hn as <-. congruence.
           ++ eapply B; eauto. lia.
        -- intros [|q] x' s' ry' Hn T'; simpl in Hn.
           ++ injection Hn as <-. congruence.
           ++ eapply A; eauto.
Qed.

Lemma nth_error_combine_seq (references : list entry) :
  forall (k p : nat) (x : nat * entry),
    nth_error (combine (seq k (length references)) references) p = Some x <->
    fst x = (k + p)%nat /\ nth_error references p = Some (snd x).
Proof.
  induction references as [|r l IH]; intros k p [i e]; simpl.
  - destruct p; simpl; split; try discriminate; intros [_ H]; discriminate.
  - destruct p as [|p]; simpl.
    + split.
      * intros H. injection H as <- <-. split; [lia | reflexivity].
      * intros [-> H]. injection H as ->. f_equal. f_equal. lia.
    + rewrite IH. simpl. split; intros [-> H]; split; auto; lia.
Qed.

Lemma nth_error_enumerate (references : list entry) (p : nat) (x : nat * entry) :
  nth_error (enumerate references) p = Some x <->
  fst x = p /\ nth_error references p = Some (snd x).
Proof. unfold enumerate. now rewrite nth_error_combine_seq. Qed.

(** What the function returns once the citation is parsed, in terms of the
    state the loop ends in. *)
Lemma map_after_loop (citation author cyear : str) (references : list entry) :
  extract_author_year_from_citation citation = (Some author, Some cyear) ->
  let b := fold_left (visit author cyear) (enumerate references)
             {| best_match := None; best_score := f0_0; best_ref_year := None |} in
  map_author_year_citation_to_reference citation references =
  match best_match b with
  | Some (id, ref) =>
    if gtb (best_score b) f0_3 then
      Some {| reference_id := id; reference := ref;
              corrected_citation :=
                match best_ref_year b with
                | Some ryear =>
                  if truthy (best_ref_year b) && negb (str_eqb ryear cyear)
                  then author ++ [lparen_fw] ++ ryear ++ [rparen_fw]
                  else citation
                | None => citation
                end;
              original_citation := citation |}
    else None
  | None => None
  end.
Proof.
  intros E b. unfold map_author_year_citation_to_reference. rewrite E.
  destruct (extract_author_year_from_citation_shape citation)
    as [N | (a & y & E' & Na & Ly & _)]; [congruence|].
  rewrite E in E'. injection E' as <- <-.
  assert (Ta : truthy (Some author) = true) by (destruct author; [congruence | reflexivity]).
  assert (Ty : truthy (Some cyear) = true) by (destruct cyear; [discriminate | reflexivity]).
  rewrite Ta, Ty. cbn [negb orb]. fold b.
  destruct (best_match b) as [[id ref]|]; [|reflexivity].
  destruct (gtb (best_score b) f0_3); [|reflexivity].
  destruct (best_ref_year b) as [ryear|]; [|reflexivity].
  rewrite andb_true_r.
  destruct (truthy (Some ryear) && negb (str_eqb ryear cyear)); reflexivity.
Qed.

(** The reference returned is the entry at the position the result
    names. *)
Lemma map_position (citation : str) (references : list entry) (m : mapping) :
  map_author_year_citation_to_reference citation references = Some m ->
  nth_error references (reference_id m) = Some (reference m).
Proof.
  intros H.
  destruct (extract_author_year_from_citation_shape citation)
    as [N | (author & cyear & E & _)].
  { unfold map_author_year_citation_to_reference in H. rewrite N in H. discriminate. }
  rewrite (map_after_loop citation author cyear references E) in H.
  destruct (fold_visit author cyear (enumerate references)
              {| best_match := None; best_score := f0_0; best_ref_year := None |} eq_refl)
    as [[Eb A] | (p & x & s & ry & Hp & T & Eb & G & B & A)];
    rewrite Eb in H; simpl in H; [discriminate|].
  destruct x as [id ref]. destruct (gtb s f0_3); [|discriminate].
  injection H as <-. simpl.
  apply nth_error_enumerate in Hp. simpl in Hp. now destruct Hp as [-> Hp].
Qed.

(** The score of a position, as the specification words it, is the score
    the loop computes there; both leave out a reference without author. *)
Lemma score_total_score (author cyear : str) (references : list entry) (j : nat) :
  score author cyear references j =
  match nth_error references j with
  | Some ref => option_map fst (total_score author cyear ref)
  | None => None
  end.
Proof.
  unfold score, has_author, combined_score, combined, total_score.
  destruct (nth_error references j) as [ref|]; [|reflexivity].
  destruct (extract_author_year_from_reference (text ref)) as [[[|c a]|] ry];
    reflexivity.
Qed.

(** C1, as amended: the combined score of a reference is
    [author_score * 0.6 + year_score * 0.4], computed from the text of the
    reference and the author and year extracted from it, and it is defined
    for the references from which an author that is not empty is
    extracted: the loop passes over the others.  The parser gives nothing
    or an author with a year.  A citation that no pattern parses is
    unmatched whatever the references are, so before any of them is
    scored; a parsed citation is matched exactly when the greatest combined
    score over the references that have an author is above 0.3, and the
    reference returned is the first one of the list that reaches this
    greatest score. *)
Theorem map_selects_first_maximum (citation : str) (references : list entry) :
  (forall author cyear i ref ref_author ref_year,
     nth_error references i = Some ref ->
     extract_author_year_from_reference (text ref) = (ref_author, ref_year) ->
     score author cyear references i =
     match ref_author with
     | Some (c :: a) =>
       Some (add (mul (calculate_author_match_score author (text ref) (c :: a)) f0_6)
                 (mul (calculate_year_match_score cyear (text ref) ref_year) f0_4))
     | _ => None
     end) /\
  (extract_author_year_from_citation citation = (None, None) \/
   exists author cyear,
     extract_author_year_from_citation citation = (Some author, Some cyear)) /\
  (extract_author_year_from_citation citation = (None, None) ->
   map_author_year_citation_to_reference citation references = None) /\
  (forall author cyear,
     extract_author_year_from_citation citation = (Some author, Some cyear) ->
     ((exists m, map_author_year_citation_to_reference citation references = Some m) <->
      (exists s, is_maximum author cyear references s /\ gtb s f0_3 = true)) /\
     (forall m,
        map_author_year_citation_to_reference citation references = Some m ->
        nth_error references (reference_id m) = Some (reference m) /\
        exists s,
          score author cyear references (reference_id m) = Some s /\
          is_maximum author cyear references s /\
          forall j s', (j < reference_id m)%nat ->
            score author cyear references j = Some s' -> gtb s s' = true)).
Proof.
  split.
  { intros author cyear i ref ref_author ref_year Hi He.
    unfold score, has_author, combined_score, combined. rewrite Hi, He.
    destruct ref_author as [[|c a]|]; reflexivity. }
  split.
  { destruct (extract_author_year_from_citation_shape citation)
      as [N | (author & cyear & E & _)]; [now left | right; eauto]. }
  split.
  { intros E. unfold map_author_year_citation_to_reference. now rewrite E. }
  intros author cyear E.
  rewrite (map_after_loop citation author cyear references E).
  set (b0 := {| best_match := None; best_score := f0_0; best_ref_year := None |}).
  (* scores of the list and of its enumeration *)
  assert (Sc : forall j s', score author cyear references j = Some s' ->
            exists x ry, nth_error (enumerate references) j = Some x /\
              total_score author cyear (snd x) = Some (s', ry)).
  { intros j s'. rewrite score_total_score.
    destruct (nth_error references j) as [r|] eqn:Hj; [|discriminate].
    destruct (total_score author cyear r) as [[s1 ry]|] eqn:T; [|discriminate].
    simpl. intros H. injection H as <-.
    exists (j, r), ry. split; [|exact T]. now apply nth_error_enumerate. }
  assert (Cs : forall p x s ry, nth_error (enumerate references) p = Some x ->
            total_score author cyear (snd x) = Some (s, ry) ->
            fst x = p /\ nth_error references p = Some (snd x) /\
            score author cyear references p = Some s).
  { intros p x s ry Hp T. apply nth_error_enumerate in Hp. destruct Hp as [F Hp].
    repeat split; auto. rewrite score_total_score. now rewrite Hp, T. }
  destruct (fold_visit author cyear (enumerate references) b0 eq_refl)
    as [[Eb A] | (p & x & s & ry & Hp & T & Eb & G & B & A)]; rewrite Eb; simpl.
  - (* nothing scored above 0.0 *)
    split; [|intros m H; discriminate].
    split; [intros [m H]; discriminate|].
    intros (s & [[i Hi] Hmax] & Hs). exfalso.
    destruct (Sc _ _ Hi) as (x & ry & Hx & T).
    pose proof (A _ _ _ _ Hx T) as L. simpl in L.
    assert (Ns : is_nan s = false) by (eapply total_score_number; eauto).
    assert (X : gtb s f0_0 = true).
    { eapply gtb_trans; [| | | exact Hs | reflexivity]; auto. }
    congruence.
  - destruct (Cs _ _ _ _ Hp T) as (Fx & Nx & Sx).
    assert (Ns : is_nan s = false) by (eapply total_score_number; eauto).
    assert (Max : is_maximum author cyear references s).
    { split; [now exists p|]. intros j s' Hj.
      destruct (Sc _ _ Hj) as (x' & ry' & Hx' & T'). eapply A; eauto. }
    destruct x as [id ref]. simpl in Fx, Nx. subst id.
    split.
    + split.
      * intros [m H]. exists s. split; [exact Max|].
        destruct (gtb s f0_3); [reflexivity | discriminate].
      * intros (s1 & [[i Hi] Hmax] & Hs).
        assert (Ns1 : is_nan s1 = false).
        { destruct (Sc _ _ Hi) as (x' & ry' & Hx' & T'). eapply total_score_number; eauto. }
        assert (L : gtb s1 s = false) by (apply (proj2 Max i s1 Hi)).
        assert (X : gtb s f0_3 = true).
        { eapply gtb_le_trans; [| | | exact Hs | exact L]; auto. }
        rewrite X. eauto.
    + intros m H. destruct (gtb s f0_3); [|discriminate].
      injection H as <-. simpl. split; [exact Nx|].
      exists s. repeat split; auto.
      * now exists p.
      * apply Max.
      * intros j s' Hlt Hj. destruct (Sc _ _ Hj) as (x' & ry' & Hx' & T').
        eapply B; eauto.
Qed.

Ltac break_match_of D :=
  simpl in D;
  repeat match goal with
         | H : exists _, _ |- _ => destruct H
         | H : _ /\ _ |- _ => destruct H
         end;
  subst.

Lemma first_year_group (patterns : list Re.re) (s y : str) :
  first_year patterns s = Some y ->
  exists r m, In r patterns /\ Re.search r s = Some m /\ y = Re.group m 1.
Proof.
  induction patterns as [|r l IH]; simpl; [discriminate|].
  destruct (Re.search r s) as [m|] eqn:E.
  - intros H. injection H as <-. exists r, m. auto.
  - intros H. destruct (IH H) as (r' & m' & I & S & G). exists r', m'. auto.
Qed.

(** A year taken from a reference has four characters. *)
Lemma first_year_length (s y : str) :
  first_year year_patterns s = Some y -> length y = 4%nat.
Proof.
  intros H. destruct (first_year_group _ _ _ H) as (r & m & I & S & ->).
  apply ReFacts.search_sound in S. destruct S as (pre & w & rest & _ & De).
  unfold Re.group. destruct m as [ms me mc]. unfold year_patterns, year4 in I.
  simpl in I, De |- *.
  repeat (destruct I as [<- | I]; [break_match_of De; simpl; assumption|]).
  contradiction.
Qed.

Lemma extract_author_year_from_reference_year (t y : str) :
  snd (extract_author_year_from_reference t) = Some y -> length y = 4%nat.
Proof. unfold extract_author_year_from_reference. simpl. apply first_year_length. Qed.

Lemma total_score_year (author cyear : str) (ref : entry) (s : float)
    (ry : option str) :
  total_score author cyear ref = Some (s, ry) ->
  ry = snd (extract_author_year_from_reference (text ref)).
Proof.
  unfold total_score.
  destruct (extract_author_year_from_reference (text ref)) as [[a|] y]; [|discriminate].
  destruct (negb (truthy (Some a))); [discriminate|].
  intros H. now injection H as _ <-.
Qed.

(** C4: for a matched citation, when the year extracted from the matched
    reference differs from the cited year, the corrected citation is the
    citation's author followed by that year between full-width parentheses;
    otherwise, and so whenever the two years are equal, it is the
    citation's own text. *)
Theorem corrected_citation_year (citation author cyear : str)
    (references : list entry) (m : mapping) :
  extract_author_year_from_citation citation = (Some author, Some cyear) ->
  map_author_year_citation_to_reference citation references = Some m ->
  let ref_year := snd (extract_author_year_from_reference (text (reference m))) in
  (forall ryear, ref_year = Some ryear -> ryear <> cyear ->
     corrected_citation m = author ++ [lparen_fw] ++ ryear ++ [rparen_fw]) /\
  (ref_year = Some cyear \/ ref_year = None -> corrected_citation m = citation) /\
  original_citation m = citation.
Proof.
  intros E H ref_year. subst ref_year.
  rewrite (map_after_loop citation author cyear references E) in H.
  destruct (fold_visit author cyear (enumerate references)
              {| best_match := None; best_score := f0_0; best_ref_year := None |} eq_refl)
    as [[Eb A] | (p & x & s & ry & Hp & T & Eb & G & B & A)];
    rewrite Eb in H; simpl in H; [discriminate|].
  destruct x as [id ref]. destruct (gtb s f0_3); [|discriminate].
  injection H as <-. cbn [corrected_citation original_citation reference].
  apply total_score_year in T. cbn [snd] in T. rewrite <- T.
  assert (L : forall y, ry = Some y -> truthy (Some y) = true).
  { intros y Hy. rewrite T in Hy.
    apply extract_author_year_from_reference_year in Hy.
    destruct y; [discriminate | reflexivity]. }
  clear T. destruct ry as [ryear|].
  - rewrite (L ryear eq_refl). cbn [andb].
    destruct (str_eqb ryear cyear) eqn:Q; cbn [negb].
    + apply str_eqb_eq in Q. subst ryear. repeat split.
      intros y Hy N. injection Hy as <-. congruence.
    + apply str_eqb_neq in Q. repeat split.
      * intros y Hy N. now injection Hy as <-.
      * intros [Hy | Hy]; [injection Hy as ->; congruence | discriminate].
  - repeat split. intros y Hy. discriminate.
Qed.

(** C2, as amended (the reference text is case-folded, not stripped; the
    reference year is absent or not empty): with the citation author, the
    reference text and the reference
    author case-folded (the two authors also stripped), the author score is
    1.0 when the authors are equal; else 0.9 when one occurs in the other;
    else, when the citation author occurs in the reference text, 0.8, 0.6 or
    0.4 as its first occurrence is before index 100, before index 200 or
    later; else the similarity ratio of the two authors times 0.5.  The year
    score is 1.0 when the cited year is the year extracted from the
    reference, 0.9 when the two are an OCR-confusable pair, 0.8 when the
    cited year occurs in the reference text, and 0.0 otherwise. *)
Theorem score_tiers (citation_author reference_text ref_author citation_year : str)
    (ref_year : option str) :
  let a := lower (strip citation_author) in
  let t := lower reference_text in
  let r := lower (strip ref_author) in
  let author_score :=
    calculate_author_match_score citation_author reference_text ref_author in
  let year_score :=
    calculate_year_match_score citation_year reference_text ref_year in
  (a = r -> author_score = f1_0) /\
  (a <> r -> ReSpec.substring a r \/ ReSpec.substring r a -> author_score = f0_9) /\
  (a <> r -> ~ ReSpec.substring a r -> ~ ReSpec.substring r a ->
   forall p, ReSpec.first_occurrence a t p ->
     ((p < 100)%nat -> author_score = f0_8) /\
     ((100 <= p < 200)%nat -> author_score = f0_6) /\
     ((200 <= p)%nat -> author_score = f0_4)) /\
  (a <> r -> ~ ReSpec.substring a r -> ~ ReSpec.substring r a ->
   ~ ReSpec.substring a t -> author_score = mul (ratio a r) f0_5) /\
  (ref_year <> Some [] ->
   (ref_year = Some citation_year -> year_score = f1_0) /\
   (forall y, ref_year = Some y -> y <> citation_year ->
      is_ocr_error citation_year y = true -> year_score = f0_9) /\
   (ref_year = None \/
    (exists y, ref_year = Some y /\ y <> citation_year /\
               is_ocr_error citation_year y = false) ->
    (ReSpec.substring citation_year reference_text -> year_score = f0_8) /\
    (~ ReSpec.substring citation_year reference_text -> year_score = f0_0))).
Proof.
  intros a t r author_score year_score.
  subst author_score year_score.
  unfold calculate_author_match_score, calculate_year_match_score.
  fold a t r.
  pose proof (str_eqb_eq a r) as Eq.
  pose proof (PyFacts.contains_iff a r) as Car.
  pose proof (PyFacts.contains_iff r a) as Cra.
  pose proof (PyFacts.contains_iff a t) as Cat.
  pose proof (PyFacts.contains_iff citation_year reference_text) as Cy.
  split; [|split; [|split; [|split; [|intros Hne; split; [|split; [|intros Hcase; split]]]]]].
  - intros H. apply Eq in H. now rewrite H.
  - intros N [H|H]; destruct (str_eqb a r); try (exfalso; apply N, Eq; reflexivity).
    + apply Car in H. now rewrite H.
    + apply Cra in H. rewrite H. now rewrite orb_true_r.
  - intros N Nar Nra p Hp.
    destruct (str_eqb a r); [exfalso; apply N, Eq; reflexivity|].
    destruct (contains a r); [exfalso; apply Nar, Car; reflexivity|].
    destruct (contains r a); [exfalso; apply Nra, Cra; reflexivity|].
    assert (C : contains a t = true).
    { apply Cat. destruct Hp as [(pre & post & E & _) _]. now exists pre, post. }
    rewrite C. cbn [orb].
    destruct (PyFacts.find_spec t a C) as (q & -> & Fq).
    rewrite (PyFacts.first_occurrence_unique _ _ _ _ Fq Hp).
    split; [|split]; intros Hlt.
    + destruct (Z.ltb_spec (Z.of_nat p) 100); [reflexivity | lia].
    + destruct (Z.ltb_spec (Z.of_nat p) 100); [lia|].
      destruct (Z.ltb_spec (Z.of_nat p) 200); [reflexivity | lia].
    + destruct (Z.ltb_spec (Z.of_nat p) 100); [lia|].
      destruct (Z.ltb_spec (Z.of_nat p) 200); [lia | reflexivity].
  - intros N Nar Nra Nat.
    destruct (str_eqb a r); [exfalso; apply N, Eq; reflexivity|].
    destruct (contains a r); [exfalso; apply Nar, Car; reflexivity|].
    destruct (contains r a); [exfalso; apply Nra, Cra; reflexivity|].
    destruct (contains a t); [exfalso; apply Nat, Cat; reflexivity|].
    reflexivity.
  - intros ->. destruct citation_year as [|c y]; [exfalso; apply Hne; reflexivity|].
    cbn [truthy eq_opt andb]. now rewrite str_eqb_refl.
  - intros y -> N O. destruct y as [|c y]; [exfalso; apply Hne; reflexivity|].
    cbn [truthy eq_opt andb]. rewrite O.
    assert (Q : str_eqb citation_year (c :: y) = false) by (apply str_eqb_neq; congruence).
    now rewrite Q.
  - intros S. apply Cy in S.
    destruct Hcase as [-> | (y & -> & N & O)].
    + cbn [truthy andb]. now rewrite S.
    + destruct y as [|c y]; [exfalso; apply Hne; reflexivity|].
      cbn [truthy eq_opt andb]. rewrite O.
      assert (Q : str_eqb citation_year (c :: y) = false) by (apply str_eqb_neq; congruence).
      now rewrite Q, S.
  - intros S.
    assert (S' : contains citation_year reference_text = false).
    { destruct (contains citation_year reference_text);
        [exfalso; apply S, Cy; reflexivity | reflexivity]. }
    destruct Hcase as [-> | (y & -> & N & O)].
    + cbn [truthy andb]. now rewrite S'.
    + destruct y as [|c y]; [exfalso; apply Hne; reflexivity|].
      cbn [truthy eq_opt andb]. rewrite O.
      assert (Q : str_eqb citation_year (c :: y) = false) by (apply str_eqb_neq; congruence).
      now rewrite Q, S'.
Qed.

End WithRuntime.
End MatcherFacts.

(** ** The scenarios *)

Module ScenarioFacts.
Import F64 ReferenceMapper MatcherSpec Scenarios.

(** C5, as amended: for "Smith（2O2O）" against "Smith, J. (2020)." the
    author extracted from the reference is the cited author, so the author
    score is 1.0 (equality), not 0.9; the years "2O2O" and "2020" are
    OCR-confusable and the year score is 0.9; the combined score is
    0.96 >= 0.9; the citation is matched to the reference and corrected to
    "Smith（2020）".  This holds whatever [difflib] computes. *)
Theorem smith_scenario (D : Difflib) :
  extract_author_year_from_citation smith_citation = (Some (u "Smith"), Some (u "2O2O")) /\
  extract_author_year_from_reference (text smith_reference)
    = (Some (u "Smith"), Some (u "2020")) /\
  calculate_author_match_score (u "Smith") (text smith_reference) (u "Smith") = f1_0 /\
  is_ocr_error (u "2O2O") (u "2020") = true /\
  calculate_year_match_score (u "2O2O") (text smith_reference) (Some (u "2020")) = f0_9 /\
  total_score (u "Smith") (u "2O2O") smith_reference
    = Some (decimal 96 2, Some (u "2020")) /\
  leb f0_9 (decimal 96 2) = true /\
  map_author_year_citation_to_reference smith_citation [smith_reference]
    = Some {| reference_id := 0; reference := smith_reference;
              corrected_citation := u "Smith（2020）";
              original_citation := smith_citation |}.
Proof. repeat split; vm_compute; reflexivity. Qed.

(** C5 as the specification words it gives the author score 0.9 (the
    substring tier); the score of the author that the reference parser
    extracts from "Smith, J. (2020)." is another. *)
Lemma smith_author_score_is_not_0_9 :
  exists ref_author ref_year,
    extract_author_year_from_reference (text smith_reference)
      = (Some ref_author, ref_year) /\
    calculate_author_match_score (u "Smith") (text smith_reference) ref_author <> f0_9.
Proof.
  exists (u "Smith"), (Some (u "2020")). split; [vm_compute; reflexivity|].
  intros H. vm_compute in H. discriminate H.
Qed.

(** C6: for "张三（2024）" against "张三，李四. 标题. 期刊, 2024." the author
    score, the year score and the combined score are 1.0, the citation is
    matched to the reference, and the citation formatted from the authors
    and the year of the reference is "张三 等（2024）". *)
Theorem zhang_scenario (D : Difflib) :
  extract_author_year_from_citation zhang_citation = (Some (u "张三"), Some (u "2024")) /\
  extract_author_year_from_reference (text zhang_reference)
    = (Some (u "张三"), Some (u "2024")) /\
  calculate_author_match_score (u "张三") (text zhang_reference) (u "张三") = f1_0 /\
  calculate_year_match_score (u "2024") (text zhang_reference) (Some (u "2024")) = f1_0 /\
  total_score (u "张三") (u "2024") zhang_reference = Some (f1_0, Some (u "2024")) /\
  map_author_year_citation_to_reference zhang_citation [zhang_reference]
    = Some {| reference_id := 0; reference := zhang_reference;
              corrected_citation := zhang_citation;
              original_citation := zhang_citation |} /\
  CitationExtractor.extract_authors_from_reference (text zhang_reference)
    = ([u "张三"; u "李四"], false) /\
  CitationFormatter.format_citation CitationFormatter.get_default_citation_format_config
    (fst (CitationExtractor.extract_authors_from_reference (text zhang_reference)))
    (u "2024")
    = u "张三 等（2024）".
Proof. repeat split; vm_compute; reflexivity. Qed.

(** C1 as worded takes the greatest combined score over all references.
    From "等, A. Smith (2020)." the reference parser extracts the empty
    author, and the loop passes over the reference: for "Smith（2020）" its
    author score is 0.9 and its year score 1.0, the combined score is
    above 0.3, and the citation stays unmatched. *)
Lemma passed_over_reference_is_not_matched :
  let ref := {| text := u "等, A. Smith (2020)."; year := None |} in
  extract_author_year_from_citation (u "Smith（2020）")
    = (Some (u "Smith"), Some (u "2020")) /\
  extract_author_year_from_reference (text ref) = (Some [], Some (u "2020")) /\
  calculate_author_match_score (u "Smith") (text ref) [] = f0_9 /\
  calculate_year_match_score (u "2020") (text ref) (Some (u "2020")) = f1_0 /\
  combined_score (u "Smith") (u "2020") ref = add (mul f0_9 f0_6) (mul f1_0 f0_4) /\
  gtb (combined_score (u "Smith") (u "2020") ref) f0_3 = true /\
  score (u "Smith") (u "2020") [ref] 0 = None /\
  map_author_year_citation_to_reference (u "Smith（2020）") [ref] = None.
Proof. repeat split; vm_compute; reflexivity. Qed.

(** C2 as worded compares the reference text stripped.  The code folds its
    case only: in a text that begins with a space, followed by 99 letters
    and the author, the author is first found at index 100, which gives
    0.6, while in the stripped text it is first found at index 99, which
    by the tiers gives 0.8. *)
Lemma unstripped_reference_text_scores_0_6 :
  let t := u " " ++ repeat (ch "A") 99 ++ u "jones" in
  calculate_author_match_score (u "jones") t (u "zzz") = f0_6 /\
  ReSpec.first_occurrence (lower (strip (u "jones"))) (lower (strip t)) 99 /\
  calculate_author_match_score (u "jones") (strip t) (u "zzz") = f0_8 /\
  f0_6 <> f0_8.
Proof.
  intros t.
  split; [vm_compute; reflexivity|]. split; [|split; [vm_compute; reflexivity|discriminate]].
  assert (C : contains (lower (strip (u "jones"))) (lower (strip t)) = true)
    by (vm_compute; reflexivity).
  destruct (PyFacts.find_spec _ _ C) as (p & E & F).
  assert (E' : find (lower (strip t)) (lower (strip (u "jones"))) = 99%Z)
    by (vm_compute; reflexivity).
  rewrite E' in E. replace 99%nat with p by lia. exact F.
Qed.

(** ** Witnesses of the general statements, on the same scenarios *)

(** C1 on three references, the second and the third being the same line:
    the second is returned. *)
Lemma map_selects_first_maximum_witness :
  exists m s,
    map_author_year_citation_to_reference smith_citation
      [zhang_reference; smith_reference; smith_reference] = Some m /\
    reference_id m = 1%nat /\
    score (u "Smith") (u "2O2O") [zhang_reference; smith_reference; smith_reference] 1
      = Some s /\
    is_maximum (u "Smith") (u "2O2O") [zhang_reference; smith_reference; smith_reference] s /\
    map_author_year_citation_to_reference (u "Smith 2020") [smith_reference] = None.
Proof.
  pose (refs := [zhang_reference; smith_reference; smith_reference]).
  destruct (MatcherFacts.map_selects_first_maximum smith_citation refs) as (_ & _ & _ & H).
  destruct (H (u "Smith") (u "2O2O") ltac:(vm_compute; reflexivity)) as [_ H2].
  destruct (MatcherFacts.map_selects_first_maximum (u "Smith 2020") [smith_reference])
    as (_ & _ & H0 & _).
  assert (E : exists m, map_author_year_citation_to_reference smith_citation refs = Some m
                        /\ reference_id m = 1%nat).
  { eexists. split; [vm_compute; reflexivity | reflexivity]. }
  destruct E as (m & Em & Id).
  destruct (H2 m Em) as (_ & s & Hs & Hmax & _).
  exists m, s. rewrite Id in Hs.
  split; [exact Em|]. split; [exact Id|]. split; [exact Hs|]. split; [exact Hmax|].
  apply H0. vm_compute. reflexivity.
Defined.

(** C4 on the citation "Smith（2O2O）": the year is corrected to 2020. *)
Lemma corrected_citation_year_witness :
  exists m,
    map_author_year_citation_to_reference smith_citation [smith_reference] = Some m /\
    corrected_citation m = u "Smith（2020）" /\
    original_citation m = smith_citation.
Proof.
  assert (E : exists m,
             map_author_year_citation_to_reference smith_citation [smith_reference] = Some m
             /\ snd (extract_author_year_from_reference (text (reference m)))
                = Some (u "2020")).
  { eexists. split; vm_compute; reflexivity. }
  destruct E as (m & Em & Ey).
  destruct (MatcherFacts.corrected_citation_year smith_citation (u "Smith") (u "2O2O")
              [smith_reference] m ltac:(vm_compute; reflexivity) Em) as (H1 & _ & H3).
  exists m. split; [exact Em|]. split; [|exact H3].
  rewrite (H1 (u "2020") Ey); [vm_compute; reflexivity|].
  vm_compute. discriminate.
Defined.

(** C2 on " SMITH " against the reference author "Smithson", and on two
    year scores. *)
Lemma score_tiers_witness :
  calculate_author_match_score (u " SMITH ") (u "Smithson, J. (2020).") (u "Smithson") = f0_9 /\
  calculate_year_match_score (u "2O2O") (u "Smithson, J. (2020).") (Some (u "2020")) = f0_9 /\
  calculate_year_match_score (u "2020") (u "Smithson, J. (2020).") None = f0_8.
Proof.
  pose proof (MatcherFacts.score_tiers (u " SMITH ") (u "Smithson, J. (2020).")
                (u "Smithson") (u "2O2O") (Some (u "2020")))
    as (_ & H09 & _ & _ & Hy).
  pose proof (MatcherFacts.score_tiers (u " SMITH ") (u "Smithson, J. (2020).")
                (u "Smithson") (u "2020") None)
    as (_ & _ & _ & _ & Hn).
  split; [|split].
  - apply H09; [vm_compute; discriminate|].
    left. exists [], (u "son"). vm_compute. reflexivity.
  - destruct (Hy ltac:(discriminate)) as (_ & Ho & _).
    apply (Ho (u "2020")); [reflexivity | vm_compute; discriminate | vm_compute; reflexivity].
  - destruct (Hn ltac:(discriminate)) as (_ & _ & Hs).
    destruct (Hs (or_introl eq_refl)) as [H8 _].
    apply H8. exists (u "Smithson, J. ("), (u ")."). vm_compute. reflexivity.
Defined.

End ScenarioFacts.

(** ** The formatter and institutional authors *)

Module FormatterFacts.
Import CitationFormatter.

(** For one author without a CJK character, the test for institutional
    authors changes nothing: the surname taken from the name is printed,
    whichever way the test goes. *)
Lemma single_author_format {U : Unicode} (author year : str) :
  _contains_chinese author = false ->
  _format_chinese_academy_of_sciences [author] year
  = _extract_surname author ++ lp ++ year ++ rp.
Proof.
  intros H. unfold _format_chinese_academy_of_sciences, format_surnames. rewrite H. simpl.
  destruct ((2 <? length (words (_extract_surname author)))%nat
            || isupper (_extract_surname author)); reflexivity.
Qed.

(** C7 at the failing inputs: an organisation of three words and one in
    capitals, each the only author of its list, are printed as their last
    word. *)
Theorem institutional_author_is_cut :
  length (words (u "World Health Organization")) = 3%nat /\
  _format_chinese_academy_of_sciences [u "World Health Organization"] (u "2020")
    = u "Organization（2020）" /\
  isupper (u "UNITED NATIONS") = true /\
  _format_chinese_academy_of_sciences [u "UNITED NATIONS"] (u "2020")
    = u "NATIONS（2020）".
Proof. repeat split; vm_compute; reflexivity. Qed.

End FormatterFacts.

(** ** Objects that are not strings *)

Module DynamicFacts.
Import Builtins AuthorSimilarity.



End DynamicFacts.

(** ** The report of unused references *)

Module AnalyzerFacts.
Import ReferenceMapper CitationAnalyzer Scenarios.

Section WithRuntime.
Context {U : Unicode} {D : Difflib}.

Lemma find_numeric_position (citation : str) (refs : list (nat * entry)) (m : mapping) :
  find_numeric citation refs = Some m -> In (reference_id m, reference m) refs.
Proof.
  induction refs as [|[id ref] l IH]; simpl; [discriminate|].
  destruct (Re.search numeric_label_re (text ref)) as [rm|].
  - destruct (str_eqb _ citation).
    + intros H. injection H as <-. simpl. now left.
    + intros H. right. now apply IH.
  - intros H. right. now apply IH.
Qed.

(** The reference a result holds is the entry of the list at the position
    the result names. *)
Lemma map_citation_position (references : list entry) (citation : str) (r : outcome) :
  map_citation references citation = Some r ->
  nth_error references (reference_id (om r)) = Some (reference (om r)).
Proof.
  unfold map_citation.
  destruct (startswith (u "[AUTH:]") citation).
  - set (actual := if startswith (u "[AUTH:") citation then _ else _).
    destruct (map_author_year_citation_to_reference actual references) as [m|] eqn:E;
      [|discriminate].
    destruct (CitationExtractor.extract_authors_from_reference _) as [a h].
    intros H. injection H as <-. simpl.
    now apply MatcherFacts.map_position in E.
  - destruct (find_numeric citation (enumerate references)) as [m|] eqn:E; [|discriminate].
    intros H. injection H as <-. simpl.
    apply find_numeric_position in E. apply In_nth_error in E. destruct E as [p Hp].
    apply MatcherFacts.nth_error_enumerate in Hp. simpl in Hp. now destruct Hp as [-> Hp].
Qed.

(** What the report lists: the entries whose text is the text of no
    matched reference. *)
Lemma unused_references_by_text (citations : list str) (references : list entry)
    (i : nat) (ref : entry) :
  let rep := report_of citations references in
  In (i, ref) (unused_references rep) <->
  nth_error references i = Some ref /\
  forall r, In r (all_mapping_results rep) -> text (reference (om r)) <> text ref.
Proof.
  intros rep. subst rep. unfold report_of. cbn [unused_references all_mapping_results].
  set (results := flat_map _ _).
  rewrite filter_In. unfold unused. cbn [snd].
  assert (N : In (i, ref) (enumerate references) <-> nth_error references i = Some ref).
  { split.
    - intros H. apply In_nth_error in H. destruct H as [p Hp].
      apply MatcherFacts.nth_error_enumerate in Hp. simpl in Hp. now destruct Hp as [-> Hp].
    - intros H. apply (nth_error_In _ i). now apply MatcherFacts.nth_error_enumerate. }
  rewrite N. apply and_iff_compat_l.
  rewrite negb_true_iff. split.
  - intros H r Hr E.
    assert (X : existsb (str_eqb (text ref))
                  (List.map (fun result => text (reference (om result))) results) = true).
    { apply existsb_exists. exists (text (reference (om r))). split.
      - apply (in_map (fun x => text (reference (om x)))). exact Hr.
      - rewrite E. apply str_eqb_refl. }
    congruence.
  - intros H. destruct (existsb _ _) eqn:X; [|reflexivity].
    apply existsb_exists in X. destruct X as (t & Ht & Et).
    apply in_map_iff in Ht. destruct Ht as (r & <- & Hr).
    apply str_eqb_eq in Et. elim (H r Hr). now symmetry.
Qed.

(** A reference some citation selected is never reported unused. *)
Lemma selected_is_not_unused (citations : list str) (references : list entry)
    (i : nat) (ref : entry) :
  let rep := report_of citations references in
  selected rep i -> ~ In (i, ref) (unused_references rep).
Proof.
  intros rep (r & Hr & Ei) Hu.
  apply unused_references_by_text in Hu. destruct Hu as [Hn Ht].
  apply (Ht r Hr).
  assert (P : nth_error references (reference_id (om r)) = Some (reference (om r))).
  { unfold rep, report_of in Hr. cbn [all_mapping_results] in Hr.
    apply in_flat_map in Hr. destruct Hr as (o & Ho & Hin).
    apply in_map_iff in Ho. destruct Ho as (c & <- & _).
    destruct (map_citation references c) as [x|] eqn:E; [|contradiction].
    destruct Hin as [<- | []]. now apply map_citation_position in E. }
  rewrite Ei, Hn in P. now injection P as <-.
Qed.

End WithRuntime.

(** The test that sends a citation to the mapper reads "[AUTH:]", with the
    closing bracket, while the marker is "[AUTH:" followed by the citation
    and "]": the citation "[AUTH:张三（2024）]" is looked up as a numbered
    label and stays unmatched, although the mapper matches its text. *)
Lemma auth_marker_is_not_mapped :
  map_citation [zhang_reference] (u "[AUTH:张三（2024）]") = None /\
  map_author_year_citation_to_reference zhang_citation [zhang_reference] <> None.
Proof. split; [vm_compute; reflexivity | vm_compute; discriminate]. Qed.

End AnalyzerFacts.

(* ================================================================== *)
(** * Further properties of the code *)
(* ================================================================== *)

(** ** The OCR detector sees normalised years only *)

Module OcrMoreFacts.
Import Ocr OcrMore.

Lemma normalize_char_cases (c : char) :
  In c (List.map fst ocr_to_digit) \/ normalize_char c = c.
Proof.
  destruct (in_dec N.eq_dec c (List.map fst ocr_to_digit)) as [I|NI]; [now left|].
  right. unfold normalize_char. now rewrite (OcrFacts.lookup_notin _ _ NI).
Qed.

(** A normalised character is none of the letters of [ocr_to_digit]. *)
Lemma normalize_char_no_letter (c : char) :
  ~ In (normalize_char c) (List.map fst ocr_to_digit).
Proof.
  destruct (normalize_char_cases c) as [I|E].
  - simpl in I. repeat (destruct I as [<-|I]; [vm_compute; intuition discriminate|]).
    contradiction.
  - rewrite E. intros I. simpl in I.
    repeat (destruct I as [<-|I]; [vm_compute in E; discriminate E|]). contradiction.
Qed.

Lemma normalize_char_idempotent (c : char) :
  normalize_char (normalize_char c) = normalize_char c.
Proof.
  destruct (normalize_char_cases (normalize_char c)) as [I|E]; [|exact E].
  elim (normalize_char_no_letter c I).
Qed.

Lemma normalize_year_idempotent (year : str) :
  normalize_year (normalize_year year) = normalize_year year.
Proof.
  unfold normalize_year. rewrite map_map. apply map_ext.
  intros c. apply normalize_char_idempotent.
Qed.

Lemma normalize_year_length (year : str) :
  length (normalize_year year) = length year.
Proof. unfold normalize_year. apply length_map. Qed.

(** X1: the verdict on two years is the verdict on their normalised forms:
    writing the digit for an OCR letter in either year changes nothing. *)
Theorem is_ocr_error_normalized (year1 year2 : str) :
  is_ocr_error year1 year2 = is_ocr_error (normalize_year year1) (normalize_year year2).
Proof.
  unfold is_ocr_error.
  rewrite !normalize_year_idempotent, !normalize_year_length. reflexivity.
Qed.

Lemma swapped_letter (x x2 y y2 d l : char) :
  x <> l -> y <> l -> swapped x x2 y y2 (d, l) = false.
Proof.
  intros Hx Hy. unfold swapped.
  apply N.eqb_neq in Hx. apply N.eqb_neq in Hy. rewrite Hx, Hy.
  now rewrite andb_false_r.
Qed.

(** On characters that are no letters of [ocr_to_digit], only the four
    entries of [ocr_errors] made of digits can succeed. *)
Lemma existsb_digit_pairs (x x2 y y2 : char) :
  ~ In x (List.map fst ocr_to_digit) -> ~ In y (List.map fst ocr_to_digit) ->
  existsb (swapped x x2 y y2) ocr_errors = existsb (swapped x x2 y y2) digit_pairs.
Proof.
  intros Hx Hy.
  assert (K : forall d l, In l (List.map fst ocr_to_digit) ->
                          swapped x x2 y y2 (d, l) = false).
  { intros d l I. apply swapped_letter; intros ->; contradiction. }
  unfold ocr_errors, digit_pairs. cbn [existsb].
  rewrite !K by (simpl; tauto). reflexivity.
Qed.

Lemma swapped_transposed (n1 n2 : str) (p q : nat) (e : char * char) :
  swapped (at_ n1 p) (at_ n1 q) (at_ n2 p) (at_ n2 q) e = true <->
  transposed n1 n2 p q e.
Proof.
  destruct e as [e1 e2]. unfold swapped, transposed. simpl.
  rewrite orb_true_iff, !andb_true_iff, !N.eqb_eq. tauto.
Qed.

Ltac positions Hd :=
  let R := fresh "R" in let H := fresh "H" in
  destruct Hd as [R H];
  pose proof (H 0%nat ltac:(lia)) as H0;
  pose proof (H 1%nat ltac:(lia)) as H1;
  pose proof (H 2%nat ltac:(lia)) as H2;
  pose proof (H 3%nat ltac:(lia)) as H3;
  unfold at_ in H0, H1, H2, H3; simpl in H0, H1, H2, H3.

(** The detector on two normalised strings that differ at two places. *)
Lemma is_ocr_error_two (year1 year2 : str) (a b c d a' b' c' d' : char) :
  length year1 = 4%nat -> length year2 = 4%nat ->
  normalize_year year1 = [a; b; c; d] ->
  normalize_year year2 = [a'; b'; c'; d'] ->
  (forall x, In x [a; b; c; d; a'; b'; c'; d'] ->
             ~ In x (List.map fst ocr_to_digit)) ->
  let n1 := [a; b; c; d] in
  let n2 := [a'; b'; c'; d'] in
  hamming n1 n2 = 2%nat ->
  (is_ocr_error year1 year2 = true <->
   exists p q e, In e digit_pairs /\ differ_exactly_at n1 n2 p q /\
                 transposed n1 n2 p q e).
Proof.
  intros L1 L2 N1 N2 NL n1 n2. subst n1 n2.
  unfold is_ocr_error. rewrite L1, L2, N1, N2. cbn [Nat.eqb negb orb].
  unfold differ, at_. cbn [str_eqb hamming seq fold_left filter nth].
  destruct (N.eqb_spec a a') as [Ea|Ea], (N.eqb_spec b b') as [Eb|Eb],
           (N.eqb_spec c c') as [Ec|Ec], (N.eqb_spec d d') as [Ed|Ed];
    cbn [andb negb Nat.eqb Nat.add nth];
    intros E; try discriminate E;
    (rewrite existsb_digit_pairs by (apply NL; simpl; tauto));
    (split;
     [ intros X; apply existsb_exists in X; destruct X as [e [I X]]
     | intros (p & q & e & I & Hd & T); positions Hd ]).
  - exists 2%nat, 3%nat, e. split; [exact I|]. split; [OcrFacts.solve_at|].
    apply swapped_transposed. exact X.
  - assert (p = 2 /\ q = 3)%nat as [-> ->] by (clear T; intuition lia).
    apply existsb_exists. exists e. split; [exact I|].
    apply (proj2 (swapped_transposed [a; b; c; d] [a'; b'; c'; d'] 2 3 e) T).
  - exists 1%nat, 3%nat, e. split; [exact I|]. split; [OcrFacts.solve_at|].
    apply swapped_transposed. exact X.
  - assert (p = 1 /\ q = 3)%nat as [-> ->] by (clear T; intuition lia).
    apply existsb_exists. exists e. split; [exact I|].
    apply (proj2 (swapped_transposed [a; b; c; d] [a'; b'; c'; d'] 1 3 e) T).
  - exists 1%nat, 2%nat, e. split; [exact I|]. split; [OcrFacts.solve_at|].
    apply swapped_transposed. exact X.
  - assert (p = 1 /\ q = 2)%nat as [-> ->] by (clear T; intuition lia).
    apply existsb_exists. exists e. split; [exact I|].
    apply (proj2 (swapped_transposed [a; b; c; d] [a'; b'; c'; d'] 1 2 e) T).
  - exists 0%nat, 3%nat, e. split; [exact I|]. split; [OcrFacts.solve_at|].
    apply swapped_transposed. exact X.
  - assert (p = 0 /\ q = 3)%nat as [-> ->] by (clear T; intuition lia).
    apply existsb_exists. exists e. split; [exact I|].
    apply (proj2 (swapped_transposed [a; b; c; d] [a'; b'; c'; d'] 0 3 e) T).
  - exists 0%nat, 2%nat, e. split; [exact I|]. split; [OcrFacts.solve_at|].
    apply swapped_transposed. exact X.
  - assert (p = 0 /\ q = 2)%nat as [-> ->] by (clear T; intuition lia).
    apply existsb_exists. exists e. split; [exact I|].
    apply (proj2 (swapped_transposed [a; b; c; d] [a'; b'; c'; d'] 0 2 e) T).
  - exists 0%nat, 1%nat, e. split; [exact I|]. split; [OcrFacts.solve_at|].
    apply swapped_transposed. exact X.
  - assert (p = 0 /\ q = 1)%nat as [-> ->] by (clear T; intuition lia).
    apply existsb_exists. exists e. split; [exact I|].
    apply (proj2 (swapped_transposed [a; b; c; d] [a'; b'; c'; d'] 0 1 e) T).
Qed.

(** X2: when two four-character years differ at exactly two places once
    normalised, they are confusable exactly when the two places hold the two
    digits of one of the pairs 1/7, 2/7, 2/1, 0/8 in exchanged order; the
    entries of the confusion table that contain a letter never apply. *)
Theorem is_ocr_error_two_differences (year1 year2 : str) :
  length year1 = 4%nat -> length year2 = 4%nat ->
  let n1 := normalize_year year1 in
  let n2 := normalize_year year2 in
  hamming n1 n2 = 2%nat ->
  (is_ocr_error year1 year2 = true <->
   exists p q e, In e digit_pairs /\ differ_exactly_at n1 n2 p q /\
                 transposed n1 n2 p q e).
Proof.
  intros L1 L2 n1 n2.
  destruct (OcrFacts.four_chars year1 L1) as (x1 & x2 & x3 & x4 & ->).
  destruct (OcrFacts.four_chars year2 L2) as (y1 & y2 & y3 & y4 & ->).
  subst n1 n2. cbn [normalize_year List.map].
  apply (is_ocr_error_two [x1; x2; x3; x4] [y1; y2; y3; y4]);
    try reflexivity.
  intros x I. simpl in I.
  repeat (destruct I as [<-|I]; [apply normalize_char_no_letter|]).
  contradiction.
Qed.

(** X2 on a transposition of 1 and 7 read with a letter O, and on two
    years whose two differences are no transposition. *)
Lemma is_ocr_error_two_differences_witness :
  is_ocr_error (u "2O17") (u "2071") = true /\
  ~ (exists p q e, In e digit_pairs /\
       differ_exactly_at (normalize_year (u "2011")) (normalize_year (u "2077")) p q /\
       transposed (normalize_year (u "2011")) (normalize_year (u "2077")) p q e).
Proof.
  split.
  - apply (is_ocr_error_two_differences (u "2O17") (u "2071")); try reflexivity.
    exists 2%nat, 3%nat, (ch "1", ch "7").
    split; [simpl; tauto|]. split; [|left; repeat split].
    split; [lia|]. intros i Hi.
    destruct i as [|[|[|[|i]]]]; [ | | | | lia]; vm_compute;
      intuition (try lia; try discriminate).
  - intros H.
    apply (is_ocr_error_two_differences (u "2011") (u "2077")) in H;
      try reflexivity.
    vm_compute in H. discriminate H.
Defined.

End OcrMoreFacts.

(** ** A found author is enough for a match *)

Module MatcherMoreFacts.
Import F64 F64Facts ReferenceMapper MatcherSpec MatcherMore.

Section WithRuntime.
Context {U : Unicode} {D : Difflib}.

Lemma found_author_score (author cyear : str) (ref : entry) (a : str) :
  fst (extract_author_year_from_reference (text ref)) = Some a -> a <> [] ->
  author_found author (text ref) a = true ->
  exists s ry, total_score author cyear ref = Some (s, ry) /\ gtb s f0_3 = true.
Proof.
  intros Ha Na Hf. unfold total_score.
  destruct (extract_author_year_from_reference (text ref)) as [oa ry].
  simpl in Ha. subst oa.
  assert (T : truthy (Some a) = true) by (destruct a; [congruence | reflexivity]).
  rewrite T. cbn [negb]. eexists. exists ry. split; [reflexivity|].
  unfold author_found in Hf. unfold calculate_author_match_score.
  set (ca := lower (strip author)) in *. set (ra := lower (strip a)) in *.
  set (t := lower (text ref)) in *.
  assert (Y : forall x, In x [f1_0; f0_9; f0_8; f0_6] ->
              gtb (add (mul x f0_6)
                     (mul (calculate_year_match_score cyear (text ref) ry) f0_4))
                f0_3 = true).
  { intros x Hx. unfold calculate_year_match_score.
    repeat match goal with |- context [if ?b then _ else _] => destruct b end;
      simpl in Hx; repeat (destruct Hx as [<-|Hx]; [vm_compute; reflexivity|]);
      contradiction. }
  destruct (str_eqb ca ra); [apply Y; simpl; tauto|].
  destruct (contains ca ra || contains ra ca) eqn:C; [apply Y; simpl; tauto|].
  apply orb_false_iff in C. destruct C as [C1 C2].
  rewrite C1, C2 in Hf. cbn [orb] in Hf.
  apply andb_true_iff in Hf. destruct Hf as [Ht Hp]. rewrite Ht.
  destruct (find t ca <? 100)%Z; [apply Y; simpl; tauto|].
  rewrite Hp. apply Y. simpl. tauto.
Qed.

(** X3: when the cited author is found in a reference from which an author
    is extracted, the citation is matched to some reference whatever the
    years are: the author part of the score alone is above the threshold
    0.3. *)
Theorem found_author_is_matched (citation author cyear : str)
    (references : list entry) (j : nat) (ref : entry) (a : str) :
  extract_author_year_from_citation citation = (Some author, Some cyear) ->
  nth_error references j = Some ref ->
  fst (extract_author_year_from_reference (text ref)) = Some a -> a <> [] ->
  author_found author (text ref) a = true ->
  exists m, map_author_year_citation_to_reference citation references = Some m.
Proof.
  intros E Hj Ha Na Hf.
  destruct (found_author_score author cyear ref a Ha Na Hf) as (s & ry & T & G).
  pose proof (MatcherFacts.total_score_number _ _ _ _ _ T) as Ns.
  rewrite (MatcherFacts.map_after_loop citation author cyear references E).
  assert (Hx : nth_error (enumerate references) j = Some (j, ref))
    by now apply MatcherFacts.nth_error_enumerate.
  destruct (MatcherFacts.fold_visit author cyear (enumerate references)
              {| best_match := None; best_score := f0_0; best_ref_year := None |} eq_refl)
    as [[Eb A] | (p & x & s1 & ry1 & Hp & T1 & Eb & G1 & B & A)]; rewrite Eb; simpl.
  - exfalso. pose proof (A j (j, ref) s ry Hx T) as L. simpl in L.
    assert (X : gtb s f0_0 = true).
    { eapply gtb_trans; [| | | exact G | reflexivity]; auto. }
    congruence.
  - pose proof (MatcherFacts.total_score_number _ _ _ _ _ T1) as Ns1.
    pose proof (A j (j, ref) s ry Hx T) as L.
    assert (X : gtb s1 f0_3 = true).
    { eapply gtb_le_trans; [| | | exact G | exact L]; auto. }
    destruct x as [id r1]. rewrite X. eauto.
Qed.

End WithRuntime.

(** X3 on a citation whose year, 1850, has nothing in common with the
    reference: the citation is matched, and corrected to the reference's
    year. *)
Lemma found_author_is_matched_witness :
  exists m,
    map_author_year_citation_to_reference (u "Smith（1850）") [Scenarios.smith_reference]
      = Some m /\
    corrected_citation m = u "Smith（2020）".
Proof.
  destruct (found_author_is_matched (u "Smith（1850）") (u "Smith") (u "1850")
              [Scenarios.smith_reference] 0 Scenarios.smith_reference (u "Smith")
              ltac:(vm_compute; reflexivity) eq_refl
              ltac:(vm_compute; reflexivity) ltac:(discriminate)
              ltac:(vm_compute; reflexivity)) as [m Hm].
  exists m. split; [exact Hm|].
  assert (E : option_map corrected_citation
                (map_author_year_citation_to_reference (u "Smith（1850）")
                   [Scenarios.smith_reference]) = Some (u "Smith（2020）"))
    by (vm_compute; reflexivity).
  rewrite Hm in E. simpl in E. now injection E.
Defined.

End MatcherMoreFacts.

(** ** The citation parser: what it accepts and what it gives back *)

Module ParserMoreFacts.
Import Re ReSpec ReFacts PyFacts ReferenceMapper.

(** A match of the full-width pattern: the text begins with a run of
    characters without a newline, the first group, followed by the year,
    the second group, between full-width parentheses. *)
Lemma fullwidth_match_shape (s : str) (m : match_) :
  search citation_re_fullwidth s = Some m ->
  exists g y rest,
    s = g ++ [lparen_fw] ++ y ++ [rparen_fw] ++ rest /\
    g <> [] /\ forallb dot g = true /\
    length y = 4%nat /\ forallb ocr_year_char y = true /\
    group m 1 = g /\ group m 2 = y.
Proof.
  intros H. apply search_sound in H.
  destruct H as (pre & w & rest & -> & De). unfold group. simpl in De.
  destruct De as (w0 & wa & c0 & -> & (-> & Z & ->) & De).
  destruct De as (w1 & wb & c1 & -> & (c1' & (L1 & F1 & ->) & ->) & De).
  destruct De as (w2 & wc & c2 & -> & (x & -> & X & ->) & De).
  destruct De as (w3 & wd & c3 & -> & (c3' & (L3 & F3 & ->) & ->) & (y & -> & Y & ->)).
  apply length_zero_iff_nil in Z. subst pre.
  apply N.eqb_eq in X. apply N.eqb_eq in Y. subst x y. simpl.
  exists w1, w3, rest.
  split; [rewrite <- ?app_assoc; simpl; rewrite <- ?app_assoc; reflexivity|].
  split; [intros ->; simpl in L1; lia|]. repeat split; auto.
Qed.

(** A match of the Latin pattern: as above, with white space allowed
    before the parenthesis. *)
Lemma latin_match_shape (s : str) (m : match_) :
  search citation_re_latin s = Some m ->
  exists g sp y rest,
    s = g ++ sp ++ [ch "("] ++ y ++ [ch ")"] ++ rest /\
    g <> [] /\ forallb dot g = true /\ forallb isspace sp = true /\
    length y = 4%nat /\ forallb ocr_year_char y = true /\
    group m 1 = g /\ group m 2 = y.
Proof.
  intros H. apply search_sound in H.
  destruct H as (pre & w & rest & -> & De). unfold group. simpl in De.
  destruct De as (w0 & wa & c0 & -> & (-> & Z & ->) & De).
  destruct De as (w1 & wb & c1 & -> & (c1' & (L1 & F1 & ->) & ->) & De).
  destruct De as (ws & wb' & cs & -> & (_ & Fs & ->) & De).
  destruct De as (w2 & wc & c2 & -> & (x & -> & X & ->) & De).
  destruct De as (w3 & wd & c3 & -> & (c3' & (L3 & F3 & ->) & ->) & (y & -> & Y & ->)).
  apply length_zero_iff_nil in Z. subst pre.
  apply N.eqb_eq in X. apply N.eqb_eq in Y. subst x y. simpl.
  exists w1, ws, w3, rest.
  split; [rewrite <- ?app_assoc; simpl; rewrite <- ?app_assoc; reflexivity|].
  split; [intros ->; simpl in L1; lia|]. repeat split; auto.
Qed.

(** X4: when the parser answers, the stripped citation begins with a text
    without a newline whose stripped form is the author, not empty,
    followed by the year, four characters of the OCR-tolerant alphabet,
    between full-width parentheses, or, after optional white space, between
    Latin parentheses. *)
Theorem extract_author_year_from_citation_sound (citation author cyear : str) :
  extract_author_year_from_citation citation = (Some author, Some cyear) ->
  exists g rest,
    author = strip g /\ author <> [] /\ forallb dot g = true /\
    length cyear = 4%nat /\ forallb ocr_year_char cyear = true /\
    (strip citation = g ++ [lparen_fw] ++ cyear ++ [rparen_fw] ++ rest \/
     exists sp, forallb isspace sp = true /\
       strip citation = g ++ sp ++ [ch "("] ++ cyear ++ [ch ")"] ++ rest).
Proof.
  unfold extract_author_year_from_citation. intros H.
  assert (Ne : forall g tail, g <> [] -> strip citation = g ++ tail -> strip g <> []).
  { intros g tail Ng E. destruct g as [|x g]; [congruence|].
    apply strip_cons_nonempty. apply (strip_head citation x (g ++ tail)). exact E. }
  destruct (search citation_re_fullwidth (strip citation)) as [m|] eqn:E1.
  - destruct (fullwidth_match_shape _ _ E1) as (g & y & rest & Es & Ng & Fg & Ly & Fy & G1 & G2).
    rewrite G1, G2 in H. injection H as <- <-.
    exists g, rest. repeat split; auto. eapply Ne; eauto.
  - destruct (search citation_re_latin (strip citation)) as [m|] eqn:E2; [|discriminate].
    destruct (latin_match_shape _ _ E2)
      as (g & sp & y & rest & Es & Ng & Fg & Fs & Ly & Fy & G1 & G2).
    rewrite G1, G2 in H. injection H as <- <-.
    exists g, rest. repeat split; auto; [eapply Ne; eauto|].
    right. now exists sp.
Qed.

(** X4 on the citation "Smith (2O2O)". *)
Lemma extract_author_year_from_citation_sound_witness :
  exists g rest,
    u "Smith" = strip g /\ forallb dot g = true /\
    exists sp, forallb isspace sp = true /\
      strip (u " Smith (2O2O), p. 3 ") = g ++ sp ++ [ch "("] ++ u "2O2O" ++ [ch ")"] ++ rest.
Proof.
  destruct (extract_author_year_from_citation_sound (u " Smith (2O2O), p. 3 ")
              (u "Smith") (u "2O2O") ltac:(vm_compute; reflexivity))
    as (g & rest & Ea & _ & Fg & _ & _ & [Es | (sp & Fs & Es)]).
  - exfalso.
    assert (X : existsb (N.eqb lparen_fw) (strip (u " Smith (2O2O), p. 3 ")) = true).
    { rewrite Es. rewrite existsb_app. simpl. now rewrite orb_true_r. }
    vm_compute in X. discriminate X.
  - exists g, rest. split; [exact Ea|]. split; [exact Fg|]. now exists sp.
Defined.

Lemma times_run (n : nat) (p : char -> bool) (w rest : str) :
  length w = n -> forallb p w = true -> times n p (w ++ rest) = Some rest.
Proof.
  revert n; induction w as [|x w IH]; intros n L F; simpl in L; subst n; simpl.
  - reflexivity.
  - simpl in F. apply andb_true_iff in F. destruct F as [Px F]. rewrite Px.
    now apply IH.
Qed.

(** Lazy repetition stops at the end of the run [w] when the rest of the
    pattern matches there and at no earlier place of [w]. *)
Lemma rep_lazy_first (min : nat) (p : char -> bool) (k : nat -> str -> outcome)
    (rest : str) (res : nat * caps) (w : str) :
  forall cnt i,
    forallb p w = true ->
    (forall j, (j < length w)%nat -> k (i + j)%nat (skipn j w ++ rest) = None) ->
    (min <= cnt + length w)%nat ->
    k (i + length w)%nat rest = Some res ->
    rep_lazy min p k cnt i (w ++ rest) = Some res.
Proof.
  induction w as [|x w IH]; intros cnt i F E L K; simpl in *.
  - rewrite Nat.add_0_r in K, L.
    assert (M : (min <=? cnt)%nat = true) by now apply Nat.leb_le.
    destruct rest as [|c rest]; simpl; rewrite M, K; reflexivity.
  - apply andb_true_iff in F. destruct F as [Px F].
    pose proof (E 0%nat ltac:(lia)) as E0. rewrite Nat.add_0_r in E0. simpl in E0.
    rewrite E0, Px.
    destruct (min <=? cnt)%nat; apply IH; auto.
    all: try lia.
    all: try (intros j Hj; replace (S i + j)%nat with (i + S j)%nat by lia;
              apply (E (S j)); lia).
    all: now replace (S i + length w)%nat with (i + S (length w))%nat by lia.
Qed.

(** The character at place [j] of [g], when [g] goes on with [tail]. *)
Lemma skipn_head (g tail : str) (j : nat) :
  (j < length g)%nat ->
  exists c t, skipn j g ++ tail = c :: t /\ In c g.
Proof.
  revert j; induction g as [|x g IH]; intros j Hj; simpl in Hj; [lia|].
  destruct j as [|j]; simpl.
  - exists x, (g ++ tail). split; [reflexivity | now left].
  - destruct (IH j ltac:(lia)) as (c & t & E & I). exists c, t. split; [exact E | now right].
Qed.

(** The full-width pattern finds the first group [g] and the year [y] in a
    text that begins with [g], the year between full-width parentheses
    after it, when [g] has no newline and no full-width left parenthesis. *)
Lemma fullwidth_match_complete (g y rest : str) :
  g <> [] ->
  forallb (fun c => dot c && negb (c =? lparen_fw)%N) g = true ->
  length y = 4%nat -> forallb ocr_year_char y = true ->
  exists m, search citation_re_fullwidth (g ++ [lparen_fw] ++ y ++ [rparen_fw] ++ rest)
            = Some m /\ group m 1 = g /\ group m 2 = y.
Proof.
  intros Ng Fg Ly Fy.
  set (s := g ++ [lparen_fw] ++ y ++ [rparen_fw] ++ rest).
  assert (Fd : forallb dot g = true).
  { rewrite forallb_forall in Fg |- *. intros c Hc.
    specialize (Fg c Hc). now apply andb_true_iff in Fg. }
  assert (E : at_index citation_re_fullwidth 0 s
              = Some {| m_start := 0; m_end := (length g + 6)%nat;
                        m_caps := [(2%nat, y); (1%nat, g)] |}).
  { unfold at_index, citation_re_fullwidth. cbn [seq_ exec Nat.eqb].
    rewrite (rep_lazy_first 1 dot _ ([lparen_fw] ++ y ++ [rparen_fw] ++ rest)
               ((length g + 6)%nat, [(2%nat, y); (1%nat, g)]) g 0 0 Fd).
    - reflexivity.
    - intros j Hj. destruct (skipn_head g ([lparen_fw] ++ y ++ [rparen_fw] ++ rest) j Hj)
        as (c & t & -> & I).
      rewrite forallb_forall in Fg. specialize (Fg c I).
      apply andb_true_iff in Fg. destruct Fg as [_ Fg]. apply negb_true_iff in Fg.
      unfold is_cp. now rewrite Fg.
    - destruct g; [congruence | simpl; lia].
    - cbn [app]. unfold is_cp at 1. rewrite N.eqb_refl.
      rewrite (times_run 4 ocr_year_char y (rparen_fw :: rest) Ly Fy).
      unfold is_cp. rewrite N.eqb_refl. unfold s.
      replace (S (0 + length g) + 4 - S (0 + length g))%nat with (length y) by lia.
      replace (0 + length g - 0)%nat with (length g) by lia.
      rewrite !firstn_app, !firstn_all, !Nat.sub_diag. cbn [firstn].
      rewrite !app_nil_r. repeat f_equal. lia. }
  exists {| m_start := 0; m_end := (length g + 6)%nat; m_caps := [(2%nat, y); (1%nat, g)] |}.
  split; [|split; reflexivity].
  unfold search. destruct s; cbn [search_from]; now rewrite E.
Qed.

(** X5: a citation whose stripped text begins with a text [g] that is not
    empty and holds no newline and no full-width left parenthesis,
    followed by four characters of the OCR-tolerant alphabet between
    full-width parentheses, is parsed into the stripped [g] and these four
    characters, whatever follows. *)
Theorem extract_author_year_from_citation_complete (citation g y rest : str) :
  strip citation = g ++ [lparen_fw] ++ y ++ [rparen_fw] ++ rest ->
  g <> [] ->
  forallb (fun c => dot c && negb (c =? lparen_fw)%N) g = true ->
  length y = 4%nat -> forallb ocr_year_char y = true ->
  extract_author_year_from_citation citation = (Some (strip g), Some y).
Proof.
  intros Es Ng Fg Ly Fy.
  destruct (fullwidth_match_complete g y rest Ng Fg Ly Fy) as (m & Em & G1 & G2).
  unfold extract_author_year_from_citation. now rewrite Es, Em, G1, G2.
Qed.

(** X5 on "Smith（2O2O）" followed by a page number. *)
Lemma extract_author_year_from_citation_complete_witness :
  extract_author_year_from_citation (u " Smith（2O2O）, p. 3")
  = (Some (u "Smith"), Some (u "2O2O")).
Proof.
  apply (extract_author_year_from_citation_complete (u " Smith（2O2O）, p. 3")
           (u "Smith") (u "2O2O") (u ", p. 3"));
    [reflexivity | discriminate | reflexivity | reflexivity | reflexivity].
Defined.

End ParserMoreFacts.

(** ** The checker built on the mapper *)

Module CheckerFacts.
Import F64 Re ReferenceMapper CitationAnalyzer CitationChecker.

Section WithRuntime.
Context {U : Unicode} {D : Difflib}.

Lemma count_split {A : Type} (l : list (option A)) :
  (length (flat_map (fun r => match r with Some x => [x] | None => [] end) l)
   + count (fun r => match r with None => true | Some _ => false end) l
   = length l)%nat.
Proof.
  unfold count. induction l as [|[x|] l IH]; simpl; lia.
Qed.

Lemma count_zero {A : Type} (p : A -> bool) (l : list A) :
  count p l = 0%nat <-> forall x, In x l -> p x = false.
Proof.
  unfold count. induction l as [|a l IH]; simpl.
  - split; [intros _ x [] | reflexivity].
  - destruct (p a) eqn:Pa; simpl.
    + split; [discriminate|]. intros H. specialize (H a (or_introl eq_refl)). congruence.
    + rewrite IH. split.
      * intros H x [<- | Hx]; auto.
      * intros H x Hx. apply H. now right.
Qed.

(** The mapper scores no reference without text. *)
Lemma total_score_text (author cyear : str) (ref : entry) (s : float) (ry : option str) :
  total_score author cyear ref = Some (s, ry) -> text ref <> [].
Proof.
  intros H E. unfold total_score in H. rewrite E in H. simpl in H. discriminate H.
Qed.

(** The reference of a match is one the loop scored. *)
Lemma map_scored (citation : str) (references : list entry) (m : mapping) :
  map_author_year_citation_to_reference citation references = Some m ->
  exists author cyear s ry,
    extract_author_year_from_citation citation = (Some author, Some cyear) /\
    total_score author cyear (reference m) = Some (s, ry).
Proof.
  intros H.
  destruct (ParserFacts.extract_author_year_from_citation_shape citation)
    as [N | (author & cyear & E & _)].
  { unfold map_author_year_citation_to_reference in H. rewrite N in H. discriminate. }
  rewrite (MatcherFacts.map_after_loop citation author cyear references E) in H.
  destruct (MatcherFacts.fold_visit author cyear (enumerate references)
              {| best_match := None; best_score := f0_0; best_ref_year := None |} eq_refl)
    as [[Eb A] | (p & x & s & ry & Hp & T & Eb & G & B & A)];
    rewrite Eb in H; simpl in H; [discriminate|].
  destruct x as [id ref]. destruct (gtb s f0_3); [|discriminate].
  injection H as <-. simpl. now exists author, cyear, s, ry.
Qed.

(** The entry of a result of [check] is the dict of the reference of the
    document at the position the result names, and that reference has
    text. *)
Lemma check_citation_reference (refs : list Reference) (c : Citation) (r : outcome) :
  check_citation (List.map reference_dict refs) c = Some r ->
  exists ref,
    nth_error refs (reference_id (om r)) = Some ref /\
    reference (om r) = reference_dict ref /\
    reference_text ref <> [].
Proof.
  unfold check_citation.
  destruct (str_eqb (format_type c) (u "author_year")); [|discriminate].
  destruct (map_author_year_citation_to_reference (citation_text c)
              (List.map reference_dict refs)) as [m|] eqn:E; [|discriminate].
  pose proof (MatcherFacts.map_position _ _ _ E) as P.
  destruct (map_scored _ _ _ E) as (author & cyear & s & ry & _ & T).
  apply total_score_text in T.
  rewrite nth_error_map in P.
  destruct (nth_error refs (reference_id m)) as [ref|] eqn:N; [|discriminate].
  simpl in P. injection P as P. rewrite <- P in T. simpl in T.
  destruct (CitationExtractor.extract_authors_from_reference _) as [authors has].
  intros H. injection H as <-. cbn [om].
  exists ref. split; [exact N|]. split; [now rewrite P | exact T].
Qed.

(** Every stored result is the result of one of the citations. *)
Lemma result_of_citation (document : Document) (r : outcome) :
  In r (all_mapping_results (check document)) ->
  exists c, In c (citations document) /\
    check_citation (List.map reference_dict (references document)) c = Some r.
Proof.
  unfold check. cbn [all_mapping_results]. intros Hr.
  apply in_flat_map in Hr. destruct Hr as (o & Ho & Hin).
  apply in_map_iff in Ho. destruct Ho as (c & <- & Hc).
  destruct (check_citation _ c) as [x|] eqn:E; [|contradiction].
  destruct Hin as [<- | []]. now exists c.
Qed.

(** X6: in the result of [check], the matched and the unmatched citations
    add up to all citations; the document is compliant exactly when every
    citation is of the author-year kind and the mapper matches it; a
    citation of any other kind, so every numbered one, is counted
    unmatched and makes the document not compliant. *)
Theorem check_counts (document : Document) :
  let res := check document in
  let reference_dicts := List.map reference_dict (references document) in
  (matched_citations res + unmatched_citations res = total_citations res)%nat /\
  (corrected_count res <= matched_citations res)%nat /\
  (formatted_count res <= matched_citations res)%nat /\
  (is_compliant res = true <->
   forall c, In c (citations document) ->
     format_type c = u "author_year" /\
     exists m, map_author_year_citation_to_reference (citation_text c) reference_dicts
               = Some m) /\
  (forall c, In c (citations document) -> format_type c <> u "author_year" ->
     is_compliant res = false).
Proof.
  intros res dicts. subst res. unfold check. fold dicts.
  cbn [matched_citations unmatched_citations total_citations corrected_count
       formatted_count is_compliant].
  assert (M : forall c, (exists r, check_citation dicts c = Some r) <->
              format_type c = u "author_year" /\
              exists m, map_author_year_citation_to_reference (citation_text c) dicts
                        = Some m).
  { intros c. unfold check_citation.
    destruct (str_eqb (format_type c) (u "author_year")) eqn:F.
    - apply str_eqb_eq in F.
      destruct (map_author_year_citation_to_reference (citation_text c) dicts) as [m|].
      + destruct (CitationExtractor.extract_authors_from_reference _) as [a h].
        split; eauto.
      + split; [intros [r H]; discriminate | intros [_ [m H]]; discriminate].
    - apply str_eqb_neq in F. split; [intros [r H]; discriminate | tauto]. }
  assert (C : (count (fun r => match r with None => true | Some _ => false end)
                 (List.map (check_citation dicts) (citations document)) =? 0)%nat = true
              <-> forall c, In c (citations document) ->
                    exists r, check_citation dicts c = Some r).
  { rewrite Nat.eqb_eq, count_zero. split.
    - intros H c Hc.
      specialize (H (check_citation dicts c) (in_map _ _ _ Hc)).
      destruct (check_citation dicts c); [eauto | discriminate].
    - intros H x Hx. apply in_map_iff in Hx. destruct Hx as (c & <- & Hc).
      destruct (H c Hc) as [r ->]. reflexivity. }
  split; [rewrite count_split; apply length_map|].
  split; [apply filter_length_le|]. split; [apply filter_length_le|].
  split.
  - rewrite C. split; intros H c Hc; apply M; auto.
  - intros c Hc Hf.
    destruct (_ =? 0)%nat; [|reflexivity].
    pose proof (proj1 C eq_refl c Hc) as Z. apply M in Z. tauto.
Qed.

(** X7: the entry matched by [check] is the dict of a reference of the
    document that has text.  When that reference has no year of its own,
    the year handed to the formatter is the whole text of the reference:
    with at least one author extracted, the formatted citation is
    [format_citation_by_authors] of the authors and that text. *)
Theorem missing_year_is_the_text (document : Document) (c : Citation) (r : outcome) :
  check_citation (List.map reference_dict (references document)) c = Some r ->
  exists ref,
    nth_error (references document) (reference_id (om r)) = Some ref /\
    reference (om r) = reference_dict ref /\
    reference_text ref <> [] /\
    (reference_year ref = None ->
     forall a l h,
       CitationExtractor.extract_authors_from_reference (reference_text ref) = (a :: l, h) ->
       formatted_citation r
       = Some (MapperFormat.format_citation_by_authors (a :: l) (reference_text ref)
                 (corrected_citation (om r)) h)).
Proof.
  intros H. destruct (check_citation_reference _ _ _ H) as (ref & N & P & T).
  exists ref. split; [exact N|]. split; [exact P|]. split; [exact T|].
  intros Y a l h Q. revert H. unfold check_citation.
  destruct (str_eqb (format_type c) (u "author_year")); [|discriminate].
  destruct (map_author_year_citation_to_reference (citation_text c) _) as [m|];
    [|discriminate].
  destruct (CitationExtractor.extract_authors_from_reference (text (reference m)))
    as [authors has] eqn:X.
  intros H. injection H as <-. cbn [om formatted_citation] in *.
  rewrite P in X |- *. cbn [text year reference_dict] in *.
  rewrite X in Q. injection Q as -> ->. rewrite Y.
  destruct (reference_text ref) as [|t0 t]; [congruence|]. reflexivity.
Qed.

(** X8: [check] lists a reference as unused exactly when it is a
    reference of the document whose text is the text of no matched
    reference; a reference that a citation selected is never listed. *)
Theorem check_unused_references (document : Document) (ref : Reference) :
  let res := check document in
  (In ref (unused_references res) <->
   In ref (references document) /\
   forall r, In r (all_mapping_results res) ->
     text (reference (om r)) <> reference_text ref) /\
  (forall r, In r (all_mapping_results res) ->
     nth_error (references document) (reference_id (om r)) = Some ref ->
     ~ In ref (unused_references res)).
Proof.
  intros res.
  assert (A : In ref (unused_references res) <->
              In ref (references document) /\
              forall r, In r (all_mapping_results res) ->
                text (reference (om r)) <> reference_text ref).
  { subst res. unfold check. cbn [unused_references all_mapping_results].
    set (results := flat_map _ _).
    rewrite filter_In. unfold unused. apply and_iff_compat_l.
    rewrite negb_true_iff. split.
    - intros H r Hr E.
      assert (X : existsb (str_eqb (reference_text ref))
                    (List.map (fun result => text (reference (om result))) results) = true).
      { apply existsb_exists. exists (text (reference (om r))). split.
        - apply (in_map (fun x => text (reference (om x)))). exact Hr.
        - rewrite E. apply str_eqb_refl. }
      congruence.
    - intros H. destruct (existsb _ _) eqn:X; [|reflexivity].
      apply existsb_exists in X. destruct X as (t & Ht & Et).
      apply in_map_iff in Ht. destruct Ht as (r & <- & Hr).
      apply str_eqb_eq in Et. elim (H r Hr). now symmetry. }
  split; [exact A|].
  intros r Hr Hn Hu. apply A in Hu. destruct Hu as [_ Hu]. apply (Hu r Hr).
  apply result_of_citation in Hr. destruct Hr as (c & _ & E).
  destruct (check_citation_reference _ _ _ E) as (ref' & N & P & _).
  rewrite Hn in N. injection N as <-. now rewrite P.
Qed.

End WithRuntime.

(** C9 at the failing input.  [analyze_document] raises [TypeError] when it
    makes its checker, so it reports nothing; the list of unused references
    made by the same test on texts is the one of [CitationChecker.check].
    A document prints the reference "Smith, J. (2020). Title." twice and
    cites "Smith（2020）": the citation selects the first of the two
    entries, the second is selected by no citation, and the result lists
    no unused reference. *)
Theorem duplicated_reference_is_not_listed :
  let ref := {| reference_text := u "Smith, J. (2020). Title.";
                reference_author := None; reference_year := None |} in
  let document :=
    {| content := []; tables := [];
       citations := [ {| citation_text := u "Smith（2020）";
                         format_type := u "author_year"; context := [];
                         citation_author := None; citation_year := None |} ];
       references := [ref; ref] |} in
  (forall config_path doc_path,
     CitationAnalyzer.analyze_document config_path doc_path = Raise TypeError) /\
  List.map (fun r => reference_id (om r)) (all_mapping_results (check document))
    = [0%nat] /\
  ~ (exists r, In r (all_mapping_results (check document)) /\
               reference_id (om r) = 1%nat) /\
  total_references (check document) = 2%nat /\
  unused_references (check document) = [].
Proof.
  intros ref document.
  assert (X : List.map (fun r => reference_id (om r))
                (all_mapping_results (check document)) = [0%nat])
    by (vm_compute; reflexivity).
  split; [reflexivity|]. split; [exact X|].
  split; [|split; vm_compute; reflexivity].
  intros (r & Hr & E).
  apply (in_map (fun r => reference_id (om r))) in Hr. rewrite X, E in Hr.
  destruct Hr as [Hr | []]. discriminate Hr.
Qed.

(** X7 on the citation "Smith（2O2O）" and the reference
    "Smith, J. (2020)." read without a year: the formatted citation holds
    the whole reference between the parentheses. *)
Lemma missing_year_is_the_text_witness :
  let document :=
    {| content := []; tables := [];
       citations := [ {| citation_text := Scenarios.smith_citation;
                         format_type := u "author_year"; context := [];
                         citation_author := None; citation_year := None |} ];
       references := [ {| reference_text := u "Smith, J. (2020).";
                          reference_author := None; reference_year := None |} ] |} in
  exists r,
    all_mapping_results (check document) = [r] /\
    formatted_citation r = Some (u "Smith（Smith, J. (2020).）").
Proof.
  intros document.
  pose (c := {| citation_text := Scenarios.smith_citation;
                format_type := u "author_year"; context := [];
                citation_author := None; citation_year := None |}).
  assert (E : exists r, check_citation (List.map reference_dict (references document)) c
                        = Some r /\ reference_id (om r) = 0%nat).
  { eexists. split; [vm_compute; reflexivity | reflexivity]. }
  destruct E as (r & Er & Id).
  destruct (missing_year_is_the_text document c r Er) as (ref & N & _ & _ & F).
  rewrite Id in N. simpl in N. injection N as <-.
  exists r. split.
  - unfold check. cbn [all_mapping_results citations document List.map flat_map].
    fold c. now rewrite Er.
  - rewrite (F eq_refl (u "Smith J.") [] false ltac:(vm_compute; reflexivity)).
    reflexivity.
Defined.

End CheckerFacts.
(** ** The mapper reads the text of an entry only *)

Module MapperReadsFacts.
Import F64 Re ReferenceMapper MapperReads.

Section WithRuntime.
Context {U : Unicode} {D : Difflib}.

Lemma total_score_reads_text (author cyear : str) (e1 e2 : entry) :
  text e1 = text e2 -> total_score author cyear e1 = total_score author cyear e2.
Proof. intros E. unfold total_score. now rewrite E. Qed.

Lemma visit_same_choice (author cyear : str) (b1 b2 : best) (i : nat) (e1 e2 : entry) :
  text e1 = text e2 -> same_choice b1 b2 ->
  same_choice (visit author cyear b1 (i, e1)) (visit author cyear b2 (i, e2)).
Proof.
  intros E (S & Y & M). unfold visit. cbn [snd].
  rewrite (total_score_reads_text author cyear e1 e2 E).
  destruct (total_score author cyear e2) as [[s ry]|]; [|now repeat split].
  rewrite S. destruct (gtb s (best_score b2)); [|now repeat split].
  repeat split; auto.
Qed.

Lemma fold_same_choice (author cyear : str) (l1 : list entry) :
  forall (l2 : list entry) (k : nat) (b1 b2 : best),
    List.map text l1 = List.map text l2 -> same_choice b1 b2 ->
    same_choice
      (fold_left (visit author cyear) (combine (seq k (length l1)) l1) b1)
      (fold_left (visit author cyear) (combine (seq k (length l2)) l2) b2).
Proof.
  induction l1 as [|e1 l1 IH]; intros [|e2 l2] k b1 b2 E R; simpl in E;
    try discriminate; [exact R|].
  injection E as E0 E. simpl. apply IH; [exact E|].
  now apply visit_same_choice.
Qed.

(** X9: the mapper reads nothing but the text of a reference entry: two
    lists of entries with the same texts, whatever their ['year'] keys
    hold, give the same verdict, the same position and the same corrected
    citation. *)
Theorem entry_year_is_not_read (citation : str) (references1 references2 : list entry) :
  List.map text references1 = List.map text references2 ->
  option_map summary (map_author_year_citation_to_reference citation references1)
  = option_map summary (map_author_year_citation_to_reference citation references2).
Proof.
  intros E. unfold map_author_year_citation_to_reference.
  destruct (extract_author_year_from_citation citation) as [[author|] [cyear|]];
    try reflexivity.
  destruct (negb (truthy (Some author)) || negb (truthy (Some cyear))); [reflexivity|].
  pose proof (fold_same_choice author cyear references1 references2 0
                {| best_match := None; best_score := f0_0; best_ref_year := None |}
                {| best_match := None; best_score := f0_0; best_ref_year := None |}
                E ltac:(repeat split)) as (S & Y & M).
  unfold enumerate.
  destruct (fold_left _ (combine (seq 0 (length references1)) references1) _)
    as [m1 s1 y1].
  destruct (fold_left _ (combine (seq 0 (length references2)) references2) _)
    as [m2 s2 y2].
  simpl in S, Y, M |- *. subst s2 y2.
  destruct m1 as [[i1 e1]|], m2 as [[i2 e2]|]; try contradiction; [|reflexivity].
  destruct M as [-> T].
  destruct (gtb s1 f0_3); [|reflexivity].
  destruct y1 as [ry|];
    [|cbv [option_map summary reference_id reference corrected_citation original_citation];
      now rewrite T].
  destruct (_ && negb (str_eqb ry cyear));
    cbv [option_map summary reference_id reference corrected_citation original_citation];
    now rewrite T.
Qed.

End WithRuntime.

(** X9 on the reference of Smith, read with three different years. *)
Lemma entry_year_is_not_read_witness :
  option_map summary
    (map_author_year_citation_to_reference Scenarios.smith_citation
       [ {| text := u "Smith, J. (2020)."; year := Some (u "1999") |} ])
  = option_map summary
      (map_author_year_citation_to_reference Scenarios.smith_citation
         [Scenarios.smith_reference]).
Proof.
  apply (entry_year_is_not_read Scenarios.smith_citation
           [ {| text := u "Smith, J. (2020)."; year := Some (u "1999") |} ]
           [Scenarios.smith_reference]).
  reflexivity.
Defined.

End MapperReadsFacts.

(** ** The formatters *)

Module FormatterMoreFacts.
Import ReSpec CitationFormatter.

Lemma substring_refl (x : str) : substring x x.
Proof. exists [], []. now rewrite app_nil_r. Qed.

Lemma substring_app_r (x y z : str) : substring x z -> substring x (y ++ z).
Proof. intros (pre & post & ->). exists (y ++ pre), post. now rewrite app_assoc. Qed.

Lemma substring_app_l (x y z : str) : substring x y -> substring x (y ++ z).
Proof.
  intros (pre & post & ->). exists pre, (post ++ z). now rewrite <- !app_assoc.
Qed.

Lemma substring_cons (x z : str) (c : char) : substring x z -> substring x (c :: z).
Proof. apply (substring_app_r x [c] z). Qed.

Lemma substring_nil (z : str) : substring [] z.
Proof. now exists [], z. Qed.

Create HintDb substr.

#[local] Hint Resolve substring_refl substring_app_r substring_app_l substring_cons
  substring_nil : substr.

Section WithUnicode.
Context {U : Unicode}.

Lemma join_nonempty_two (a b : str) :
  join_nonempty [a; b] =
  match a, b with
  | [], _ => b
  | _, [] => a
  | _, _ => a ++ [ch " "] ++ b
  end.
Proof.
  unfold join_nonempty. destruct a as [|x a], b as [|z b]; simpl; auto.
Qed.

Lemma substring_join_r (a b y : str) :
  substring y b -> substring y (join_nonempty [a; b]).
Proof.
  rewrite join_nonempty_two. destruct a as [|x a]; [auto|].
  destruct b as [|z b]; [|auto with substr].
  intros (pre & post & E). destruct pre, y; try discriminate. apply substring_nil.
Qed.

(** X10: every citation style prints the year: the year handed to
    [format_citation] occurs in the text it returns, for every list of
    authors. *)
Theorem format_citation_prints_year (config : CitationFormatType)
    (authors : list str) (year : str) :
  substring year (format_citation config authors year).
Proof.
  destruct config; unfold format_citation.
  - unfold _format_chinese_academy_of_sciences, format_surnames.
    destruct authors as [|first rest]; [solve [auto with substr]|].
    destruct (_contains_chinese first).
    + destruct (1 <? length (first :: rest))%nat; solve [auto 8 with substr].
    + repeat match goal with |- context [if ?b then _ else _] => destruct b end;
        solve [auto 8 with substr].
  - unfold _format_apa. apply substring_join_r. solve [auto 8 with substr].
  - unfold _format_mla. apply substring_app_l, substring_join_r, substring_refl.
  - unfold _format_chicago. apply substring_join_r. solve [auto with substr].
  - unfold _format_numeric. destruct authors; solve [auto 8 with substr].
Qed.

(** X11: [_format_surname_with_initials] changes nothing in a name it has
    already formatted. *)
Theorem format_surname_with_initials_idempotent (author : str) :
  _format_surname_with_initials (_format_surname_with_initials author)
  = _format_surname_with_initials author.
Proof.
  assert (K : forall a, contains (u ", ") a = true -> _format_surname_with_initials a = a).
  { intros a H. unfold _format_surname_with_initials. now rewrite H. }
  destruct (contains (u ", ") author) eqn:C; [now rewrite !(K author C)|].
  assert (E : _format_surname_with_initials author
              = if (2 <=? length (words author))%nat
                then last_of (words author) ++ u ", "
                     ++ join [ch " "]
                          (List.map (fun name => firstn 1 name ++ [ch "."])
                             (removelast (words author)))
                else author).
  { unfold _format_surname_with_initials. now rewrite C. }
  destruct (2 <=? length (words author))%nat.
  - rewrite E. apply K. apply PyFacts.contains_iff. auto with substr.
  - now rewrite !E.
Qed.

(** X12: for a single author and no "et al." mark, the three formatters of
    the program print the author's surname, each with its own function for
    surnames, or the whole name when it holds a CJK character, followed by
    the year between full-width parentheses: the test for institutional
    authors changes nothing in any of them. *)
Theorem single_author_formats (author year original_citation : str) :
  let chinese := CitationExtractor.contains_chinese author in
  _format_chinese_academy_of_sciences [author] year
  = (if chinese then author else _extract_surname author) ++ lp ++ year ++ rp /\
  MapperFormat.format_citation_by_authors [author] year original_citation false
  = (if chinese then author else AuthorSimilarity.extract_surname (VStr author))
    ++ lp ++ year ++ rp /\
  ExtractorFormat.format_citation_by_authors [author] year original_citation false
  = (if chinese then author else ExtractorFormat.extract_surname author)
    ++ lp ++ year ++ rp.
Proof.
  intros chinese. subst chinese.
  unfold _format_chinese_academy_of_sciences, format_surnames, _contains_chinese,
    MapperFormat.format_citation_by_authors, ExtractorFormat.format_citation_by_authors.
  destruct (CitationExtractor.contains_chinese author); simpl; [auto|].
  repeat split;
    match goal with |- context [if ?b then _ else _] => destruct b end; reflexivity.
Qed.

End WithUnicode.
End FormatterMoreFacts.
(** ** Surnames are short *)

Module SurnameFacts.
Import Words Builtins AuthorSimilarity.

Lemma words_go_words (s : str) :
  forall cur, forallb (fun c => negb (isspace c)) cur = true ->
    Forall is_word (words_go s cur).
Proof.
  assert (R : forall cur, cur <> [] -> forallb (fun c => negb (isspace c)) cur = true ->
              is_word (rev cur)).
  { intros cur N F. split.
    - intros E. apply (f_equal (@rev char)) in E. rewrite rev_involutive in E.
      now subst cur.
    - rewrite forallb_forall in F |- *. intros x Hx. apply F. now apply in_rev. }
  induction s as [|c s IH]; intros cur F; simpl.
  - destruct cur as [|x cur]; [constructor|]. constructor; [|constructor].
    apply R; [discriminate | exact F].
  - destruct (isspace c) eqn:Sc.
    + destruct cur as [|x cur]; [now apply IH|].
      constructor; [apply R; [discriminate | exact F] | now apply IH].
    + apply IH. simpl. now rewrite Sc.
Qed.

(** [s.split()] gives words. *)
Lemma words_are_words (s : str) : Forall is_word (words s).
Proof. now apply words_go_words. Qed.

Lemma words_go_run (w rest : str) :
  forallb (fun c => negb (isspace c)) w = true ->
  forall cur, words_go (w ++ rest) cur = words_go rest (rev w ++ cur).
Proof.
  induction w as [|x w IH]; intros F cur; simpl in *; [reflexivity|].
  apply andb_true_iff in F. destruct F as [Fx F]. apply negb_true_iff in Fx.
  rewrite Fx, (IH F). now rewrite <- app_assoc.
Qed.

(** A word is its own and only word. *)
Lemma words_of_word (w : str) : is_word w -> words w = [w].
Proof.
  intros [N F]. unfold words.
  rewrite <- (app_nil_r w) at 1. rewrite (words_go_run w [] F). simpl.
  rewrite app_nil_r. destruct (rev w) eqn:E.
  - apply (f_equal (@rev char)) in E. rewrite rev_involutive in E. now subst w.
  - rewrite <- E. now rewrite rev_involutive.
Qed.

Lemma words_of_two (a b : str) :
  is_word a -> is_word b -> words (a ++ [ch " "] ++ b) = [a; b].
Proof.
  intros [Na Fa] Hb. unfold words. rewrite (words_go_run a _ Fa). simpl.
  rewrite app_nil_r. destruct (rev a) eqn:E.
  - apply (f_equal (@rev char)) in E. rewrite rev_involutive in E. now subst a.
  - rewrite <- E, rev_involutive. f_equal. now apply words_of_word.
Qed.

Section WithUnicode.
Context {U : Unicode}.

(** X13: the surname that [extract_surname] of reference_mapper.py takes
    from a name has at most two words.  The branch that is to return
    three, for names like "van den Heuvel", is never taken, and in
    [format_citation_by_authors] the test for institutional authors by
    the number of words never holds. *)
Theorem extract_surname_at_most_two_words (name : value) :
  (length (words (extract_surname name)) <= 2)%nat /\
  (2 <? length (words (extract_surname name)))%nat = false.
Proof.
  assert (G : (length (words (extract_surname name)) <= 2)%nat);
    [|split; [exact G | apply Nat.ltb_ge; exact G]].
  unfold extract_surname. destruct (is_none name); [simpl; lia|].
  set (n := strip (Re.sub deng_suffix_re [] (strip (Re.sub et_al_suffix_re [] (str_ name))))).
  pose proof (words_are_words n) as W.
  destruct (rev (words n)) as [|last1 before] eqn:E.
  - apply (f_equal (@rev str)) in E. rewrite rev_involutive in E. rewrite E. simpl. lia.
  - assert (In1 : forall w, In w (last1 :: before) -> is_word w).
    { intros w Hw. rewrite <- E in Hw. apply in_rev in Hw.
      rewrite Forall_forall in W. now apply W. }
    assert (W1 : is_word last1) by (apply In1; now left).
    assert (P : forall last2 rest, before = last2 :: rest ->
              (length (words (if (length last1 =? 1)%nat
                                   || ((length last1 =? 2)%nat
                                       && (nth 1 last1 0 =? ch ".")%N)
                              then last2 else last1)) <= 2)%nat).
    { intros last2 rest ->.
      assert (W2 : is_word last2) by (apply In1; right; now left).
      destruct (_ || _); rewrite words_of_word; auto; simpl; lia. }
    destruct before as [|last2 before2].
    + destruct (_ || _); rewrite words_of_word; auto; simpl; lia.
    + assert (W2 : is_word last2) by (apply In1; right; now left).
      destruct (is_dutch_prefix last2) eqn:D2.
      * rewrite words_of_two; auto.
      * destruct before2 as [|last3 before3]; [now apply (P last2 [])|].
        rewrite andb_false_r. now apply (P last2 (last3 :: before3)).
Qed.

End WithUnicode.

(** X14: for a name without a comma, the surname taken by the formatter
    ([_extract_surname], the last word) and the one taken by the extractor
    ([extract_surname], the first word) is a single word or empty, so the
    test for institutional authors by the number of words cannot hold for
    it. *)
Theorem comma_free_surname_is_one_word (author : str) :
  contains [ch ","] (strip author) = false ->
  (length (words (CitationFormatter._extract_surname author)) <= 1)%nat /\
  (length (words (ExtractorFormat.extract_surname author)) <= 1)%nat.
Proof.
  intros C.
  unfold CitationFormatter._extract_surname, ExtractorFormat.extract_surname.
  rewrite C. pose proof (words_are_words (strip author)) as W.
  assert (L : is_word (CitationFormatter.last_of (words (strip author)))
              \/ words (strip author) = []).
  { destruct (words (strip author)) as [|p l] eqn:E; [now right|]. left.
    rewrite Forall_forall in W. apply W. unfold CitationFormatter.last_of.
    destruct (exists_last (l := p :: l) ltac:(discriminate)) as (l' & x & ->).
    rewrite last_last. apply in_or_app. right. now left. }
  destruct (words (strip author)) as [|p [|q l]] eqn:E.
  - rewrite E. simpl. lia.
  - inversion W as [|? ? Wp _]. rewrite (words_of_word p Wp). simpl. lia.
  - inversion W as [|? ? Wp _].
    destruct L as [L | L]; [|discriminate].
    rewrite (words_of_word _ L), (words_of_word p Wp). simpl. lia.
Qed.

(** X14 on an organisation of three words. *)
Lemma comma_free_surname_is_one_word_witness :
  (length (words (CitationFormatter._extract_surname (u "World Health Organization")))
   <= 1)%nat /\
  (length (words (ExtractorFormat.extract_surname (u "World Health Organization")))
   <= 1)%nat.
Proof.
  apply (comma_free_surname_is_one_word (u "World Health Organization")). reflexivity.
Defined.

End SurnameFacts.
(** ** Names that contain one another are similar *)

Module SimilarityFacts.
Import F64 F64Facts Builtins AuthorSimilarity.

(** A number above the threshold 0.7 of [is_similar_author]. *)
Lemma above_max (s c : float) :
  is_nan s = false -> is_nan c = false -> gtb c f0_7 = true ->
  is_nan (max s c) = false /\ gtb (max s c) f0_7 = true.
Proof.
  intros Ns Nc Gc. unfold max. destruct (gtb c s) eqn:G; [now split|].
  split; [exact Ns|].
  apply (gtb_le_trans f0_7 c s); auto.
Qed.

Section WithRuntime.
Context {U : Unicode} {D : Difflib}.

Lemma surname_bonus_above (x : float) (n1 n2 : str) :
  is_nan x = false /\ gtb x f0_7 = true ->
  is_nan (surname_bonus x n1 n2) = false /\ gtb (surname_bonus x n1 n2) f0_7 = true.
Proof.
  intros [Nx Gx]. unfold surname_bonus.
  destruct (str_eqb n1 n2); [now apply above_max|].
  destruct (_ || _); [now apply above_max | now split].
Qed.

Lemma conjunction_block_above (x : float) (first other : str) (left : bool) :
  is_nan x = false /\ gtb x f0_7 = true ->
  is_nan (conjunction_block x first other left) = false /\
  gtb (conjunction_block x first other left) f0_7 = true.
Proof.
  intros [Nx Gx]. unfold conjunction_block.
  set (f := if left then ratio first other else ratio other first).
  assert (Nf : is_nan f = false) by (unfold f; destruct left; apply ratio_number).
  destruct (gtb f x) eqn:G; [|now split].
  assert (Gf : gtb f f0_7 = true) by (apply (gtb_trans f x f0_7); auto).
  assert (P : is_nan (if contains first other || contains other first
                      then max f f0_9 else f) = false /\
              gtb (if contains first other || contains other first
                   then max f f0_9 else f) f0_7 = true).
  { destruct (_ || _); [now apply above_max | now split]. }
  destruct (is_english_name (VStr first)); [|exact P].
  destruct left; apply surname_bonus_above; exact P.
Qed.

Lemma initials_block_above (x : float) (full other : str) :
  is_nan x = false /\ gtb x f0_7 = true ->
  is_nan (initials_block x full other) = false /\
  gtb (initials_block x full other) f0_7 = true.
Proof.
  intros [Nx Gx]. unfold initials_block.
  destruct (_ && _); [|now split].
  destruct (str_eqb _ other); [now apply above_max|].
  destruct (_ || _); [now apply above_max | now split].
Qed.

(** X15: two names of which one, trimmed and case-folded, occurs in the
    other are similar authors, whatever [difflib] computes for them. *)
Theorem contained_name_is_similar (author1 author2 : str) :
  let a1 := lower (strip author1) in
  let a2 := lower (strip author2) in
  contains a1 a2 || contains a2 a1 = true ->
  is_similar_author (VStr author1) (VStr author2) = Ok true.
Proof.
  intros a1 a2 C. unfold is_similar_author, calculate_author_similarity.
  cbn [is_none str_]. fold a1 a2.
  destruct (str_eqb a1 a2); [reflexivity|].
  rewrite C. cbn [bind]. f_equal.
  assert (P0 : is_nan (max (ratio a1 a2) f0_9) = false /\
               gtb (max (ratio a1 a2) f0_9) f0_7 = true).
  { apply above_max; [apply ratio_number | reflexivity | reflexivity]. }
  revert P0. generalize (max (ratio a1 a2) f0_9). intros x0 P0.
  assert (P1 : is_nan (if is_english_name (VStr a1) && is_english_name (VStr a2)
                       then surname_bonus x0 (extract_surname (VStr a1))
                              (extract_surname (VStr a2))
                       else x0) = false /\
               gtb (if is_english_name (VStr a1) && is_english_name (VStr a2)
                    then surname_bonus x0 (extract_surname (VStr a1))
                           (extract_surname (VStr a2))
                    else x0) f0_7 = true).
  { destruct (_ && _); [now apply surname_bonus_above | exact P0]. }
  revert P1. match goal with |- (is_nan ?t = false /\ _) -> _ => generalize t end.
  intros x1 P1.
  assert (P2 : is_nan (if has_conjunction a1 && negb (has_conjunction a2)
                       then conjunction_block x1 (first_of_conjunction a1) a2 true
                       else x1) = false /\
               gtb (if has_conjunction a1 && negb (has_conjunction a2)
                    then conjunction_block x1 (first_of_conjunction a1) a2 true
                    else x1) f0_7 = true).
  { destruct (_ && _); [now apply conjunction_block_above | exact P1]. }
  revert P2. match goal with |- (is_nan ?t = false /\ _) -> _ => generalize t end.
  intros x2 P2.
  assert (P3 : is_nan (if has_conjunction a2 && negb (has_conjunction a1)
                       then conjunction_block x2 (first_of_conjunction a2) a1 false
                       else x2) = false /\
               gtb (if has_conjunction a2 && negb (has_conjunction a1)
                    then conjunction_block x2 (first_of_conjunction a2) a1 false
                    else x2) f0_7 = true).
  { destruct (_ && _); [now apply conjunction_block_above | exact P2]. }
  revert P3. match goal with |- (is_nan ?t = false /\ _) -> _ => generalize t end.
  intros x3 P3.
  apply initials_block_above, initials_block_above, P3.
Qed.

End WithRuntime.

(** X15 on "Smith" and " SMITH, J. ". *)
Lemma contained_name_is_similar_witness :
  is_similar_author (VStr (u "Smith")) (VStr (u " SMITH, J. ")) = Ok true.
Proof.
  apply (contained_name_is_similar (U := basic_latin) (D := plain_difflib)
           (u "Smith") (u " SMITH, J. ")).
  reflexivity.
Defined.

End SimilarityFacts.
